(** * Vsqlite3: a shallow embedding of [Include/Vsqlite3/Vsqlite3.hpp]

    The header wraps the SQLite3 C API.  The embedding follows the header
    top-down:

    - [HandleModel]: the class template [Handle<T, InvalidHandleValue>],
      objects living in a store addressed by position so that
      [operator=(Handle&&)] can tell [this] from [&other];
    - [SqliteException] and the exceptions the wrapper throws;
    - the engine (SQLite itself) as an interface, [Sqlite3Engine]: the
      wrapper is verified against every implementation of it;
    - a state-and-exception monad in which [Statement]'s methods run, with a
      log of the engine calls they issue;
    - the [Binding<T>] registry, [Statement] and [Database].  *)

From Stdlib Require Import ZArith List Lia Bool String.
From stdpp Require Import base decidable option list.
Import ListNotations.

Local Open Scope Z_scope.

(** ** Handle<T, InvalidHandleValue> *)

Module HandleModel.
Section Handle.

(** [T] is the native resource type, [InvalidHandleValue] the sentinel, and
    [Fn] names the callables a [std::function<void(T)>] can hold; [None]
    is the empty function ([nullptr]). *)
Context {T : Type} `{EqDecision T} (InvalidHandleValue : T).
Context {Fn : Type} `{EqDecision Fn}.

Record Handle := mkHandle { m_handle : T; m_releaseFn : option Fn }.

(** One call [m_releaseFn(m_handle)]. *)
Definition invocation : Type := Fn * T.

(** [Handle()] delegates to [Handle(InvalidHandleValue, nullptr)]. *)
Definition Handle_default : Handle := mkHandle InvalidHandleValue None.

Definition Get (h : Handle) : T := m_handle h.

(** [Reset()]: forget the value and the function, calling nothing. *)
Definition Reset (h : Handle) : Handle := mkHandle InvalidHandleValue None.

(** [Release()]: result, new object state, and the calls it made. *)
Definition Release (h : Handle) : bool * Handle * list invocation :=
  if bool_decide (m_handle h ≠ InvalidHandleValue) then
    match m_releaseFn h with
    | Some f => (true, Reset h, [(f, m_handle h)])
    | None => (false, h, [])
    end
  else (false, h, []).

(** [~Handle()]: [if (!this->Release()) this->Reset();] *)
Definition destroy (h : Handle) : Handle * list invocation :=
  let '(r, h', tr) := Release h in
  if negb r then (Reset h', tr) else (h', tr).

(** *** Objects in a store

    [objs] holds the Handle objects, addressed by position; [calls] is the
    trace of release-function calls made so far. *)
Record store := mkStore { objs : list Handle; calls : list invocation }.

Definition Handle_ctor (v : T) (f : option Fn) (s : store) : nat * store :=
  (length (objs s), mkStore (objs s ++ [mkHandle v f]) (calls s)).

Definition Handle_ctor_default (s : store) : nat * store :=
  Handle_ctor InvalidHandleValue None s.

Definition Get_at (this : nat) (s : store) : option T :=
  Get <$> objs s !! this.

Definition Release_at (this : nat) (s : store) : bool * store :=
  match objs s !! this with
  | Some h =>
      let '(r, h', tr) := Release h in
      (r, mkStore (<[this := h']> (objs s)) (calls s ++ tr))
  | None => (false, s)
  end.

Definition Reset_at (this : nat) (s : store) : store :=
  match objs s !! this with
  | Some h => mkStore (<[this := Reset h]> (objs s)) (calls s)
  | None => s
  end.

Definition destroy_at (this : nat) (s : store) : store :=
  let '(r, s') := Release_at this s in
  if negb r then Reset_at this s' else s'.

(** [operator=(Handle&& other)], with its guard [this != &other].  Both
    addresses are to be objects of the store; otherwise nothing happens. *)
Definition move_assign (this other : nat) (s : store) : store :=
  if bool_decide (this ≠ other) then
    match objs s !! this, objs s !! other with
    | Some _, Some _ =>
        let s1 := snd (Release_at this s) in
        match objs s1 !! other with
        | Some o =>
            let s2 :=
              mkStore (<[this := mkHandle (m_handle o) (m_releaseFn o)]> (objs s1))
                      (calls s1) in
            Reset_at other s2
        | None => s1
        end
    | _, _ => s
    end
  else s.

(** [Handle(Handle&& other)]: [Handle()] followed by [operator=]. *)
Definition Handle_move_ctor (other : nat) (s : store) : nat * store :=
  let '(this, s') := Handle_ctor_default s in
  (this, move_assign this other s').

(** A write through [GetAddressOf()], as [sqlite3_open_v2] and
    [sqlite3_prepare_v2] do with the out-pointer they are given. *)
Definition store_through (this : nat) (v : T) (s : store) : store :=
  match objs s !! this with
  | Some h => mkStore (<[this := mkHandle v (m_releaseFn h)]> (objs s)) (calls s)
  | None => s
  end.

(** [h = { v, f }]: a temporary is built, move-assigned into [h] and
    destroyed. *)
Definition assign_temporary (h : Handle) (v : T) (f : option Fn)
  : Handle * list invocation :=
  let s0 := mkStore [h] [] in
  let '(tmp, s1) := Handle_ctor v f s0 in
  let s2 := move_assign 0%nat tmp s1 in
  let s3 := destroy_at tmp s2 in
  (default h (objs s3 !! 0%nat), calls s3).

(** *** Lifetimes: programs over the store *)

Inductive op :=
| OpCtor (v : T) (f : option Fn)
| OpCtorDefault
| OpMoveCtor (other : nat)
| OpMoveAssign (this other : nat)
| OpGet (this : nat)
| OpStore (this : nat) (v : T)
| OpRelease (this : nat)
| OpReset (this : nat)
| OpDestroy (this : nat).

Definition exec (o : op) (s : store) : store :=
  match o with
  | OpCtor v f => snd (Handle_ctor v f s)
  | OpCtorDefault => snd (Handle_ctor_default s)
  | OpMoveCtor other => snd (Handle_move_ctor other s)
  | OpMoveAssign this other => move_assign this other s
  | OpGet _ => s
  | OpStore this v => store_through this v s
  | OpRelease this => snd (Release_at this s)
  | OpReset this => Reset_at this s
  | OpDestroy this => destroy_at this s
  end.

Definition run (ops : list op) (s : store) : store :=
  fold_left (fun s o => exec o s) ops s.

Definition empty_store : store := mkStore [] [].

(** *** Ghost accounting of resources

    A resource is a live value together with the function that releases
    it.  [owns r h] is 1 when [h] holds [r]. *)
Definition resource : Type := Fn * T.

Definition held (h : Handle) : option resource :=
  if bool_decide (m_handle h ≠ InvalidHandleValue) then
    (fun f => (f, m_handle h)) <$> m_releaseFn h
  else None.

Definition owns (r : resource) (h : Handle) : nat :=
  if bool_decide (held h = Some r) then 1%nat else 0%nat.

Fixpoint holders (r : resource) (l : list Handle) : nat :=
  match l with
  | [] => 0%nat
  | h :: l' => (owns r h + holders r l')%nat
  end.

Definition times (r : resource) (l : list resource) : nat :=
  length (filter (fun x => x = r) l).

(** Resources that enter a handle: by [Handle(v, f)] and by a write through
    [GetAddressOf()]. *)
Definition acquired_by (o : op) (s : store) : list resource :=
  match o with
  | OpCtor v f => option_list (held (mkHandle v f))
  | OpStore this v =>
      match objs s !! this with
      | Some h => option_list (held (mkHandle v (m_releaseFn h)))
      | None => []
      end
  | _ => []
  end.

(** Resources that leave a handle without their release function being
    called: [Reset()] on a live handle and a write through
    [GetAddressOf()] over a live value. *)
Definition dropped_by (o : op) (s : store) : list resource :=
  match o with
  | OpStore this _ | OpReset this =>
      match objs s !! this with
      | Some h => option_list (held h)
      | None => []
      end
  | _ => []
  end.

Fixpoint acquired (ops : list op) (s : store) : list resource :=
  match ops with
  | [] => []
  | o :: ops' => acquired_by o s ++ acquired ops' (exec o s)
  end.

Fixpoint dropped (ops : list op) (s : store) : list resource :=
  match ops with
  | [] => []
  | o :: ops' => dropped_by o s ++ dropped ops' (exec o s)
  end.

(** Destroying every object of the store, in address order. *)
Definition destroy_all (s : store) : list op :=
  map OpDestroy (seq 0 (length (objs s))).

End Handle.
End HandleModel.

(** ** SqliteException *)

(** [what] is the message handed to [std::runtime_error]; an [int] is a
    32-bit two's-complement integer, carried as a [Z]. *)
Record SqliteException := mkSqliteException {
  what : string;
  m_extendedErrorCode : Z
}.

Definition GetExtendedErrorCode (e : SqliteException) : Z :=
  m_extendedErrorCode e.

Definition GetPrimaryErrorCode (e : SqliteException) : Z :=
  Z.land (m_extendedErrorCode e) 0xFF.

(** What the wrapper throws: [std::invalid_argument], which has a message and
    no code, or [SqliteException]. *)
Inductive exn :=
| invalid_argument (msg : string)
| sqlite_exception (e : SqliteException).

Definition error_code_of (e : exn) : option Z :=
  match e with
  | invalid_argument _ => None
  | sqlite_exception x => Some (GetExtendedErrorCode x)
  end.

(** ** The engine's C surface *)

(** Modelled from the spec: the status and type codes of the engine, which
    the header takes from [sqlite3.h] (not part of the repository): success,
    "row produced", "done, no more rows" and the SQL NULL type code, with
    the values [sqlite3.h] gives them. *)
Definition SQLITE_OK : Z := 0.
Definition SQLITE_ROW : Z := 100.
Definition SQLITE_DONE : Z := 101.
Definition SQLITE_NULL : Z := 5.

(** The destructor argument of [sqlite3_bind_text] and [sqlite3_bind_blob64]:
    [SQLITE_TRANSIENT] makes the engine copy the bytes before returning. *)
Inductive destructor := SQLITE_STATIC | SQLITE_TRANSIENT.

(** [sqlite3*] and [sqlite3_stmt*] are addresses; [0] is [nullptr]. *)
Definition sqlite3 : Type := Z.
Definition sqlite3_stmt : Type := Z.
Definition nullptr : Z := 0.

(** A [const char*] or [const void*] argument or result is [None] for a null
    pointer and otherwise the bytes readable from the pointee onwards. *)
Definition cptr : Type := option (list Byte.byte).

(** The floating-point types of C++. *)
Inductive fty := Float | Double | LongDouble.

(** The engine: the C functions the header calls, on an engine state passed
    explicitly.  Floating-point values stay abstract: [fl] carries them,
    [fcast t] is the conversion to the format [t]. *)
Class Sqlite3Engine := {
  engine : Type;
  fl : Type;
  fzero : fl;
  fcast : fty -> fl -> fl;
  sqlite3_open_v2 : cptr -> Z -> engine -> (Z * sqlite3) * engine;
  sqlite3_close_v2 : sqlite3 -> engine -> Z * engine;
  sqlite3_prepare_v2 : sqlite3 -> cptr -> Z -> engine -> (Z * sqlite3_stmt) * engine;
  sqlite3_finalize : sqlite3_stmt -> engine -> Z * engine;
  sqlite3_reset : sqlite3_stmt -> engine -> Z * engine;
  sqlite3_step : sqlite3_stmt -> engine -> Z * engine;
  sqlite3_clear_bindings : sqlite3_stmt -> engine -> Z * engine;
  sqlite3_db_handle : sqlite3_stmt -> engine -> sqlite3;
  sqlite3_errmsg : sqlite3 -> engine -> string;
  sqlite3_extended_errcode : sqlite3 -> engine -> Z;
  sqlite3_bind_null : sqlite3_stmt -> Z -> engine -> Z * engine;
  sqlite3_bind_text : sqlite3_stmt -> Z -> cptr -> Z -> destructor -> engine -> Z * engine;
  sqlite3_bind_int : sqlite3_stmt -> Z -> Z -> engine -> Z * engine;
  sqlite3_bind_int64 : sqlite3_stmt -> Z -> Z -> engine -> Z * engine;
  sqlite3_bind_double : sqlite3_stmt -> Z -> fl -> engine -> Z * engine;
  sqlite3_bind_blob64 : sqlite3_stmt -> Z -> cptr -> Z -> destructor -> engine -> Z * engine;
  sqlite3_column_type : sqlite3_stmt -> Z -> engine -> Z * engine;
  sqlite3_column_bytes : sqlite3_stmt -> Z -> engine -> Z * engine;
  sqlite3_column_text : sqlite3_stmt -> Z -> engine -> cptr * engine;
  sqlite3_column_blob : sqlite3_stmt -> Z -> engine -> cptr * engine;
  sqlite3_column_int : sqlite3_stmt -> Z -> engine -> Z * engine;
  sqlite3_column_int64 : sqlite3_stmt -> Z -> engine -> Z * engine;
  sqlite3_column_double : sqlite3_stmt -> Z -> engine -> fl * engine
}.

(** ** State, exceptions and the log of engine calls *)

Inductive outcome (A : Type) :=
| Ret (a : A)
| Throw (e : exn).
Arguments Ret {A} a.
Arguments Throw {A} e.

(** A computation on a state [S] that returns or throws; the state survives
    a throw, as an object's fields do. *)
Definition M (S A : Type) : Type := S -> outcome A * S.

Definition ret {S A} (a : A) : M S A := fun s => (Ret a, s).
Definition throw {S A} (e : exn) : M S A := fun s => (Throw e, s).
Definition bind {S A B} (m : M S A) (k : A -> M S B) : M S B :=
  fun s =>
    match m s with
    | (Ret a, s') => k a s'
    | (Throw e, s') => (Throw e, s')
    end.
Definition modify {S} (f : S -> S) : M S unit := fun s => (Ret tt, f s).

Declare Scope m_scope.
Delimit Scope m_scope with M.
Notation "'let*' x ':=' m 'in' k" := (bind m (fun x => k))
  (at level 10, x name, m at level 100, k at level 200) : m_scope.
Notation "m ;; k" := (bind m (fun _ => k))
  (at level 100, k at level 200, right associativity) : m_scope.
Local Open Scope m_scope.

Definition is_ret {A} (r : outcome A) : bool :=
  match r with Ret _ => true | Throw _ => false end.

(** ** Value types of the Binding<T> registry *)

(** An integral type: signedness and [sizeof] in bytes. *)
Record ity := mkIty { ity_signed : bool; ity_size : nat }.

Definition int8_t := mkIty true 1.
Definition uint8_t := mkIty false 1.
Definition int16_t := mkIty true 2.
Definition uint16_t := mkIty false 2.
Definition int32_t := mkIty true 4.
Definition uint32_t := mkIty false 4.
Definition int64_t := mkIty true 8.
Definition uint64_t := mkIty false 8.

(** [static_cast<t>(v)] between integral types: reduction modulo [2^bits]
    into the range of [t]. *)
Definition static_cast (t : ity) (v : Z) : Z :=
  let m := 2 ^ (8 * Z.of_nat (ity_size t)) in
  if ity_signed t then (v + m / 2) mod m - m / 2 else v mod m.

(** [std::string_view]: the pointer [data()] and the length [size()]; the
    characters of the view are the first [sv_size] bytes at [sv_data]. *)
Record string_view := mkStringView { sv_data : cptr; sv_size : nat }.

Definition sv_empty (v : string_view) : bool := Nat.eqb (sv_size v) 0.
Definition sv_chars (v : string_view) : list Byte.byte :=
  firstn (sv_size v) (default [] (sv_data v)).

(** [std::string::c_str()]: the characters followed by a terminating zero. *)
Definition c_str (s : list Byte.byte) : cptr := Some (s ++ [Byte.x00]).

(** The types that have a [Bind] rule. *)
Inductive bty :=
| BNullptr                 (* std::nullptr_t *)
| BNullopt                 (* std::nullopt_t *)
| BOptional (t : bty)      (* std::optional<T> *)
| BCStr                    (* const char* *)
| BCharArray               (* char[Len] *)
| BStringView              (* std::string_view *)
| BString                  (* std::string *)
| BInt (t : ity)           (* std::integral T, other than bool *)
| BFloat (t : fty)         (* std::floating_point T *)
| BBool                    (* bool *)
| BConstSpan               (* std::span<const std::uint8_t> *)
| BSpan                    (* std::span<std::uint8_t> *)
| BVector.                 (* std::vector<std::uint8_t> *)

(** The types that have a [Column] rule. *)
Inductive cty :=
| COptional (t : cty)
| CString
| CInt (t : ity)
| CFloat (t : fty)
| CBool
| CSpan
| CVector.

Fixpoint cty_bty (t : cty) : bty :=
  match t with
  | COptional t' => BOptional (cty_bty t')
  | CString => BString
  | CInt i => BInt i
  | CFloat f => BFloat f
  | CBool => BBool
  | CSpan => BSpan
  | CVector => BVector
  end.

(** A contiguous range of bytes as [std::span] and [std::vector] present
    it: the pointer [data()] with the elements it points at.  [data()] is
    null for a range that has no storage (a default-constructed span, a
    vector that never allocated), and such a range is empty; an empty range
    with storage (a vector that was reserved or cleared, an empty part of a
    buffer) has a pointer that is not null. *)
Definition byte_range : Type := cptr.

Definition elements (r : byte_range) : list Byte.byte := default [] r.

(** [std::memcpy(dst, src, n)] seen on the destination buffer. *)
Definition memcpy (dst src : list Byte.byte) (n : nat) : list Byte.byte :=
  let s := firstn n src in s ++ skipn (length s) dst.

(** [std::vector::resize(n)]: keep a prefix, pad with zeros.  A vector
    without storage gets storage only when it is to hold an element. *)
Definition resize (v : byte_range) (n : nat) : byte_range :=
  match v with
  | Some l => Some (firstn n l ++ repeat Byte.x00 (n - length l))
  | None => if Nat.eqb n 0 then None else Some (repeat Byte.x00 n)
  end.

(** The release functions the header stores in its handles. *)
Inductive release_fn := fn_sqlite3_close_v2 | fn_sqlite3_finalize.

#[global] Instance release_fn_eq_dec : EqDecision release_fn.
Proof. solve_decision. Defined.

Section Wrapper.

Context {E : Sqlite3Engine}.

(** Values of the bindable and of the readable types.  A character array
    is its contents, [Len] being their number; a span or vector of bytes
    is a range of bytes: its [data()] and its elements. *)
Fixpoint bval (t : bty) : Type :=
  match t with
  | BNullptr | BNullopt => unit
  | BOptional t' => option (bval t')
  | BCStr => cptr
  | BCharArray => list Byte.byte
  | BStringView => string_view
  | BString => list Byte.byte
  | BInt _ => Z
  | BFloat _ => fl
  | BBool => bool
  | BConstSpan | BSpan | BVector => byte_range
  end.

Fixpoint cval (t : cty) : Type :=
  match t with
  | COptional t' => option (cval t')
  | CString => list Byte.byte
  | CInt _ => Z
  | CFloat _ => fl
  | CBool => bool
  | CSpan | CVector => byte_range
  end.

(** [T()], the value [std::optional<T>::emplace()] constructs. *)
Definition value_init (t : cty) : cval t :=
  match t with
  | COptional _ => None
  | CString => []
  | CInt _ => 0
  | CFloat _ => fzero
  | CBool => false
  | CSpan | CVector => None
  end.

Fixpoint cval_bval (t : cty) : cval t -> bval (cty_bty t) :=
  match t with
  | COptional t' => fun v => cval_bval t' <$> v
  | CString => fun v => v
  | CInt _ => fun v => v
  | CFloat _ => fun v => v
  | CBool => fun v => v
  | CSpan => fun v => v
  | CVector => fun v => v
  end.

(** An argument of a parameter pack: a type and a value of it. *)
Definition barg : Type := { t : bty & bval t }.
Definition carg : Type := { t : cty & cval t }.

(** *** The log of engine calls

    Every call that can change the engine or its current row is logged
    with its arguments and its result.  The three getters used to build
    an exception only read the engine and are not logged. *)
Inductive event :=
| EvOpen (filename : cptr) (flags res : Z) (db : sqlite3)
| EvClose (db : sqlite3) (res : Z)
| EvPrepare (db : sqlite3) (zSql : cptr) (nByte res : Z) (p : sqlite3_stmt)
| EvFinalize (p : sqlite3_stmt) (res : Z)
| EvReset (p : sqlite3_stmt) (res : Z)
| EvStep (p : sqlite3_stmt) (res : Z)
| EvClearBindings (p : sqlite3_stmt) (res : Z)
| EvBindNull (p : sqlite3_stmt) (index res : Z)
| EvBindText (p : sqlite3_stmt) (index : Z) (z : cptr) (n : Z) (d : destructor) (res : Z)
| EvBindInt (p : sqlite3_stmt) (index v res : Z)
| EvBindInt64 (p : sqlite3_stmt) (index v res : Z)
| EvBindDouble (p : sqlite3_stmt) (index : Z) (v : fl) (res : Z)
| EvBindBlob64 (p : sqlite3_stmt) (index : Z) (z : cptr) (n : Z) (d : destructor) (res : Z)
| EvColumnType (p : sqlite3_stmt) (column res : Z)
| EvColumnBytes (p : sqlite3_stmt) (column res : Z)
| EvColumnText (p : sqlite3_stmt) (column : Z) (res : cptr)
| EvColumnBlob (p : sqlite3_stmt) (column : Z) (res : cptr)
| EvColumnInt (p : sqlite3_stmt) (column res : Z)
| EvColumnInt64 (p : sqlite3_stmt) (column res : Z)
| EvColumnDouble (p : sqlite3_stmt) (column : Z) (res : fl).

Record World := mkWorld { eng : engine; log : list event }.

(** One logged engine call. *)
Definition call {A} (f : engine -> A * engine) (ev : A -> event) : M World A :=
  fun w => let '(a, e') := f (eng w) in (Ret a, mkWorld e' (log w ++ [ev a])).

(** The constructors of [SqliteException] from a connection and from a
    statement, which reads its connection's error state. *)
Definition SqliteException_db (pDb : sqlite3) (w : World) : SqliteException :=
  mkSqliteException (sqlite3_errmsg pDb (eng w))
                    (sqlite3_extended_errcode pDb (eng w)).

Definition SqliteException_stmt (pStmt : sqlite3_stmt) (w : World) : SqliteException :=
  SqliteException_db (sqlite3_db_handle pStmt (eng w)) w.

Definition throw_db {S A} (proj : S -> World) (pDb : sqlite3) : M S A :=
  fun s => (Throw (sqlite_exception (SqliteException_db pDb (proj s))), s).

Definition throw_stmt {S A} (proj : S -> World) (pStmt : sqlite3_stmt) : M S A :=
  fun s => (Throw (sqlite_exception (SqliteException_stmt pStmt (proj s))), s).

(** *** Binding<T>::Bind

    A span or vector of bytes hands the engine its [data()], null when the
    range has no storage, and its size. *)

Definition Bind_nullptr (pStmt : sqlite3_stmt) (index : Z) : M World Z :=
  call (sqlite3_bind_null pStmt index) (EvBindNull pStmt index).

Definition Bind_cstr (pStmt : sqlite3_stmt) (index : Z) (arg : cptr) : M World Z :=
  call (sqlite3_bind_text pStmt index arg (-1) SQLITE_TRANSIENT)
       (EvBindText pStmt index arg (-1) SQLITE_TRANSIENT).

Definition Bind_integral (t : ity) (pStmt : sqlite3_stmt) (index : Z) (arg : Z)
  : M World Z :=
  if (ity_size t <? ity_size int64_t)%nat then
    let v := static_cast int32_t arg in
    call (sqlite3_bind_int pStmt index v) (EvBindInt pStmt index v)
  else
    let v := static_cast int64_t arg in
    call (sqlite3_bind_int64 pStmt index v) (EvBindInt64 pStmt index v).

Definition Bind_const_span (pStmt : sqlite3_stmt) (index : Z) (arg : byte_range)
  : M World Z :=
  let n := static_cast uint64_t (Z.of_nat (length (elements arg))) in
  call (sqlite3_bind_blob64 pStmt index arg n SQLITE_TRANSIENT)
       (EvBindBlob64 pStmt index arg n SQLITE_TRANSIENT).

Fixpoint Binding_Bind (t : bty) (pStmt : sqlite3_stmt) (index : Z)
  : bval t -> M World Z :=
  match t return bval t -> M World Z with
  | BNullptr => fun _ => Bind_nullptr pStmt index
  | BNullopt => fun _ => Bind_nullptr pStmt index
  | BOptional t' => fun arg =>
      match arg with
      | Some v => Binding_Bind t' pStmt index v
      | None => Bind_nullptr pStmt index
      end
  | BCStr => fun arg => Bind_cstr pStmt index arg
  | BCharArray => fun arg =>
      let n := static_cast int32_t (Z.of_nat (length arg) - 1) in
      call (sqlite3_bind_text pStmt index (Some arg) n SQLITE_TRANSIENT)
           (EvBindText pStmt index (Some arg) n SQLITE_TRANSIENT)
  | BStringView => fun arg => Bind_cstr pStmt index (sv_data arg)
  | BString => fun arg => Bind_cstr pStmt index (c_str arg)
  | BInt i => fun arg => Bind_integral i pStmt index arg
  | BFloat f => fun arg =>
      let v := fcast Double arg in
      call (sqlite3_bind_double pStmt index v) (EvBindDouble pStmt index v)
  | BBool => fun arg =>
      Bind_integral int32_t pStmt index (if arg then 1 else 0)
  | BConstSpan => fun arg => Bind_const_span pStmt index arg
  | BSpan => fun arg => Bind_const_span pStmt index arg
  | BVector => fun arg => Bind_const_span pStmt index arg
  end.

(** *** Binding<T>::Column

    A byte count the engine returns is used as a [std::size_t]; the
    engine's counts are not negative, and the model reads a negative one
    as zero.  A span without storage has size 0, so the copy into it is of
    no byte and leaves it as it is. *)

Definition Column_string (pStmt : sqlite3_stmt) (column : Z) : M World (list Byte.byte) :=
  let* len := call (sqlite3_column_bytes pStmt column) (EvColumnBytes pStmt column) in
  let* pText := call (sqlite3_column_text pStmt column) (EvColumnText pStmt column) in
  ret (firstn (Z.to_nat len) (default [] pText)).

Definition Column_integral (t : ity) (pStmt : sqlite3_stmt) (column : Z) : M World Z :=
  if (ity_size t <? ity_size int64_t)%nat then
    let* v := call (sqlite3_column_int pStmt column) (EvColumnInt pStmt column) in
    ret (static_cast t v)
  else
    let* v := call (sqlite3_column_int64 pStmt column) (EvColumnInt64 pStmt column) in
    ret (static_cast t v).

Definition Column_span (pStmt : sqlite3_stmt) (column : Z) (arg : byte_range)
  : M World byte_range :=
  let* len := call (sqlite3_column_bytes pStmt column) (EvColumnBytes pStmt column) in
  let* pData := call (sqlite3_column_blob pStmt column) (EvColumnBlob pStmt column) in
  ret ((fun dst => memcpy dst (default [] pData)
                     (Nat.min (Z.to_nat len) (length dst))) <$> arg).

Fixpoint Binding_Column (t : cty) (pStmt : sqlite3_stmt) (column : Z)
  : cval t -> M World (cval t) :=
  match t return cval t -> M World (cval t) with
  | COptional t' => fun _ =>
      let* ty := call (sqlite3_column_type pStmt column) (EvColumnType pStmt column) in
      if Z.eqb ty SQLITE_NULL then ret None
      else
        let* v := Binding_Column t' pStmt column (value_init t') in
        ret (Some v)
  | CString => fun _ => Column_string pStmt column
  | CInt i => fun _ => Column_integral i pStmt column
  | CFloat f => fun _ =>
      let* v := call (sqlite3_column_double pStmt column) (EvColumnDouble pStmt column) in
      ret (fcast f v)
  | CBool => fun _ =>
      let* val := Column_integral int32_t pStmt column in
      ret (negb (Z.eqb val 0))
  | CSpan => fun arg => Column_span pStmt column arg
  | CVector => fun arg =>
      let* len := call (sqlite3_column_bytes pStmt column) (EvColumnBytes pStmt column) in
      Column_span pStmt column (resize arg (Z.to_nat len))
  end.

(** *** Statement and Database *)

Record Database := mkDatabase {
  m_db : HandleModel.Handle (T := sqlite3) (Fn := release_fn)
}.

Record Statement := mkStatement {
  m_stmt : HandleModel.Handle (T := sqlite3_stmt) (Fn := release_fn);
  m_canFetch : bool
}.

(** Calling a release function of a handle: an engine call. *)
Definition invoke (i : release_fn * Z) (w : World) : World :=
  match fst i with
  | fn_sqlite3_close_v2 =>
      snd (call (sqlite3_close_v2 (snd i)) (EvClose (snd i)) w)
  | fn_sqlite3_finalize =>
      snd (call (sqlite3_finalize (snd i)) (EvFinalize (snd i)) w)
  end.

Definition invoke_all (tr : list (release_fn * Z)) (w : World) : World :=
  fold_left (fun w i => invoke i w) tr w.

Definition ConnectionHandle (db : Database) : sqlite3 :=
  HandleModel.Get (m_db db).

(** The text [":memory:"] as a view of a string literal. *)
Definition memory_marker : string_view :=
  mkStringView (c_str (list_byte_of_string ":memory:")) 8.

(** [Database::Database(filename, flags)].  When the constructor throws,
    the exception is built first and the member [m_db] is destroyed
    during unwinding. *)
Definition Database_ctor (filename : option string_view) (flags : Z)
  : M World Database :=
  let '(h, tr) := HandleModel.assign_temporary nullptr
                    (HandleModel.Handle_default nullptr)
                    nullptr (Some fn_sqlite3_close_v2) in
  modify (invoke_all tr) ;;
  let name := sv_data (default memory_marker filename) in
  let* r := call (sqlite3_open_v2 name flags)
                 (fun r => EvOpen name flags (fst r) (snd r)) in
  let h' := HandleModel.mkHandle (snd r) (HandleModel.m_releaseFn h) in
  if negb (Z.eqb (fst r) SQLITE_OK) then
    fun w =>
      (Throw (sqlite_exception (SqliteException_db (HandleModel.Get h') w)),
       invoke_all (snd (HandleModel.destroy nullptr h')) w)
  else ret (mkDatabase h').

(** [Statement::Statement(db, sql)]; the same unwinding on a throw after
    [m_stmt] has been set. *)
Definition Statement_ctor (db : Database) (sql : string_view)
  : M World Statement :=
  if sv_empty sql then throw (invalid_argument "'sql': Empty string.")
  else
    let '(h, tr) := HandleModel.assign_temporary nullptr
                      (HandleModel.Handle_default nullptr)
                      nullptr (Some fn_sqlite3_finalize) in
    modify (invoke_all tr) ;;
    let pDb := ConnectionHandle db in
    let n := static_cast int32_t (Z.of_nat (sv_size sql)) in
    let* r := call (sqlite3_prepare_v2 pDb (sv_data sql) n)
                   (fun r => EvPrepare pDb (sv_data sql) n (fst r) (snd r)) in
    let h' := HandleModel.mkHandle (snd r) (HandleModel.m_releaseFn h) in
    if negb (Z.eqb (fst r) SQLITE_OK) then
      fun w =>
        (Throw (sqlite_exception (SqliteException_db pDb w)),
         invoke_all (snd (HandleModel.destroy nullptr h')) w)
    else ret (mkStatement h' false).

(** The implicit destructor of [Statement] destroys [m_stmt]. *)
Definition Statement_dtor (s : Statement) (w : World) : World :=
  invoke_all (snd (HandleModel.destroy nullptr (m_stmt s))) w.

Definition PrepareStatement (db : Database) (sql : string_view)
  : M World Statement :=
  Statement_ctor db sql.

(** Methods of [Statement] run on the object and the world. *)
Definition SM (A : Type) : Type := M (Statement * World) A.

Definition engine_call {A} (m : M World A) : SM A :=
  fun st => let '(r, w') := m (snd st) in (r, (fst st, w')).

Definition StatementHandle : SM sqlite3_stmt :=
  fun st => (Ret (HandleModel.Get (m_stmt (fst st))), st).

Definition get_canFetch : SM bool :=
  fun st => (Ret (m_canFetch (fst st)), st).

Definition set_canFetch (b : bool) : SM unit :=
  fun st => (Ret tt, (mkStatement (m_stmt (fst st)) b, snd st)).

Definition Reset : SM unit :=
  let* p := StatementHandle in
  let* res := engine_call (call (sqlite3_reset p) (EvReset p)) in
  if negb (Z.eqb res SQLITE_OK) then throw_stmt snd p
  else set_canFetch false.

Definition Step : SM unit :=
  let* p := StatementHandle in
  let* res := engine_call (call (sqlite3_step p) (EvStep p)) in
  if negb (Z.eqb res SQLITE_ROW) && negb (Z.eqb res SQLITE_DONE)
  then throw_stmt snd p
  else set_canFetch (Z.eqb res SQLITE_ROW).

Definition Unbind : SM unit :=
  let* p := StatementHandle in
  let* res := engine_call (call (sqlite3_clear_bindings p) (EvClearBindings p)) in
  if negb (Z.eqb res SQLITE_OK) then throw_stmt snd p
  else ret tt.

(** [Bind<Index>(arg)] and the recursion [Bind<Index>(arg, args...)]. *)
Definition Bind_at (Index : Z) (arg : barg) : SM unit :=
  let* p := StatementHandle in
  let* res := engine_call (Binding_Bind (projT1 arg) p Index (projT2 arg)) in
  if negb (Z.eqb res SQLITE_OK) then throw_stmt snd p
  else ret tt.

Fixpoint Bind_pack (Index : Z) (arg : barg) (args : list barg) : SM unit :=
  match args with
  | [] => Bind_at Index arg
  | a :: rest => Bind_at Index arg ;; Bind_pack (Index + 1) a rest
  end.

Definition Bind (arg : barg) (args : list barg) : SM unit :=
  Bind_pack 1 arg args.

(** [Column<Column>(arg)], the recursion, and [Column()] for the empty
    pack.  The result is the new value of each output argument. *)
Definition Column_at (Column : Z) (arg : carg) : SM carg :=
  let* p := StatementHandle in
  let* v := engine_call (Binding_Column (projT1 arg) p Column (projT2 arg)) in
  ret (existT (projT1 arg) v).

Fixpoint Column_pack (Column : Z) (arg : carg) (args : list carg)
  : SM (list carg) :=
  match args with
  | [] => let* v := Column_at Column arg in ret [v]
  | a :: rest =>
      let* v := Column_at Column arg in
      let* vs := Column_pack (Column + 1) a rest in
      ret (v :: vs)
  end.

Definition Column (args : list carg) : SM (list carg) :=
  match args with
  | [] => ret []
  | a :: rest => Column_pack 0 a rest
  end.

Definition Execute_void : SM unit :=
  Reset ;; Unbind ;; Step.

Definition Execute_args (arg : barg) (args : list barg) : SM unit :=
  Reset ;; Unbind ;; Bind arg args ;; Step.

(** Overload resolution: no argument selects [Execute(void)]. *)
Definition Execute (args : list barg) : SM unit :=
  match args with
  | [] => Execute_void
  | a :: rest => Execute_args a rest
  end.

(** [Fetch(args...)] returns its result and the output arguments. *)
Definition Fetch (args : list carg) : SM (bool * list carg) :=
  let* b := get_canFetch in
  (if negb b then Step else ret tt) ;;
  let* b' := get_canFetch in
  if b' then
    let* out := Column args in
    set_canFetch false ;;
    ret (true, out)
  else ret (false, args).

(** [Database::Execute(sql, args...)]: the temporary statement is
    destroyed when the full expression ends, normally or not. *)
Definition Database_Execute (db : Database) (sql : string_view)
    (args : list barg) : M World unit :=
  let* stmt := PrepareStatement db sql in
  fun w =>
    let '(r, st) := Execute args (stmt, w) in
    (r, Statement_dtor (fst st) (snd st)).

(** Repeated [Fetch], each call with its own output arguments. *)
Fixpoint Fetch_each (argss : list (list carg)) : SM (list (bool * list carg)) :=
  match argss with
  | [] => ret []
  | args :: rest =>
      let* r := Fetch args in
      let* rs := Fetch_each rest in
      ret (r :: rs)
  end.

End Wrapper.

(** ** The engine's length convention for text

    The fourth argument of [sqlite3_bind_text]: when negative, the text runs
    up to the first zero byte; otherwise it is that many bytes.  [nul_terminated z]
    is the text a C function reads at [z] when it looks for the terminator. *)
Fixpoint nul_terminated (z : list Byte.byte) : list Byte.byte :=
  match z with
  | [] => []
  | b :: z' => if Byte.eqb b Byte.x00 then [] else b :: nul_terminated z'
  end.

Definition text_taken (z : list Byte.byte) (n : Z) : list Byte.byte :=
  if n <? 0 then nul_terminated z else firstn (Z.to_nat n) z.

(** ** A reference engine

    A small implementation of [Sqlite3Engine], used to run the wrapper on
    concrete inputs.  It has one connection (address 1) and understands the
    queries [SELECT ?, ..., ?], whose result is one row holding the bound
    parameters; any other text is a syntax error.  As SQLite does, it
    restarts a statement that is stepped again after it has reported
    "done", refuses to bind on a statement that has been stepped and not
    reset, and reports a pending interrupt at the next step.  Numeric
    readings of text and text readings of numbers are not modelled (they
    read as zero and as empty). *)
Module RefEngine.

Inductive sqlval :=
| SNull
| SInteger (v : Z)
| SReal (v : Z)
| SText (s : list Byte.byte)
| SBlob (b : list Byte.byte).

Inductive phase := Ready | OnRow | Finished.

Record stmt := mkStmt {
  params : list sqlval;
  row : list sqlval;
  ph : phase;
  live : bool
}.

Record state := mkState {
  stmts : list stmt;
  interrupt : bool;
  errcode : Z;
  errmsg : string
}.

Definition SQLITE_ERROR : Z := 1.
Definition SQLITE_INTERRUPT : Z := 9.
Definition SQLITE_MISUSE : Z := 21.
Definition SQLITE_RANGE : Z := 25.

Definition initial : state := mkState [] false 0 "not an error".

Definition fail (code : Z) (msg : string) (st : state) : Z * state :=
  (code, mkState (stmts st) (interrupt st) code msg).

Definition slot (p : sqlite3_stmt) : nat := Z.to_nat (p - 1).

Definition find (p : sqlite3_stmt) (st : state) : option stmt :=
  if p <? 1 then None
  else match stmts st !! slot p with
       | Some s => if live s then Some s else None
       | None => None
       end.

Definition update (p : sqlite3_stmt) (s : stmt) (st : state) : state :=
  mkState (<[slot p := s]> (stmts st)) (interrupt st) (errcode st) (errmsg st).

(** An operation on the statement at [p]; a bad handle is a misuse. *)
Definition on_stmt (p : sqlite3_stmt) (f : stmt -> Z * stmt) (st : state)
  : Z * state :=
  match find p st with
  | Some s =>
      let '(res, s') := f s in
      if Z.eqb res SQLITE_OK || Z.eqb res SQLITE_ROW || Z.eqb res SQLITE_DONE
      then (res, update p s' st)
      else fail res "statement error" (update p s' st)
  | None => fail SQLITE_MISUSE "bad parameter or other API misuse" st
  end.

Fixpoint is_prefix (a b : list Byte.byte) : bool :=
  match a, b with
  | [], _ => true
  | x :: a', y :: b' => Byte.eqb x y && is_prefix a' b'
  | _ :: _, [] => false
  end.

Definition placeholders (sql : list Byte.byte) : nat :=
  length (filter (fun b => Byte.eqb b Byte.x3f = true) sql).

Definition open_v2 (name : cptr) (flags : Z) (st : state) : (Z * sqlite3) * state :=
  ((SQLITE_OK, 1), st).

Definition close_v2 (db : sqlite3) (st : state) : Z * state := (SQLITE_OK, st).

Definition prepare_v2 (db : sqlite3) (z : cptr) (n : Z) (st : state)
  : (Z * sqlite3_stmt) * state :=
  let sql := if n <? 0 then nul_terminated (default [] z)
             else nul_terminated (firstn (Z.to_nat n) (default [] z)) in
  if is_prefix (list_byte_of_string "SELECT") sql then
    let s := mkStmt (repeat SNull (placeholders sql)) [] Ready true in
    ((SQLITE_OK, Z.of_nat (length (stmts st)) + 1),
     mkState (stmts st ++ [s]) (interrupt st) (errcode st) (errmsg st))
  else
    let '(res, st') := fail SQLITE_ERROR "syntax error" st in
    ((res, nullptr), st').

Definition finalize (p : sqlite3_stmt) (st : state) : Z * state :=
  match find p st with
  | Some s => (SQLITE_OK, update p (mkStmt (params s) [] Ready false) st)
  | None => (SQLITE_OK, st)
  end.

Definition reset (p : sqlite3_stmt) : state -> Z * state :=
  on_stmt p (fun s => (SQLITE_OK, mkStmt (params s) [] Ready true)).

Definition step (p : sqlite3_stmt) (st : state) : Z * state :=
  if interrupt st then
    fail SQLITE_INTERRUPT "interrupted"
         (mkState (stmts st) false (errcode st) (errmsg st))
  else
    on_stmt p (fun s =>
      match ph s with
      | Ready | Finished => (SQLITE_ROW, mkStmt (params s) (params s) OnRow true)
      | OnRow => (SQLITE_DONE, mkStmt (params s) [] Finished true)
      end) st.

Definition clear_bindings (p : sqlite3_stmt) : state -> Z * state :=
  on_stmt p (fun s =>
    (SQLITE_OK, mkStmt (repeat SNull (length (params s))) (row s) (ph s) true)).

Definition set_param (p : sqlite3_stmt) (index : Z) (v : sqlval)
  : state -> Z * state :=
  on_stmt p (fun s =>
    match ph s with
    | Ready =>
        if (1 <=? index) && (index <=? Z.of_nat (length (params s)))
        then (SQLITE_OK,
              mkStmt (<[Z.to_nat (index - 1) := v]> (params s)) (row s) (ph s) true)
        else (SQLITE_RANGE, s)
    | _ => (SQLITE_MISUSE, s)
    end).

Definition bind_text (p : sqlite3_stmt) (index : Z) (z : cptr) (n : Z)
    (d : destructor) : state -> Z * state :=
  set_param p index
    match z with
    | Some bs => SText (text_taken bs n)
    | None => SNull
    end.

Definition bind_blob64 (p : sqlite3_stmt) (index : Z) (z : cptr) (n : Z)
    (d : destructor) : state -> Z * state :=
  set_param p index
    match z with
    | Some bs => SBlob (firstn (Z.to_nat n) bs)
    | None => SNull
    end.

(** The cell of the current row at [column]; NULL when there is none. *)
Definition cell (p : sqlite3_stmt) (column : Z) (st : state) : sqlval :=
  match find p st with
  | Some s => if column <? 0 then SNull
              else default SNull (row s !! Z.to_nat column)
  | None => SNull
  end.

Definition type_code (v : sqlval) : Z :=
  match v with
  | SInteger _ => 1
  | SReal _ => 2
  | SText _ => 3
  | SBlob _ => 4
  | SNull => SQLITE_NULL
  end.

Definition as_int64 (v : sqlval) : Z :=
  match v with SInteger x => x | _ => 0 end.

Definition as_double (v : sqlval) : Z :=
  match v with SReal x => x | _ => 0 end.

Definition as_bytes (v : sqlval) : list Byte.byte :=
  match v with SText s => s | SBlob b => b | _ => [] end.

Definition as_text (v : sqlval) : cptr :=
  match v with
  | SNull => None
  | _ => Some (as_bytes v ++ [Byte.x00])
  end.

Definition as_blob (v : sqlval) : cptr :=
  match as_bytes v with
  | [] => None
  | bs => Some bs
  end.

Definition reading {A} (f : sqlval -> A) (p : sqlite3_stmt) (column : Z)
    (st : state) : A * state :=
  (f (cell p column st), st).

#[global] Instance ref_engine : Sqlite3Engine := {|
  engine := state;
  fl := Z;
  fzero := 0;
  fcast := fun _ x => x;
  sqlite3_open_v2 := open_v2;
  sqlite3_close_v2 := close_v2;
  sqlite3_prepare_v2 := prepare_v2;
  sqlite3_finalize := finalize;
  sqlite3_reset := reset;
  sqlite3_step := step;
  sqlite3_clear_bindings := clear_bindings;
  sqlite3_db_handle := fun _ _ => 1;
  sqlite3_errmsg := fun _ st => errmsg st;
  sqlite3_extended_errcode := fun _ st => errcode st;
  sqlite3_bind_null := fun p i => set_param p i SNull;
  sqlite3_bind_text := bind_text;
  sqlite3_bind_int := fun p i v => set_param p i (SInteger v);
  sqlite3_bind_int64 := fun p i v => set_param p i (SInteger v);
  sqlite3_bind_double := fun p i v => set_param p i (SReal v);
  sqlite3_bind_blob64 := bind_blob64;
  sqlite3_column_type := reading type_code;
  sqlite3_column_bytes := reading (fun v => Z.of_nat (length (as_bytes v)));
  sqlite3_column_text := reading as_text;
  sqlite3_column_blob := reading as_blob;
  sqlite3_column_int := reading (fun v => static_cast int32_t (as_int64 v));
  sqlite3_column_int64 := reading as_int64;
  sqlite3_column_double := reading as_double
|}.

Definition world0 : World := mkWorld initial [].

(** A view of a string literal. *)
Definition literal (s : string) : string_view :=
  mkStringView (c_str (list_byte_of_string s)) (String.length s).

(** Open a connection, prepare [sql], and hand back the statement and the
    world, with the log emptied; [None] when either step throws. *)
Definition prepared (sql : string) : option (Statement * World) :=
  match Database_ctor None 0 world0 with
  | (Ret db, w) =>
      match PrepareStatement db (literal sql) w with
      | (Ret s, w') => Some (s, mkWorld (eng w') [])
      | _ => None
      end
  | _ => None
  end.

End RefEngine.

(** ** Reading the log *)

Section Traces.

Context {E : Sqlite3Engine}.

(** What an event is a call of; a bind carries its 1-based index and a
    column read its 0-based column. *)
Inductive kind :=
| KOpen | KClose | KPrepare | KFinalize
| KReset | KStep | KClearBindings
| KBind (index : Z)
| KColumn (column : Z).

Definition kind_of (e : event) : kind :=
  match e with
  | EvOpen _ _ _ _ => KOpen
  | EvClose _ _ => KClose
  | EvPrepare _ _ _ _ _ => KPrepare
  | EvFinalize _ _ => KFinalize
  | EvReset _ _ => KReset
  | EvStep _ _ => KStep
  | EvClearBindings _ _ => KClearBindings
  | EvBindNull _ i _ | EvBindText _ i _ _ _ _ | EvBindInt _ i _ _
  | EvBindInt64 _ i _ _ | EvBindDouble _ i _ _ | EvBindBlob64 _ i _ _ _ _ =>
      KBind i
  | EvColumnType _ c _ | EvColumnBytes _ c _ | EvColumnText _ c _
  | EvColumnBlob _ c _ | EvColumnInt _ c _ | EvColumnInt64 _ c _
  | EvColumnDouble _ c _ => KColumn c
  end.

(** The statuses the engine returned to the [sqlite3_step] calls of a log,
    in order. *)
Definition step_status (e : event) : option Z :=
  match e with
  | EvStep _ res => Some res
  | _ => None
  end.

Definition step_statuses (l : list event) : list Z := omap step_status l.

Definition steps (l : list event) : nat := length (step_statuses l).

Definition is_row (res : Z) : bool := Z.eqb res SQLITE_ROW.

(** The steps of a log that produced a row. *)
Definition rows (l : list event) : nat :=
  length (filter (fun res => is_row res = true) (step_statuses l)).

(** A row that has been stepped to and not yet fetched. *)
Definition pending (s : Statement) : nat :=
  if m_canFetch s then 1%nat else 0%nat.

(** The same as a status: the row a statement holds ahead of [Fetch]. *)
Definition lookahead (s : Statement) : list Z :=
  if m_canFetch s then [SQLITE_ROW] else [].

(** Extraction by position, as an iteration over the output arguments:
    the argument at position [k] of the list is read at [column + k]. *)
Fixpoint extract (pStmt : sqlite3_stmt) (column : Z) (args : list carg)
    (w : World) : list carg * World :=
  match args with
  | [] => ([], w)
  | a :: rest =>
      let '(r, w') := Binding_Column (projT1 a) pStmt column (projT2 a) w in
      let '(vs, w'') := extract pStmt (column + 1) rest w' in
      (match r with
       | Ret v => existT (projT1 a) v :: vs
       | Throw _ => a :: vs
       end, w'')
  end.

(** The calls [Execute] is to make for [n] arguments, in order. *)
Definition execute_plan (n : nat) : list kind :=
  [KReset; KClearBindings]
    ++ map (fun k => KBind (Z.of_nat k + 1)) (seq 0 n)
    ++ [KStep].

(** The result of a [Fetch], when it returned. *)
Definition fetched {A S} (r : outcome (bool * A) * S) : option bool :=
  match fst r with
  | Ret x => Some (fst x)
  | Throw _ => None
  end.

(** The world after the engine has been stepped once, and the status
    that step returns. *)
Definition stepped (p : sqlite3_stmt) (w : World) : World :=
  mkWorld (snd (sqlite3_step p (eng w)))
          (log w ++ [EvStep p (fst (sqlite3_step p (eng w)))]).

Definition step_result (p : sqlite3_stmt) (w : World) : Z :=
  fst (sqlite3_step p (eng w)).

End Traces.

(** ** Scenarios on the reference engine *)

Module Scenario.
Import RefEngine.

(** [sqlite3_interrupt] called from elsewhere. *)
Definition interrupted (w : World) : World :=
  mkWorld (mkState (stmts (eng w)) true (errcode (eng w)) (errmsg (eng w)))
          (log w).

(** The engine state with one live statement of one parameter: its
    parameters, its current row and its phase. *)
Definition holding (ps rw : list sqlval) (phs : phase) : state :=
  mkState [mkStmt ps rw phs true] false 0 "not an error".

(** A statement for [SELECT ?], as [PrepareStatement] returns it. *)
Definition select1 : Statement * World :=
  default (mkStatement (HandleModel.mkHandle nullptr None) false, world0)
          (prepared "SELECT ?").

(** The state after [Execute(7)] on it: a row is pending. *)
Definition after_execute : Statement * World :=
  snd (Execute [existT (BInt int32_t) 7 : barg] select1).

(** The same with an interrupt pending in the engine. *)
Definition row_then_interrupt : Statement * World :=
  (fst after_execute, interrupted (snd after_execute)).

(** The state after one [Fetch()] on the fresh statement: the row has been
    consumed, and the next step reports "done". *)
Definition after_fetch : Statement * World :=
  snd (Fetch [] select1).

(** The state after a second [Fetch()], which returned false. *)
Definition exhausted : Statement * World :=
  snd (Fetch [] after_fetch).

(** The fresh statement with an interrupt pending in the engine. *)
Definition idle_then_interrupt : Statement * World :=
  (fst select1, interrupted (snd select1)).

(** Handles on statement addresses: one that owns statement 7, and a store
    with it and an empty handle. *)
Definition owner : HandleModel.Handle (T := Z) (Fn := release_fn) :=
  HandleModel.mkHandle 7 (Some fn_sqlite3_finalize).

Definition two_handles : HandleModel.store (T := Z) (Fn := release_fn) :=
  HandleModel.mkStore [owner; HandleModel.Handle_default nullptr] [].

(** A lifetime: acquire statement 7, build an empty handle, move the
    statement into it, destroy the first handle. *)
Definition lifetime : list (HandleModel.op (T := Z) (Fn := release_fn)) :=
  [HandleModel.OpCtor 7 (Some fn_sqlite3_finalize);
   HandleModel.OpCtorDefault;
   HandleModel.OpMoveAssign 1 0;
   HandleModel.OpDestroy 0].

(** Bind [a] with [Execute], then [Fetch] into [out]: the output argument
    as it comes back, [None] when a call throws or no row is fetched. *)
Definition bind_then_fetch (a : barg) (out : carg) : option carg :=
  match (Execute [a] ;; Fetch [out])%M select1 with
  | (Ret (true, [x]), _) => Some x
  | _ => None
  end.

(** The same for a value and an output argument of one readable type. *)
Definition roundtrip (t : cty) (v out : cval t) : option carg :=
  bind_then_fetch (existT (cty_bty t) (cval_bval t v)) (existT t out).

(** The text ["hello world"] and the view of its first five characters. *)
Definition hello_world : list Byte.byte := list_byte_of_string "hello world".
Definition hello : string_view := mkStringView (c_str hello_world) 5.


Definition absent (t : cty) : carg := existT (COptional t) None.

(** What the reference engine stores for a bound value. *)
Fixpoint stored (t : bty) : bval t -> sqlval :=
  match t return bval t -> sqlval with
  | BNullptr | BNullopt => fun _ => SNull
  | BOptional t' => fun v =>
      match v with
      | Some x => stored t' x
      | None => SNull
      end
  | BCStr => fun v =>
      match v with
      | Some z => SText (nul_terminated z)
      | None => SNull
      end
  | BCharArray => fun v =>
      SText (text_taken v (static_cast int32_t (Z.of_nat (length v) - 1)))
  | BStringView => fun v =>
      match sv_data v with
      | Some z => SText (nul_terminated z)
      | None => SNull
      end
  | BString => fun v => SText (nul_terminated (v ++ [Byte.x00]))
  | BInt i => fun v =>
      if (ity_size i <? 8)%nat then SInteger (static_cast int32_t v)
      else SInteger (static_cast int64_t v)
  | BFloat _ => fun v => SReal v
  | BBool => fun v => SInteger (static_cast int32_t (if v then 1 else 0))
  | BConstSpan | BSpan | BVector => fun v =>
      match v with
      | Some bs =>
          SBlob (firstn (Z.to_nat (static_cast uint64_t (Z.of_nat (length bs)))) bs)
      | None => SNull
      end
  end.


(** The results of a sequence of [Fetch], when it returned. *)
Definition fetched_all {A} (r : outcome (list (bool * A))) : option (list bool) :=
  match r with
  | Ret rs => Some (map fst rs)
  | Throw _ => None
  end.

(** The connection of the reference engine. *)
Definition connection : Database :=
  mkDatabase (HandleModel.mkHandle 1 (Some fn_sqlite3_close_v2)).



End Scenario.

(** ** DatabaseOpenFlags and its operators *)

(** The enumeration has [int] as its underlying type; a value is carried
    as that integer, and the operators work on it bit by bit, as they do
    on a two's-complement [int]. *)
Definition DatabaseOpenFlags : Type := Z.

Definition Flags_None : DatabaseOpenFlags := 0.

Definition flags_or (lhs rhs : DatabaseOpenFlags) : DatabaseOpenFlags :=
  Z.lor lhs rhs.

Definition flags_and (lhs rhs : DatabaseOpenFlags) : DatabaseOpenFlags :=
  Z.land lhs rhs.

Definition flags_xor (lhs rhs : DatabaseOpenFlags) : DatabaseOpenFlags :=
  Z.lxor lhs rhs.

Definition flags_not (rhs : DatabaseOpenFlags) : DatabaseOpenFlags :=
  Z.lnot rhs.

(** The compound assignments store the result in [lhs] and return it. *)
Definition flags_or_assign (lhs rhs : DatabaseOpenFlags) : DatabaseOpenFlags :=
  flags_or lhs rhs.

Definition flags_and_assign (lhs rhs : DatabaseOpenFlags) : DatabaseOpenFlags :=
  flags_and lhs rhs.

Definition flags_xor_assign (lhs rhs : DatabaseOpenFlags) : DatabaseOpenFlags :=
  flags_xor lhs rhs.

(** ** Ranges of the integral types *)

(** The values an integral type can hold. *)
Definition in_range (t : ity) (v : Z) : Prop :=
  let m := 2 ^ (8 * Z.of_nat (ity_size t)) in
  if ity_signed t then - (m / 2) <= v < m / 2 else 0 <= v < m.

(** The sizes the integral types of C++ have. *)
Definition standard_size (t : ity) : Prop :=
  ity_size t = 1%nat \/ ity_size t = 2%nat \/ ity_size t = 4%nat
  \/ ity_size t = 8%nat.

(** ** More readings of the log *)

Section MoreTraces.

Context {E : Sqlite3Engine}.

(** The status the engine returned to a bind call. *)
Definition bind_status (e : event) : option Z :=
  match e with
  | EvBindNull _ _ res | EvBindText _ _ _ _ _ res | EvBindInt _ _ _ res
  | EvBindInt64 _ _ _ res | EvBindDouble _ _ _ res
  | EvBindBlob64 _ _ _ _ _ res => Some res
  | _ => None
  end.

Definition bind_statuses (l : list event) : list Z := omap bind_status l.

(** The statements finalized and the connections closed in a log. *)
Definition finalize_of (e : event) : option sqlite3_stmt :=
  match e with
  | EvFinalize p _ => Some p
  | _ => None
  end.

Definition finalized (l : list event) : list sqlite3_stmt := omap finalize_of l.

Definition close_of (e : event) : option sqlite3 :=
  match e with
  | EvClose db _ => Some db
  | _ => None
  end.

Definition closed (l : list event) : list sqlite3 := omap close_of l.

(** Binding by position, as an iteration over the arguments: the argument
    at position [k] of the list is bound at the index [index + k] by the
    Bind rule of its own type; the first status other than [SQLITE_OK]
    ends the iteration with the statement's failure. *)
Fixpoint bind_each (pStmt : sqlite3_stmt) (index : Z) (args : list barg)
    (w : World) : outcome unit * World :=
  match args with
  | [] => (Ret tt, w)
  | a :: rest =>
      let '(r, w') := Binding_Bind (projT1 a) pStmt index (projT2 a) w in
      match r with
      | Ret res =>
          if Z.eqb res SQLITE_OK then bind_each pStmt (index + 1) rest w'
          else (Throw (sqlite_exception (SqliteException_stmt pStmt w')), w')
      | Throw e => (Throw e, w')
      end
  end.

(** The world after a release function has been called on [v]. *)
Definition released (f : release_fn) (v : Z) (w : World) : World :=
  invoke (f, v) w.

End MoreTraces.

(** ** More scenarios *)

Module Cases.
Import RefEngine.

Definition SQLITE_CANTOPEN : Z := 14.

(** The reference engine with an open primitive that fails as SQLite does
    when the file cannot be opened: it reports [SQLITE_CANTOPEN] and still
    hands back a connection, which is to be closed. *)
Definition cannot_open : Sqlite3Engine := {|
  engine := state;
  fl := Z;
  fzero := 0;
  fcast := fun _ x => x;
  sqlite3_open_v2 := fun _ _ st =>
    ((SQLITE_CANTOPEN, 1),
     snd (fail SQLITE_CANTOPEN "unable to open database file" st));
  sqlite3_close_v2 := close_v2;
  sqlite3_prepare_v2 := prepare_v2;
  sqlite3_finalize := finalize;
  sqlite3_reset := reset;
  sqlite3_step := step;
  sqlite3_clear_bindings := clear_bindings;
  sqlite3_db_handle := fun _ _ => 1;
  sqlite3_errmsg := fun _ st => errmsg st;
  sqlite3_extended_errcode := fun _ st => errcode st;
  sqlite3_bind_null := fun p i => set_param p i SNull;
  sqlite3_bind_text := bind_text;
  sqlite3_bind_int := fun p i v => set_param p i (SInteger v);
  sqlite3_bind_int64 := fun p i v => set_param p i (SInteger v);
  sqlite3_bind_double := fun p i v => set_param p i (SReal v);
  sqlite3_bind_blob64 := bind_blob64;
  sqlite3_column_type := reading type_code;
  sqlite3_column_bytes := reading (fun v => Z.of_nat (length (as_bytes v)));
  sqlite3_column_text := reading as_text;
  sqlite3_column_blob := reading as_blob;
  sqlite3_column_int := reading (fun v => static_cast int32_t (as_int64 v));
  sqlite3_column_int64 := reading as_int64;
  sqlite3_column_double := reading as_double
|}.

Definition nothing_open : @World cannot_open := @mkWorld cannot_open initial [].

(** A statement object whose handle is no statement of the engine. *)
Definition stale : Statement * World :=
  (mkStatement (HandleModel.mkHandle 5 (Some fn_sqlite3_finalize)) false, world0).

(** The handle of a statement under construction: empty, with
    [sqlite3_finalize] as its release function. *)
Definition under_construction : HandleModel.store (T := Z) (Fn := release_fn) :=
  HandleModel.mkStore [HandleModel.mkHandle nullptr (Some fn_sqlite3_finalize)] [].

(** The statement object of the reference engine's first statement. *)
Definition first_statement : Statement :=
  mkStatement (HandleModel.mkHandle 1 (Some fn_sqlite3_finalize)) false.

(** A statement for [SELECT ?, ?], as [PrepareStatement] returns it. *)
Definition select2 : Statement * World :=
  default (first_statement, world0) (prepared "SELECT ?, ?").

(** A world whose statement is on a row holding the integers 1 and 2. *)
Definition one_two : World :=
  mkWorld (Scenario.holding [SInteger 1; SInteger 2] [SInteger 1; SInteger 2] OnRow) [].

(** An integer argument and an integer output. *)
Definition seven : barg := existT (BInt int32_t) 7.
Definition int_out : carg := existT (CInt int32_t) 0.

(** The bytes of ["a\0b"], and the array of that string literal. *)
Definition a0b : list Byte.byte := [Byte.x61; Byte.x00; Byte.x62].
Definition a0b_array : list Byte.byte := a0b ++ [Byte.x00].

End Cases.

(** * Properties *)

(** ** SqliteException: the primary code is the low byte *)

Lemma low_byte_mod (c : Z) : Z.land c 0xFF = c mod 256.
Proof. change 0xFF with (Z.ones 8). rewrite Z.land_ones by lia. reflexivity. Qed.

Lemma low_byte_testbit (c i : Z) :
  0 <= i -> Z.testbit (Z.land c 0xFF) i = Z.testbit c i && (i <? 8).
Proof.
  intros Hi. rewrite Z.land_spec. f_equal.
  change 0xFF with (Z.ones 8).
  destruct (Z.ltb_spec i 8).
  - apply Z.ones_spec_low. lia.
  - apply Z.ones_spec_high. lia.
Qed.

(** C9: a failure object built from a message and an extended code exposes
    that extended code unchanged, and its primary code is the extended code
    bitwise-and 0xFF: the low byte, that is the code modulo 256, a value in
    [0, 256) that agrees with the code on bits 0 to 7 and has no other
    bit.  The same holds for the failure objects built from a connection
    or from a statement. *)
Theorem primary_error_code_is_low_byte
    (message : string) (extendedErrorCode : Z) :
  let e := mkSqliteException message extendedErrorCode in
  GetExtendedErrorCode e = extendedErrorCode /\
  GetPrimaryErrorCode e = Z.land extendedErrorCode 0xFF /\
  GetPrimaryErrorCode e = extendedErrorCode mod 256 /\
  0 <= GetPrimaryErrorCode e < 256 /\
  (forall i, 0 <= i ->
     Z.testbit (GetPrimaryErrorCode e) i
     = Z.testbit extendedErrorCode i && (i <? 8)) /\
  (forall (E : Sqlite3Engine) (pDb : sqlite3) (pStmt : sqlite3_stmt) (w : World),
     GetPrimaryErrorCode (SqliteException_db pDb w)
     = Z.land (GetExtendedErrorCode (SqliteException_db pDb w)) 0xFF /\
     GetPrimaryErrorCode (SqliteException_stmt pStmt w)
     = Z.land (GetExtendedErrorCode (SqliteException_stmt pStmt w)) 0xFF).
Proof.
  cbv zeta. unfold GetExtendedErrorCode, GetPrimaryErrorCode. cbn [m_extendedErrorCode].
  split; [reflexivity|]. split; [reflexivity|].
  split; [apply low_byte_mod|].
  split; [rewrite low_byte_mod; apply Z.mod_pos_bound; lia|].
  split; [intros i Hi; apply low_byte_testbit; exact Hi|].
  intros E pDb pStmt w. split; reflexivity.
Qed.

(** ** Statement: basic equations *)

Section StatementFacts.

Context {E : Sqlite3Engine}.

Lemma call_eq {A} (f : engine -> A * engine) (ev : A -> event) (w : World) :
  call f ev w
  = (Ret (fst (f (eng w))),
     mkWorld (snd (f (eng w))) (log w ++ [ev (fst (f (eng w)))])).
Proof. unfold call. destruct (f (eng w)); reflexivity. Qed.

Lemma Step_eq (s : Statement) (w : World) :
  let p := HandleModel.Get (m_stmt s) in
  Step (s, w)
  = if negb (Z.eqb (step_result p w) SQLITE_ROW)
       && negb (Z.eqb (step_result p w) SQLITE_DONE)
    then (Throw (sqlite_exception (SqliteException_stmt p (stepped p w))),
          (s, stepped p w))
    else (Ret tt,
          (mkStatement (m_stmt s) (Z.eqb (step_result p w) SQLITE_ROW),
           stepped p w)).
Proof.
  cbv zeta. unfold Step, bind, StatementHandle, engine_call. cbn [fst snd].
  rewrite call_eq. cbn [fst snd]. fold (step_result (HandleModel.Get (m_stmt s)) w).
  fold (stepped (HandleModel.Get (m_stmt s)) w).
  destruct (negb _ && negb _); reflexivity.
Qed.

Lemma Reset_eq (s : Statement) (w : World) :
  let p := HandleModel.Get (m_stmt s) in
  let res := fst (sqlite3_reset p (eng w)) in
  let w' := mkWorld (snd (sqlite3_reset p (eng w))) (log w ++ [EvReset p res]) in
  Reset (s, w)
  = if negb (Z.eqb res SQLITE_OK)
    then (Throw (sqlite_exception (SqliteException_stmt p w')), (s, w'))
    else (Ret tt, (mkStatement (m_stmt s) false, w')).
Proof.
  cbv zeta. unfold Reset, bind, StatementHandle, engine_call. cbn [fst snd].
  rewrite call_eq. cbn [fst snd]. destruct (negb _); reflexivity.
Qed.

Lemma Unbind_eq (s : Statement) (w : World) :
  let p := HandleModel.Get (m_stmt s) in
  let res := fst (sqlite3_clear_bindings p (eng w)) in
  let w' := mkWorld (snd (sqlite3_clear_bindings p (eng w)))
                    (log w ++ [EvClearBindings p res]) in
  Unbind (s, w)
  = if negb (Z.eqb res SQLITE_OK)
    then (Throw (sqlite_exception (SqliteException_stmt p w')), (s, w'))
    else (Ret tt, (s, w')).
Proof.
  cbv zeta. unfold Unbind, bind, StatementHandle, engine_call. cbn [fst snd].
  rewrite call_eq. cbn [fst snd]. destruct (negb _); reflexivity.
Qed.

Lemma assign_temporary_fresh (f : release_fn) :
  HandleModel.assign_temporary nullptr (HandleModel.Handle_default nullptr)
    nullptr (Some f)
  = (HandleModel.mkHandle nullptr (Some f), []).
Proof. reflexivity. Qed.

Lemma Statement_ctor_eq (db : Database) (sql : string_view) (w : World) :
  let pDb := ConnectionHandle db in
  let n := static_cast int32_t (Z.of_nat (sv_size sql)) in
  let r := sqlite3_prepare_v2 pDb (sv_data sql) n (eng w) in
  let w1 := mkWorld (snd r)
              (log w ++ [EvPrepare pDb (sv_data sql) n (fst (fst r)) (snd (fst r))]) in
  let h := HandleModel.mkHandle (snd (fst r)) (Some fn_sqlite3_finalize) in
  Statement_ctor db sql w
  = if sv_empty sql then (Throw (invalid_argument "'sql': Empty string."), w)
    else if negb (Z.eqb (fst (fst r)) SQLITE_OK)
    then (Throw (sqlite_exception (SqliteException_db pDb w1)),
          invoke_all (snd (HandleModel.destroy nullptr h)) w1)
    else (Ret (mkStatement h false), w1).
Proof.
  cbv zeta. unfold Statement_ctor. destruct (sv_empty sql); [reflexivity|].
  rewrite assign_temporary_fresh. unfold bind, modify. cbn [invoke_all fold_left].
  rewrite call_eq. cbn [fst snd eng log HandleModel.m_releaseFn].
  destruct (negb _); reflexivity.
Qed.

End StatementFacts.

(** ** Step *)

Section StepContract.

Context {E : Sqlite3Engine}.

(** C2, amended: [Step] calls the engine's step primitive once.  A "row
    produced" status sets the row-available flag and raises nothing; a
    "done" status clears the flag and raises nothing; any other status
    raises the failure translated from the statement's connection, and
    whenever [Step] raises, the row-available flag keeps the value it had
    before the call (so it is false afterwards exactly when it was false
    before). *)
Theorem step_flag_contract (s : Statement) (w : World) :
  let p := HandleModel.Get (m_stmt s) in
  (step_result p w = SQLITE_ROW ->
     Step (s, w) = (Ret tt, (mkStatement (m_stmt s) true, stepped p w))) /\
  (step_result p w = SQLITE_DONE ->
     Step (s, w) = (Ret tt, (mkStatement (m_stmt s) false, stepped p w))) /\
  (step_result p w <> SQLITE_ROW -> step_result p w <> SQLITE_DONE ->
     Step (s, w)
     = (Throw (sqlite_exception (SqliteException_stmt p (stepped p w))),
        (s, stepped p w))) /\
  (forall e st', Step (s, w) = (Throw e, st') ->
     m_canFetch (fst st') = m_canFetch s) /\
  steps (log (snd (snd (Step (s, w))))) = S (steps (log w)).
Proof.
  cbv zeta. rewrite Step_eq. cbv zeta.
  set (p := HandleModel.Get (m_stmt s)).
  repeat split.
  - intros ->. reflexivity.
  - intros ->. reflexivity.
  - intros Hrow Hdone.
    apply Z.eqb_neq in Hrow, Hdone. rewrite Hrow, Hdone. reflexivity.
  - intros e st'. destruct (negb _ && negb _); intros H; inversion H; reflexivity.
  - assert (Hlog : steps (log (stepped p w)) = S (steps (log w))).
    { unfold stepped, steps, step_statuses. cbn [log].
      rewrite omap_app, length_app. cbn. lia. }
    destruct (negb _ && negb _); exact Hlog.
Qed.

End StepContract.

(** ** Bind and Column: the calls they make *)

Section PackFacts.

Context {E : Sqlite3Engine}.

Lemma Binding_Bind_event (t : bty) (p : sqlite3_stmt) (i : Z) (v : bval t) (w : World) :
  exists res e' ev,
    Binding_Bind t p i v w = (Ret res, mkWorld e' (log w ++ [ev]))
    /\ kind_of ev = KBind i.
Proof.
  revert v. induction t; intros v; cbn [Binding_Bind];
    unfold Bind_nullptr, Bind_cstr, Bind_integral, Bind_const_span;
    try (rewrite call_eq; do 3 eexists; split; reflexivity).
  - destruct v as [x|].
    + apply IHt.
    + rewrite call_eq; do 3 eexists; split; reflexivity.
  - destruct (_ <? _)%nat; rewrite call_eq; do 3 eexists; split; reflexivity.
  - destruct (_ <? _)%nat; rewrite call_eq; do 3 eexists; split; reflexivity.
Qed.

Lemma Column_integral_events (t : ity) (p : sqlite3_stmt) (c : Z) (w : World) :
  exists v' e' ev,
    Column_integral t p c w = (Ret v', mkWorld e' (log w ++ [ev]))
    /\ kind_of ev = KColumn c.
Proof.
  unfold Column_integral, bind, ret.
  destruct (_ <? _)%nat; rewrite call_eq; do 3 eexists; split; reflexivity.
Qed.

Lemma Column_span_events (p : sqlite3_stmt) (c : Z) (arg : byte_range) (w : World) :
  exists v' e' evs,
    Column_span p c arg w = (Ret v', mkWorld e' (log w ++ evs))
    /\ Forall (fun ev => kind_of ev = KColumn c) evs.
Proof.
  unfold Column_span, bind, ret. rewrite call_eq. rewrite call_eq.
  cbn [eng log]. rewrite <- app_assoc.
  do 3 eexists; split; [reflexivity|]. repeat constructor.
Qed.

Lemma Binding_Column_events (t : cty) (p : sqlite3_stmt) (c : Z) (v : cval t) (w : World) :
  exists v' e' evs,
    Binding_Column t p c v w = (Ret v', mkWorld e' (log w ++ evs))
    /\ Forall (fun ev => kind_of ev = KColumn c) evs.
Proof.
  revert v w. induction t; intros v w; cbn [Binding_Column].
  - unfold bind. rewrite call_eq.
    destruct (Z.eqb _ SQLITE_NULL).
    + do 3 eexists; split; [reflexivity|]. repeat constructor.
    + match goal with |- context [Binding_Column t p c ?v0 ?w0] =>
        destruct (IHt v0 w0) as (v' & e' & evs & Heq & Hk); rewrite Heq end.
      cbn [log]. rewrite <- app_assoc.
      do 3 eexists; split; [reflexivity|].
      constructor; [reflexivity|exact Hk].
  - unfold Column_string, bind, ret. rewrite call_eq. rewrite call_eq.
    cbn [eng log]. rewrite <- app_assoc.
    do 3 eexists; split; [reflexivity|]. repeat constructor.
  - destruct (Column_integral_events t p c w) as (v' & e' & ev & Heq & Hk).
    exists v', e', [ev]. split; [exact Heq|]. repeat constructor; exact Hk.
  - unfold bind, ret. rewrite call_eq.
    do 3 eexists; split; [reflexivity|]. repeat constructor.
  - unfold bind, ret.
    destruct (Column_integral_events int32_t p c w) as (v' & e' & ev & Heq & Hk).
    rewrite Heq. exists (negb (Z.eqb v' 0)), e', [ev].
    split; [reflexivity|]. repeat constructor; exact Hk.
  - apply Column_span_events.
  - unfold bind. rewrite call_eq.
    match goal with |- context [Column_span p c ?a ?w0] =>
      destruct (Column_span_events p c a w0) as (v' & e' & evs & Heq & Hk);
      rewrite Heq end.
    cbn [log]. rewrite <- app_assoc.
    do 3 eexists; split; [reflexivity|].
    constructor; [reflexivity|exact Hk].
Qed.

End PackFacts.

Section BindFacts.

Context {E : Sqlite3Engine}.

(** The kinds of the calls [Bind<Index>(arg, args...)] is to make. *)
Lemma bind_plan_cons (i : Z) (n : nat) :
  map (fun k => KBind (i + Z.of_nat k)) (seq 0 (S n))
  = KBind i :: map (fun k => KBind (i + 1 + Z.of_nat k)) (seq 0 n).
Proof.
  cbn [seq map]. f_equal; [f_equal; lia|].
  rewrite <- seq_shift, map_map. apply map_ext. intros k. f_equal. lia.
Qed.

Lemma Bind_at_eq (i : Z) (a : barg) (s : Statement) (w : World) :
  exists res e' ev (out : outcome unit),
    Bind_at i a (s, w) = (out, (s, mkWorld e' (log w ++ [ev])))
    /\ Binding_Bind (projT1 a) (HandleModel.Get (m_stmt s)) i (projT2 a) w
       = (Ret res, mkWorld e' (log w ++ [ev]))
    /\ kind_of ev = KBind i
    /\ is_ret out = Z.eqb res SQLITE_OK.
Proof.
  destruct (Binding_Bind_event (projT1 a) (HandleModel.Get (m_stmt s)) i (projT2 a) w)
    as (res & e' & ev & Heq & Hk).
  unfold Bind_at, bind, StatementHandle, engine_call. cbn [fst snd].
  rewrite Heq. exists res, e', ev.
  destruct (Z.eqb res SQLITE_OK) eqn:Hres; cbn [negb];
    eexists; (split; [reflexivity|]); auto.
Qed.

Lemma Bind_pack_log (rest : list barg) :
  forall (i : Z) (a : barg) (s : Statement) (w : World),
  exists out e' evs,
    Bind_pack i a rest (s, w) = (out, (s, mkWorld e' (log w ++ evs)))
    /\ map kind_of evs
         `prefix_of` map (fun k => KBind (i + Z.of_nat k)) (seq 0 (S (length rest)))
    /\ (is_ret out = true ->
        map kind_of evs
        = map (fun k => KBind (i + Z.of_nat k)) (seq 0 (S (length rest)))).
Proof.
  induction rest as [|b rest IH]; intros i a s w.
  - destruct (Bind_at_eq i a s w) as (res & e' & ev & out & Heq & _ & Hk & _).
    cbn [Bind_pack]. rewrite Heq. exists out, e', [ev].
    split; [reflexivity|]. cbn. rewrite Hk, Z.add_0_r. split; [reflexivity|auto].
  - destruct (Bind_at_eq i a s w) as (res & e' & ev & out & Heq & _ & Hk & _).
    cbn [Bind_pack length]. unfold bind. rewrite Heq.
    rewrite bind_plan_cons.
    destruct out as [[]|e].
    + destruct (IH (i + 1) b s (mkWorld e' (log w ++ [ev])))
        as (out' & e'' & evs & Heq' & Hpre & Hfull).
      rewrite Heq'. cbn [log]. rewrite <- app_assoc.
      exists out', e'', (ev :: evs). split; [reflexivity|].
      cbn [map]. rewrite Hk. split.
      * apply prefix_cons. exact Hpre.
      * intros Hr. f_equal. apply Hfull. exact Hr.
    + exists (Throw e), e', [ev]. split; [reflexivity|].
      cbn [map]. rewrite Hk. split.
      * apply prefix_cons, prefix_nil.
      * discriminate.
Qed.

(** [Column] never throws and reads the arguments by position. *)
Lemma Column_at_eq (c : Z) (a : carg) (s : Statement) (w : World) :
  exists v' w',
    Binding_Column (projT1 a) (HandleModel.Get (m_stmt s)) c (projT2 a) w
    = (Ret v', w')
    /\ Column_at c a (s, w) = (Ret (existT (projT1 a) v'), (s, w')).
Proof.
  destruct (Binding_Column_events (projT1 a) (HandleModel.Get (m_stmt s)) c (projT2 a) w)
    as (v' & e' & evs & Heq & _).
  unfold Column_at, bind, StatementHandle, engine_call, ret. cbn [fst snd].
  rewrite Heq. eauto.
Qed.

Lemma Column_pack_extract (rest : list carg) :
  forall (c : Z) (a : carg) (s : Statement) (w : World),
    Column_pack c a rest (s, w)
    = (Ret (fst (extract (HandleModel.Get (m_stmt s)) c (a :: rest) w)),
       (s, snd (extract (HandleModel.Get (m_stmt s)) c (a :: rest) w))).
Proof.
  induction rest as [|b rest IH]; intros c a s w.
  - destruct (Column_at_eq c a s w) as (v' & w' & Heq & Hat).
    cbn [Column_pack extract]. unfold bind, ret. rewrite Hat, Heq. reflexivity.
  - destruct (Column_at_eq c a s w) as (v' & w' & Heq & Hat).
    cbn [Column_pack]. unfold bind, ret. rewrite Hat, IH.
    cbn [extract]. rewrite Heq.
    destruct (Binding_Column (projT1 b) _ (c + 1) (projT2 b) w') as [r w''].
    destruct (extract _ (c + 1 + 1) rest w'') as [vs w3]. reflexivity.
Qed.

Lemma Column_extract (args : list carg) (s : Statement) (w : World) :
  Column args (s, w)
  = (Ret (fst (extract (HandleModel.Get (m_stmt s)) 0 args w)),
     (s, snd (extract (HandleModel.Get (m_stmt s)) 0 args w))).
Proof.
  destruct args as [|a rest]; [reflexivity|]. apply Column_pack_extract.
Qed.

(** The calls of an extraction: column reads only, the argument at
    position [k] at column [c + k]. *)
Lemma extract_log (p : sqlite3_stmt) (args : list carg) :
  forall (c : Z) (w : World),
  exists e' evs,
    snd (extract p c args w) = mkWorld e' (log w ++ evs)
    /\ Forall (fun ev => exists k, (k < length args)%nat
                                   /\ kind_of ev = KColumn (c + Z.of_nat k)) evs
    /\ length (fst (extract p c args w)) = length args
    /\ map (@projT1 _ _) (fst (extract p c args w)) = map (@projT1 _ _) args.
Proof.
  induction args as [|a rest IH]; intros c w.
  - exists (eng w), []. cbn. rewrite app_nil_r. destruct w; auto.
  - cbn [extract].
    destruct (Binding_Column_events (projT1 a) p c (projT2 a) w)
      as (v' & e1 & evs1 & Heq & Hk).
    rewrite Heq.
    destruct (IH (c + 1) (mkWorld e1 (log w ++ evs1))) as (e2 & evs2 & Hw & Hk2 & Hlen & Hty).
    destruct (extract p (c + 1) rest _) as [vs w''].
    cbn [fst snd] in *. subst w''. cbn [log]. rewrite <- app_assoc.
    exists e2, (evs1 ++ evs2). split; [reflexivity|]. split; [|split].
    + apply Forall_app. split.
      * eapply Forall_impl; [exact Hk|]. intros ev Hev. exists 0%nat.
        cbn [length]. split; [lia|]. rewrite Hev. f_equal. lia.
      * eapply Forall_impl; [exact Hk2|]. intros ev (k & Hlt & Hev).
        exists (S k). cbn [length]. split; [lia|]. rewrite Hev. f_equal. lia.
    + cbn [length]. rewrite Hlen. reflexivity.
    + cbn [map projT1]. rewrite Hty. reflexivity.
Qed.

Lemma column_events_no_step (evs : list event) :
  Forall (fun ev => exists c, kind_of ev = KColumn c) evs ->
  step_statuses evs = [].
Proof.
  induction 1 as [|ev evs (c & Hc) _ IH]; [reflexivity|].
  unfold step_statuses in *. cbn [omap]. 
  destruct ev; cbn in Hc; try discriminate; cbn; exact IH.
Qed.

End BindFacts.

(** ** Fetch *)

Section FetchFacts.

Context {E : Sqlite3Engine}.

Lemma step_statuses_app (l1 l2 : list event) :
  step_statuses (l1 ++ l2) = step_statuses l1 ++ step_statuses l2.
Proof. apply omap_app. Qed.

Lemma steps_app (l1 l2 : list event) :
  steps (l1 ++ l2) = (steps l1 + steps l2)%nat.
Proof. unfold steps. rewrite step_statuses_app, length_app. reflexivity. Qed.

Lemma rows_app (l1 l2 : list event) :
  rows (l1 ++ l2) = (rows l1 + rows l2)%nat.
Proof.
  unfold rows. rewrite step_statuses_app, filter_app, length_app. reflexivity.
Qed.

Lemma extract_steps (p : sqlite3_stmt) (args : list carg) (c : Z) (w : World) :
  exists e' evs,
    snd (extract p c args w) = mkWorld e' (log w ++ evs)
    /\ step_statuses evs = []
    /\ Forall (fun ev => exists k, (k < length args)%nat
                                   /\ kind_of ev = KColumn (c + Z.of_nat k)) evs.
Proof.
  destruct (extract_log p args c w) as (e' & evs & Hw & Hk & _).
  exists e', evs. split; [exact Hw|]. split; [|exact Hk].
  apply column_events_no_step.
  eapply Forall_impl; [exact Hk|]. intros ev (k & _ & Hev). eauto.
Qed.

(** [Fetch], case by case. *)
Lemma Fetch_eq (args : list carg) (s : Statement) (w : World) :
  let p := HandleModel.Get (m_stmt s) in
  Fetch args (s, w)
  = if m_canFetch s then
      (Ret (true, fst (extract p 0 args w)),
       (mkStatement (m_stmt s) false, snd (extract p 0 args w)))
    else if negb (Z.eqb (step_result p w) SQLITE_ROW)
            && negb (Z.eqb (step_result p w) SQLITE_DONE) then
      (Throw (sqlite_exception (SqliteException_stmt p (stepped p w))),
       (s, stepped p w))
    else if Z.eqb (step_result p w) SQLITE_ROW then
      (Ret (true, fst (extract p 0 args (stepped p w))),
       (mkStatement (m_stmt s) false, snd (extract p 0 args (stepped p w))))
    else
      (Ret (false, args), (mkStatement (m_stmt s) false, stepped p w)).
Proof.
  cbv zeta. unfold Fetch, bind, get_canFetch. cbn [fst snd].
  destruct (m_canFetch s) eqn:Hflag; cbn [negb].
  - unfold ret at 1. cbn [fst snd]. rewrite Hflag.
    rewrite Column_extract. reflexivity.
  - rewrite Step_eq. cbv zeta.
    destruct (negb _ && negb _); [reflexivity|].
    cbn [fst snd m_canFetch m_stmt].
    destruct (Z.eqb (step_result _ w) SQLITE_ROW).
    + rewrite Column_extract. reflexivity.
    + reflexivity.
Qed.

Lemma rows_step (p : sqlite3_stmt) (res : Z) :
  rows [EvStep p res] = if is_row res then 1%nat else 0%nat.
Proof.
  unfold rows, step_statuses.
  change (omap step_status [EvStep p res]) with [res].
  rewrite filter_cons.
  destruct (decide (is_row res = true)) as [H|H].
  - rewrite H. reflexivity.
  - destruct (is_row res); [congruence|reflexivity].
Qed.

End FetchFacts.

Section FetchContract.

Context {E : Sqlite3Engine}.

Lemma steps_stepped (p : sqlite3_stmt) (w : World) :
  steps (log (stepped p w)) = S (steps (log w)).
Proof. unfold stepped. cbn [log]. rewrite steps_app. cbn. lia. Qed.

Lemma rows_stepped (p : sqlite3_stmt) (w : World) :
  rows (log (stepped p w))
  = (rows (log w) + if is_row (step_result p w) then 1 else 0)%nat.
Proof. unfold stepped. cbn [log]. rewrite rows_app, rows_step. reflexivity. Qed.

Lemma steps_extract (p : sqlite3_stmt) (args : list carg) (c : Z) (w : World) :
  steps (log (snd (extract p c args w))) = steps (log w)
  /\ rows (log (snd (extract p c args w))) = rows (log w).
Proof.
  destruct (extract_steps p args c w) as (e' & evs & Hw & Hs & _).
  rewrite Hw. cbn [log]. rewrite steps_app, rows_app.
  unfold steps, rows. rewrite Hs. cbn. lia.
Qed.

(** C1: [Fetch] on any statement and output arguments.  It calls the
    engine's step primitive exactly once when no row is available and not
    at all when one is.  If a row is then available, it extracts into the
    arguments by the Column rules at the positions 0, 1, 2, ... in
    order (nothing but column reads, argument [k] at column [k]), clears
    the row-available flag and returns true.  If the step reports "done",
    it returns false, the output arguments are the ones given, and no
    column is read; if the step fails, the failure is raised.  Every call
    that returns true consumes exactly one row: the row that was pending
    or the one row its single step produced, never both, and leaves none
    pending. *)
Theorem fetch_contract (s : Statement) (w : World) (args : list carg) :
  let p := HandleModel.Get (m_stmt s) in
  let w1 := if m_canFetch s then w else stepped p w in
  let after := Fetch args (s, w) in
  steps (log (snd (snd after))) = (steps (log w) + (1 - pending s))%nat /\
  (m_canFetch s = true \/ step_result p w = SQLITE_ROW ->
     after = (Ret (true, fst (extract p 0 args w1)),
              (mkStatement (m_stmt s) false, snd (extract p 0 args w1)))) /\
  (exists e' evs,
     snd (extract p 0 args w1) = mkWorld e' (log w1 ++ evs)
     /\ Forall (fun ev => exists k, (k < length args)%nat
                                    /\ kind_of ev = KColumn (Z.of_nat k)) evs) /\
  (m_canFetch s = false -> step_result p w = SQLITE_DONE ->
     after = (Ret (false, args), (mkStatement (m_stmt s) false, stepped p w))) /\
  (m_canFetch s = false ->
   step_result p w <> SQLITE_ROW -> step_result p w <> SQLITE_DONE ->
     after = (Throw (sqlite_exception (SqliteException_stmt p (stepped p w))),
              (s, stepped p w))) /\
  (fetched after = Some true ->
     (pending s + rows (log (snd (snd after))) = rows (log w) + 1)%nat
     /\ pending (fst (snd after)) = 0%nat
     /\ (steps (log (snd (snd after))) <= steps (log w) + 1)%nat).
Proof.
  cbv zeta. rewrite Fetch_eq. cbv zeta.
  set (p := HandleModel.Get (m_stmt s)).
  unfold pending, fetched.
  destruct (m_canFetch s) eqn:Hflag.
  - (* a row is already available *)
    cbn [fst snd].
    destruct (steps_extract p args 0 w) as [Hs Hr].
    split; [rewrite Hs; lia|].
    split; [reflexivity|].
    split.
    { destruct (extract_steps p args 0 w) as (e' & evs & Hw & _ & Hk).
      exists e', evs. split; [exact Hw|].
      eapply Forall_impl; [exact Hk|]. intros ev (k & Hlt & Hev).
      exists k. split; [exact Hlt|]. rewrite Hev. f_equal. }
    split; [discriminate|]. split; [discriminate|].
    intros _. rewrite Hr, Hs. cbn [m_canFetch]. lia.
  - (* one step *)
    split.
    { destruct (negb _ && negb _); [cbn [snd]; rewrite steps_stepped; lia|].
      destruct (Z.eqb _ SQLITE_ROW); cbn [snd].
      - destruct (steps_extract p args 0 (stepped p w)) as [Hs _].
        rewrite Hs, steps_stepped. lia.
      - rewrite steps_stepped. lia. }
    split.
    { intros [H|H]; [discriminate|]. rewrite H. reflexivity. }
    split.
    { destruct (extract_steps p args 0 (stepped p w)) as (e' & evs & Hw & _ & Hk).
      exists e', evs. split; [exact Hw|].
      eapply Forall_impl; [exact Hk|]. intros ev (k & Hlt & Hev).
      exists k. split; [exact Hlt|]. rewrite Hev. f_equal. }
    split.
    { intros _ H. rewrite H. reflexivity. }
    split.
    { intros _ Hrow Hdone. apply Z.eqb_neq in Hrow, Hdone.
      rewrite Hrow, Hdone. reflexivity. }
    destruct (negb _ && negb _); [discriminate|].
    destruct (Z.eqb (step_result p w) SQLITE_ROW) eqn:Hrow; cbn [fst snd];
      [|discriminate].
    intros _.
    destruct (steps_extract p args 0 (stepped p w)) as [Hs Hr].
    rewrite Hr, Hs, rows_stepped, steps_stepped. unfold is_row. rewrite Hrow.
    cbn [m_canFetch]. lia.
Qed.

(** C10: [Fetch] with no output argument.  Extraction over the empty
    pack is a no-op: no engine call, no change.  The cursor moves as with
    arguments: one step when no row is available; true with the flag
    cleared when a row is available; false when the step reports
    "done"; and for any argument list the result, the flag afterwards
    and the number of steps are those of [Fetch] without arguments,
    which leaves the engine exactly as the optional step left it. *)
Theorem fetch_without_arguments (s : Statement) (w : World) (args : list carg) :
  let p := HandleModel.Get (m_stmt s) in
  let w1 := if m_canFetch s then w else stepped p w in
  Column [] (s, w) = (Ret [], (s, w)) /\
  (m_canFetch s = true \/ step_result p w = SQLITE_ROW ->
     Fetch [] (s, w) = (Ret (true, []), (mkStatement (m_stmt s) false, w1))) /\
  (m_canFetch s = false -> step_result p w = SQLITE_DONE ->
     Fetch [] (s, w) = (Ret (false, []), (mkStatement (m_stmt s) false, w1))) /\
  snd (snd (Fetch [] (s, w))) = w1 /\
  fetched (Fetch [] (s, w)) = fetched (Fetch args (s, w)) /\
  m_canFetch (fst (snd (Fetch [] (s, w))))
  = m_canFetch (fst (snd (Fetch args (s, w)))) /\
  steps (log (snd (snd (Fetch [] (s, w)))))
  = steps (log (snd (snd (Fetch args (s, w))))).
Proof.
  cbv zeta. rewrite !Fetch_eq. cbv zeta.
  set (p := HandleModel.Get (m_stmt s)).
  split; [reflexivity|].
  unfold fetched.
  destruct (m_canFetch s) eqn:Hflag.
  - cbn [extract fst snd].
    destruct (steps_extract p args 0 w) as [Hs _].
    repeat split; try discriminate; symmetry; exact Hs.
  - split.
    { intros [H|H]; [discriminate|]. rewrite H. reflexivity. }
    split.
    { intros _ H. rewrite H. reflexivity. }
    destruct (negb _ && negb _); [repeat split|].
    destruct (Z.eqb (step_result p w) SQLITE_ROW); cbn [extract fst snd].
    + destruct (steps_extract p args 0 (stepped p w)) as [Hs _].
      repeat split; symmetry; exact Hs.
    + repeat split.
Qed.

End FetchContract.

(** ** Execute *)

Section ExecuteContract.

Context {E : Sqlite3Engine}.

Lemma bind_plan_from_one (n : nat) :
  map (fun k => KBind (1 + Z.of_nat k)) (seq 0 n)
  = map (fun k => KBind (Z.of_nat k + 1)) (seq 0 n).
Proof. apply map_ext. intros k. f_equal. lia. Qed.

Lemma Execute_log (args : list barg) (s : Statement) (w : World) :
  exists out s' e' evs,
    Execute args (s, w) = (out, (s', mkWorld e' (log w ++ evs)))
    /\ m_stmt s' = m_stmt s
    /\ map kind_of evs `prefix_of` execute_plan (length args)
    /\ (is_ret out = true -> map kind_of evs = execute_plan (length args)).
Proof.
  unfold execute_plan.
  destruct args as [|a rest]; cbn [Execute].
  - unfold Execute_void, bind. rewrite Reset_eq. cbv zeta.
    destruct (negb _).
    { do 4 eexists. split; [reflexivity|]. split; [reflexivity|].
      split; [apply prefix_cons, prefix_nil|discriminate]. }
    rewrite Unbind_eq. cbv zeta. cbn [m_stmt eng log].
    destruct (negb _).
    { do 4 eexists. rewrite <- app_assoc. split; [reflexivity|].
      split; [reflexivity|].
      split; [do 2 apply prefix_cons; apply prefix_nil|discriminate]. }
    rewrite Step_eq. cbv zeta. cbn [m_stmt]. unfold stepped. cbn [eng log].
    destruct (negb _ && negb _);
      do 4 eexists; rewrite <- !app_assoc;
      (split; [reflexivity|]); (split; [reflexivity|]);
      split; reflexivity || auto.
  - unfold Execute_args, bind. rewrite Reset_eq. cbv zeta.
    destruct (negb _).
    { do 4 eexists. split; [reflexivity|]. split; [reflexivity|].
      split; [apply prefix_cons, prefix_nil|discriminate]. }
    rewrite Unbind_eq. cbv zeta. cbn [m_stmt eng log].
    destruct (negb _).
    { do 4 eexists. rewrite <- app_assoc. split; [reflexivity|].
      split; [reflexivity|].
      split; [do 2 apply prefix_cons; apply prefix_nil|discriminate]. }
    unfold Bind.
    match goal with |- context [Bind_pack 1 a rest (?s0, ?w0)] =>
      destruct (Bind_pack_log rest 1 a s0 w0) as (out & e1 & evs & Heq & Hpre & Hfull);
      rewrite Heq end.
    rewrite bind_plan_from_one in Hpre, Hfull. cbn [length].
    destruct out as [[]|e].
    + rewrite Step_eq. cbv zeta. cbn [m_stmt]. unfold stepped. cbn [eng log].
      specialize (Hfull eq_refl).
      destruct (negb _ && negb _);
        do 4 eexists; rewrite <- !app_assoc;
        (split; [reflexivity|]); (split; [reflexivity|]);
        cbn [app map]; rewrite map_app, Hfull; cbn [map kind_of];
        split; reflexivity || auto.
    + do 4 eexists. cbn [log]. rewrite <- !app_assoc.
      split; [reflexivity|]. split; [reflexivity|].
      split; [|discriminate].
      cbn [app map]. do 2 apply prefix_cons. apply prefix_app_r. exact Hpre.
Qed.

(** C5: [Execute(args...)] is Reset, ClearBindings, Bind(args...), Step
    in that order, and [Execute()] is Reset, ClearBindings, Step.  On the
    engine this is, for [n] arguments, the calls reset, clear-bindings,
    one bind at each of the positions 1 to [n] in order, and step: a run
    that returns made exactly these calls and a run that raises made a
    prefix of them, stopping at the call that failed.  So every
    execution clears all bindings before it binds, and binds every
    position anew. *)
Theorem execute_contract (s : Statement) (w : World) (args : list barg) :
  (forall a rest, args = a :: rest ->
     Execute args = (Reset ;; Unbind ;; Bind a rest ;; Step)%M) /\
  (args = [] -> Execute args = (Reset ;; Unbind ;; Step)%M) /\
  (exists evs,
     log (snd (snd (Execute args (s, w)))) = log w ++ evs
     /\ map kind_of evs `prefix_of` execute_plan (length args)
     /\ (is_ret (fst (Execute args (s, w))) = true ->
         map kind_of evs = execute_plan (length args))) /\
  m_stmt (fst (snd (Execute args (s, w)))) = m_stmt s.
Proof.
  split; [intros a rest ->; reflexivity|].
  split; [intros ->; reflexivity|].
  destruct (Execute_log args s w) as (out & s' & e' & evs & Heq & Hh & Hpre & Hfull).
  rewrite Heq. cbn [fst snd log]. split; [|exact Hh].
  exists evs. auto.
Qed.

End ExecuteContract.

(** ** Creating a statement *)

Section CreateContract.

Context {E : Sqlite3Engine}.

(** C6: for every connection, building a Statement from an empty query
    text raises the invalid-argument failure and leaves the engine and
    its log as they were (no engine call is made), directly and through
    [Database::Execute], and that failure carries no engine error code.
    For a non-empty text the engine's prepare primitive is called first,
    on the connection and the text; a status other than success raises
    the failure translated from the connection's error state as it is
    after that call, directly and through [Database::Execute], and
    success returns the statement with no row available. *)
Theorem statement_create_contract
    (db : Database) (sql : string_view) (args : list barg) (w : World) :
  let pDb := ConnectionHandle db in
  let n := static_cast int32_t (Z.of_nat (sv_size sql)) in
  let r := sqlite3_prepare_v2 pDb (sv_data sql) n (eng w) in
  let w1 := mkWorld (snd r)
              (log w ++ [EvPrepare pDb (sv_data sql) n (fst (fst r)) (snd (fst r))]) in
  let bad := invalid_argument "'sql': Empty string." in
  (sv_empty sql = true ->
     Statement_ctor db sql w = (Throw bad, w) /\
     Database_Execute db sql args w = (Throw bad, w) /\
     error_code_of bad = None) /\
  (sv_empty sql = false ->
     (exists tl, log (snd (Statement_ctor db sql w)) = log w1 ++ tl) /\
     (exists tl, log (snd (Database_Execute db sql args w)) = log w1 ++ tl) /\
     (fst (fst r) <> SQLITE_OK ->
        let failure := sqlite_exception (SqliteException_db pDb w1) in
        fst (Statement_ctor db sql w) = Throw failure /\
        fst (Database_Execute db sql args w) = Throw failure /\
        error_code_of failure = Some (sqlite3_extended_errcode pDb (eng w1))) /\
     (fst (fst r) = SQLITE_OK ->
        Statement_ctor db sql w
        = (Ret (mkStatement
                  (HandleModel.mkHandle (snd (fst r)) (Some fn_sqlite3_finalize))
                  false), w1))).
Proof.
  cbv zeta. split.
  - intros Hempty.
    assert (Hc : Statement_ctor db sql w
                 = (Throw (invalid_argument "'sql': Empty string."), w)).
    { rewrite Statement_ctor_eq. cbv zeta. rewrite Hempty. reflexivity. }
    split; [exact Hc|]. split; [|reflexivity].
    unfold Database_Execute, PrepareStatement, bind. rewrite Hc. reflexivity.
  - intros Hne.
    pose proof (Statement_ctor_eq db sql w) as Hc. cbv zeta in Hc.
    rewrite Hne in Hc.
    set (r := sqlite3_prepare_v2 (ConnectionHandle db) (sv_data sql)
                (static_cast int32_t (Z.of_nat (sv_size sql))) (eng w)) in *.
    set (w1 := mkWorld (snd r) _) in *.
    (* the log only grows when release functions are invoked *)
    assert (Hinv : forall tr w0, exists tl, log (invoke_all tr w0) = log w0 ++ tl).
    { induction tr as [|i tr IH]; intros w0.
      - exists []. cbn. rewrite app_nil_r. reflexivity.
      - cbn [invoke_all fold_left]. fold (invoke_all tr (invoke i w0)).
        destruct (IH (invoke i w0)) as [tl Htl]. rewrite Htl.
        unfold invoke. destruct (fst i); rewrite call_eq; cbn [snd log];
          rewrite <- app_assoc; eexists; reflexivity. }
    assert (Hbad : fst (fst r) <> SQLITE_OK ->
              negb (Z.eqb (fst (fst r)) SQLITE_OK) = true).
    { intros H. apply Z.eqb_neq in H. rewrite H. reflexivity. }
    split; [|split; [|split]].
    + rewrite Hc. destruct (negb _); cbn [snd].
      * apply Hinv.
      * exists []. rewrite app_nil_r. reflexivity.
    + unfold Database_Execute, PrepareStatement, bind. rewrite Hc.
      destruct (negb _).
      * cbn [snd]. apply Hinv.
      * match goal with |- context [Execute args (?s0, w1)] =>
          destruct (Execute_log args s0 w1) as (out & s' & e' & evs & Heq & _) end.
        rewrite Heq. cbn [fst snd]. unfold Statement_dtor.
        destruct (Hinv (snd (HandleModel.destroy nullptr (m_stmt s')))
                       (mkWorld e' (log w1 ++ evs))) as [tl Htl].
        rewrite Htl. cbn [log]. rewrite <- app_assoc. eexists; reflexivity.
    + intros Hr. cbv zeta. rewrite Hc.
      unfold Database_Execute, PrepareStatement, bind. rewrite Hc.
      rewrite (Hbad Hr). repeat split.
    + intros Hr. rewrite Hc, Hr. reflexivity.
Qed.

End CreateContract.

(** ** Sequences of Fetch *)

Section FetchSequence.

Context {E : Sqlite3Engine}.

(** One [Fetch], summarised by the statuses of the steps it made. *)
Lemma Fetch_summary (args : list carg) (s : Statement) (w : World) :
  exists out s' e' evs,
    Fetch args (s, w) = (out, (s', mkWorld e' (log w ++ evs)))
    /\ m_stmt s' = m_stmt s
    /\ match out with
       | Ret r =>
           m_canFetch s' = false
           /\ ((m_canFetch s = true /\ fst r = true /\ step_statuses evs = [])
               \/ (m_canFetch s = false
                   /\ exists res, step_statuses evs = [res]
                                  /\ fst r = is_row res
                                  /\ (res = SQLITE_ROW \/ res = SQLITE_DONE)))
       | Throw _ =>
           m_canFetch s = false /\ s' = s
           /\ exists res, step_statuses evs = [res]
                          /\ res <> SQLITE_ROW /\ res <> SQLITE_DONE
       end.
Proof.
  rewrite Fetch_eq. cbv zeta.
  set (p := HandleModel.Get (m_stmt s)).
  destruct (m_canFetch s) eqn:Hflag.
  - destruct (extract_steps p args 0 w) as (e' & evs & Hw & Hs & _).
    rewrite Hw. do 4 eexists. split; [reflexivity|]. split; [reflexivity|].
    cbn [m_canFetch fst]. auto.
  - destruct (negb _ && negb _) eqn:Hbad.
    + apply andb_true_iff in Hbad as [H1 H2].
      apply negb_true_iff, Z.eqb_neq in H1, H2.
      unfold stepped. do 4 eexists. split; [reflexivity|]. split; [reflexivity|].
      split; [reflexivity|]. split; [reflexivity|].
      exists (step_result p w). auto.
    + destruct (Z.eqb (step_result p w) SQLITE_ROW) eqn:Hrow.
      * destruct (extract_steps p args 0 (stepped p w)) as (e' & evs & Hw & Hs & _).
        rewrite Hw. unfold stepped. cbn [log]. rewrite <- app_assoc.
        do 4 eexists. split; [reflexivity|]. split; [reflexivity|].
        cbn [m_canFetch fst]. split; [reflexivity|]. right. split; [reflexivity|].
        exists (step_result p w). rewrite step_statuses_app, Hs.
        unfold is_row. rewrite Hrow. apply Z.eqb_eq in Hrow. auto.
      * cbn [negb andb] in Hbad. apply negb_false_iff, Z.eqb_eq in Hbad.
        unfold stepped. do 4 eexists. split; [reflexivity|]. split; [reflexivity|].
        cbn [m_canFetch fst]. split; [reflexivity|]. right. split; [reflexivity|].
        exists (step_result p w). unfold is_row. rewrite Hrow. auto.
Qed.

Lemma last_cons_some {A} (x y : A) (l : list A) :
  last l = Some y -> last (x :: l) = Some y.
Proof. intros H. rewrite last_cons, H. reflexivity. Qed.

Lemma Fetch_each_summary (argss : list (list carg)) :
  forall (s : Statement) (w : World),
  exists out s' e' evs,
    Fetch_each argss (s, w) = (out, (s', mkWorld e' (log w ++ evs)))
    /\ match out with
       | Ret rs =>
           length rs = length argss
           /\ map fst rs
              = map is_row (firstn (length argss) (lookahead s) ++ step_statuses evs)
           /\ Forall (fun res => res = SQLITE_ROW \/ res = SQLITE_DONE)
                     (step_statuses evs)
           /\ (argss <> [] -> m_canFetch s' = false)
       | Throw _ =>
           exists bad, last (step_statuses evs) = Some bad
                       /\ bad <> SQLITE_ROW /\ bad <> SQLITE_DONE
       end.
Proof.
  induction argss as [|args rest IH]; intros s w.
  - exists (Ret []), s, (eng w), []. cbn [Fetch_each]. unfold ret.
    rewrite app_nil_r. destruct w. cbn. split; [reflexivity|].
    repeat split; [constructor|congruence].
  - cbn [Fetch_each]. unfold bind.
    destruct (Fetch_summary args s w) as (out & s1 & e1 & evs1 & Heq & Hh & Hout).
    rewrite Heq. destruct out as [r|e].
    + destruct Hout as [Hflag1 Hcase].
      destruct (IH s1 (mkWorld e1 (log w ++ evs1)))
        as (out2 & s2 & e2 & evs2 & Heq2 & Hout2).
      rewrite Heq2. cbn [log]. rewrite <- app_assoc.
      assert (Hla : lookahead s1 = []) by (unfold lookahead; rewrite Hflag1; reflexivity).
      rewrite Hla, firstn_nil in Hout2. cbn [app] in Hout2.
      destruct out2 as [rs|e].
      * unfold ret. exists (Ret (r :: rs)), s2, e2, (evs1 ++ evs2).
        split; [reflexivity|].
        destruct Hout2 as (Hlen & Hmap & Hok & Hfl).
        rewrite step_statuses_app. cbn [length map].
        split; [rewrite Hlen; reflexivity|].
        destruct Hcase as [(Hf & Hr & Hs)|(Hf & res & Hs & Hr & Hres)].
        -- unfold lookahead. rewrite Hf, Hs, Hr, Hmap. cbn.
           rewrite firstn_nil. cbn [app].
           split; [reflexivity|]. split; [exact Hok|].
           intros _. destruct rest; [|apply Hfl; congruence].
           cbn in Heq2. unfold ret in Heq2. inversion Heq2. subst. exact Hflag1.
        -- unfold lookahead. rewrite Hf, Hs, Hr, Hmap. rewrite firstn_nil. cbn.
           split; [reflexivity|]. split; [constructor; assumption|].
           intros _. destruct rest; [|apply Hfl; congruence].
           cbn in Heq2. unfold ret in Heq2. inversion Heq2. subst. exact Hflag1.
      * exists (Throw e), s2, e2, (evs1 ++ evs2). split; [reflexivity|].
        destruct Hout2 as (bad & Hlast & Hbad).
        exists bad. split; [|exact Hbad]. rewrite step_statuses_app.
        destruct Hcase as [(_ & _ & Hs)|(_ & res & Hs & _)]; rewrite Hs.
        -- exact Hlast.
        -- cbn [app]. apply last_cons_some. exact Hlast.
    + destruct Hout as (_ & _ & res & Hs & Hbad).
      exists (Throw e), s1, e1, evs1. split; [reflexivity|].
      exists res. rewrite Hs. split; [reflexivity|exact Hbad].
Qed.

(** C8, amended: the wrapper keeps one flag and no Exhausted state of its
    own.  After a [Fetch] that returned false the flag is false, as in
    Idle, and the next [Fetch] steps the engine again: it returns true
    exactly when that step reports a row, false when it reports "done",
    and raises otherwise, so the cursor stays exhausted only as long as
    the engine keeps reporting "done".  A [Reset] that succeeds leaves the
    flag false.  Across any sequence of [Fetch] calls that all return, the
    results are, in order, true for the row held ahead (if any) and then
    true for each step that reported a row and false for each step that
    reported "done", one step per call; in particular, when the engine
    reports [n] rows and then "done", [Fetch] returns true [n] times and
    then false.  A sequence that raises stopped at a step whose status was
    neither. *)
Theorem fetch_sequence_follows_engine
    (argss : list (list carg)) (s : Statement) (w : World) :
  let after := Fetch_each argss (s, w) in
  (exists evs,
     log (snd (snd after)) = log w ++ evs
     /\ match fst after with
        | Ret rs =>
            length rs = length argss
            /\ map fst rs
               = map is_row (firstn (length argss) (lookahead s) ++ step_statuses evs)
            /\ Forall (fun res => res = SQLITE_ROW \/ res = SQLITE_DONE)
                      (step_statuses evs)
            /\ (argss <> [] -> m_canFetch (fst (snd after)) = false)
            /\ (forall n, m_canFetch s = false ->
                  step_statuses evs = repeat SQLITE_ROW n ++ [SQLITE_DONE] ->
                  map fst rs = repeat true n ++ [false])
        | Throw _ =>
            exists bad, last (step_statuses evs) = Some bad
                        /\ bad <> SQLITE_ROW /\ bad <> SQLITE_DONE
        end) /\
  (forall args out st', Fetch args (s, w) = (Ret (false, out), st') ->
     m_canFetch (fst st') = false
     /\ forall args',
          fetched (Fetch args' st')
          = let res := step_result (HandleModel.Get (m_stmt s)) (snd st') in
            if is_row res then Some true
            else if Z.eqb res SQLITE_DONE then Some false
            else None) /\
  (forall st', Reset (s, w) = (Ret tt, st') -> m_canFetch (fst st') = false).
Proof.
  cbv zeta. split; [|split].
  - destruct (Fetch_each_summary argss s w) as (out & s' & e' & evs & Heq & Hout).
    rewrite Heq. cbn [fst snd log]. exists evs. split; [reflexivity|].
    destruct out as [rs|e]; [|exact Hout].
    destruct Hout as (Hlen & Hmap & Hok & Hfl).
    repeat split; try assumption.
    intros n Hflag Hst. rewrite Hmap, Hst. unfold lookahead. rewrite Hflag.
    rewrite firstn_nil. cbn [app]. rewrite map_app.
    f_equal. clear. induction n; [reflexivity|]. cbn. f_equal. exact IHn.
  - intros args out st' Hf.
    destruct (Fetch_summary args s w) as (o & s1 & e1 & evs & Heq & Hh & Hout).
    rewrite Heq in Hf. inversion Hf; subst. clear Hf.
    destruct Hout as [Hflag _]. cbn [fst snd]. split; [exact Hflag|].
    intros args'. rewrite Fetch_eq. cbv zeta. rewrite Hflag, Hh.
    unfold fetched, is_row.
    destruct (Z.eqb (step_result _ _) SQLITE_ROW) eqn:Hrow; cbn [negb andb].
    + reflexivity.
    + destruct (Z.eqb (step_result _ _) SQLITE_DONE); reflexivity.
  - intros st' Hr. rewrite Reset_eq in Hr. cbv zeta in Hr.
    destruct (negb _); inversion Hr. reflexivity.
Qed.

End FetchSequence.

(** ** Binding text *)

Section TextBinding.

Context {E : Sqlite3Engine}.

Lemma Bind_cstr_eq (p : sqlite3_stmt) (i : Z) (z : cptr) (w : World) :
  let res := fst (sqlite3_bind_text p i z (-1) SQLITE_TRANSIENT (eng w)) in
  Bind_cstr p i z w
  = (Ret res,
     mkWorld (snd (sqlite3_bind_text p i z (-1) SQLITE_TRANSIENT (eng w)))
             (log w ++ [EvBindText p i z (-1) SQLITE_TRANSIENT res])).
Proof. cbv zeta. unfold Bind_cstr. apply call_eq. Qed.

(** C3, the code at a failing input.  Binding a text view hands the engine
    the view's pointer with the length -1 and the transient destructor,
    whatever the view's length is, so the engine takes the bytes up to the
    first zero byte.  For the view of the first five characters of
    ["hello world"], whose characters are ["hello"], the text bound is
    ["hello world"]; the reference engine gives that text back.  An owned
    text is bound the same way, through [c_str()], and stops at an
    embedded zero byte. *)
Theorem text_view_bound_to_terminator
    (p : sqlite3_stmt) (i : Z) (w : World) (data : list Byte.byte) (size : nat) :
  (exists res e',
     Binding_Bind BStringView p i (mkStringView (Some data) size) w
     = (Ret res,
        mkWorld e' (log w ++ [EvBindText p i (Some data) (-1) SQLITE_TRANSIENT res]))) /\
  text_taken data (-1) = nul_terminated data /\
  sv_chars Scenario.hello = list_byte_of_string "hello" /\
  (exists res e',
     Binding_Bind BStringView p i Scenario.hello w
     = (Ret res,
        mkWorld e' (log w ++ [EvBindText p i (sv_data Scenario.hello) (-1)
                                SQLITE_TRANSIENT res]))) /\
  text_taken (default [] (sv_data Scenario.hello)) (-1) = Scenario.hello_world /\
  Scenario.hello_world <> sv_chars Scenario.hello /\
  Scenario.bind_then_fetch (existT BStringView Scenario.hello) (existT CString [])
  = Some (existT CString Scenario.hello_world) /\
  (exists res e',
     Binding_Bind BString p i [Byte.x61; Byte.x00; Byte.x62] w
     = (Ret res,
        mkWorld e' (log w ++ [EvBindText p i (c_str [Byte.x61; Byte.x00; Byte.x62])
                                (-1) SQLITE_TRANSIENT res]))) /\
  text_taken (default [] (c_str [Byte.x61; Byte.x00; Byte.x62])) (-1) = [Byte.x61].
Proof.
  split.
  { cbn [Binding_Bind sv_data]. rewrite Bind_cstr_eq. eauto. }
  split; [reflexivity|].
  split; [reflexivity|].
  split.
  { cbn [Binding_Bind]. rewrite Bind_cstr_eq. eauto. }
  split; [reflexivity|].
  split; [vm_compute; discriminate|].
  split; [vm_compute; reflexivity|].
  split; [|reflexivity].
  cbn [Binding_Bind]. rewrite Bind_cstr_eq. eauto.
Qed.

End TextBinding.

(** ** The wrapper on the reference engine *)

Section OnReferenceEngine.

Import RefEngine Scenario.

(** The engine state in which the one statement holds [x] as its only
    parameter and as its current row. *)
Lemma select1_eq :
  select1
  = (mkStatement (HandleModel.mkHandle 1 (Some fn_sqlite3_finalize)) false,
     mkWorld (holding [SNull] [] Ready) []).
Proof. reflexivity. Qed.

Lemma Binding_Bind_ref (t : bty) (p : sqlite3_stmt) (i : Z) (v : bval t) (w : World) :
  exists ev,
    Binding_Bind t p i v w
    = (Ret (fst (set_param p i (stored t v) (eng w))),
       mkWorld (snd (set_param p i (stored t v) (eng w))) (log w ++ [ev])).
Proof.
  revert v. induction t; intros v; cbn [Binding_Bind stored];
    unfold Bind_nullptr, Bind_cstr, Bind_integral, Bind_const_span;
    change (ity_size int64_t) with 8%nat.
  - rewrite call_eq; eexists; reflexivity.
  - rewrite call_eq; eexists; reflexivity.
  - destruct v as [x|]; [apply IHt|]. rewrite call_eq; eexists; reflexivity.
  - destruct v; rewrite call_eq; eexists; reflexivity.
  - rewrite call_eq; eexists; reflexivity.
  - destruct (sv_data v); rewrite call_eq; eexists; reflexivity.
  - rewrite call_eq; eexists; reflexivity.
  - destruct (ity_size t <? 8)%nat; rewrite call_eq; eexists; reflexivity.
  - rewrite call_eq; eexists; reflexivity.
  - change (ity_size int32_t <? 8)%nat with true. cbn iota.
    rewrite call_eq; eexists; reflexivity.
  - destruct v; rewrite call_eq; eexists; reflexivity.
  - destruct v; rewrite call_eq; eexists; reflexivity.
  - destruct v; rewrite call_eq; eexists; reflexivity.
Qed.

Lemma reset_ready :
  sqlite3_reset 1 (holding [SNull] [] Ready) = (SQLITE_OK, holding [SNull] [] Ready).
Proof. reflexivity. Qed.

Lemma clear_ready :
  sqlite3_clear_bindings 1 (holding [SNull] [] Ready)
  = (SQLITE_OK, holding [SNull] [] Ready).
Proof. reflexivity. Qed.

Lemma set_param_ready (x : sqlval) :
  set_param 1 1 x (holding [SNull] [] Ready) = (SQLITE_OK, holding [x] [] Ready).
Proof. reflexivity. Qed.

Lemma step_ready (x : sqlval) :
  sqlite3_step 1 (holding [x] [] Ready) = (SQLITE_ROW, holding [x] [x] OnRow).
Proof. reflexivity. Qed.

Lemma Execute_select1 (a : barg) :
  exists l,
    Execute [a] select1
    = (Ret tt,
       (mkStatement (HandleModel.mkHandle 1 (Some fn_sqlite3_finalize)) true,
        mkWorld (holding [stored (projT1 a) (projT2 a)]
                         [stored (projT1 a) (projT2 a)] OnRow) l)).
Proof.
  rewrite select1_eq. cbn [Execute]. unfold Execute_args, bind.
  rewrite Reset_eq. cbv zeta.
  cbn [m_stmt HandleModel.Get HandleModel.m_handle eng log].
  rewrite reset_ready. cbn [fst snd]. change (negb (Z.eqb SQLITE_OK SQLITE_OK)) with false.
  cbn iota.
  rewrite Unbind_eq. cbv zeta.
  cbn [m_stmt HandleModel.Get HandleModel.m_handle eng log].
  rewrite clear_ready. cbn [fst snd]. change (negb (Z.eqb SQLITE_OK SQLITE_OK)) with false.
  cbn iota.
  unfold Bind, Bind_pack, Bind_at, bind, StatementHandle, engine_call.
  cbn [fst snd m_stmt HandleModel.Get HandleModel.m_handle].
  match goal with |- context [Binding_Bind ?t ?p ?i ?v ?w] =>
    destruct (Binding_Bind_ref t p i v w) as [ev Hev]; rewrite Hev end.
  cbn [eng log]. rewrite set_param_ready. cbn [fst snd].
  change (negb (Z.eqb SQLITE_OK SQLITE_OK)) with false. cbn iota.
  unfold ret. rewrite Step_eq. cbv zeta. unfold step_result, stepped.
  cbn [m_stmt HandleModel.Get HandleModel.m_handle eng log].
  rewrite step_ready. cbn [fst snd].
  change (Z.eqb SQLITE_ROW SQLITE_ROW) with true.
  cbn [negb andb]. eexists; reflexivity.
Qed.

(** Reading a column on the reference engine changes nothing in the engine,
    and what is read does not depend on the log. *)
Lemma Binding_Column_ref (t : cty) (p : sqlite3_stmt) (c : Z) :
  forall (out : cval t) (e : state),
  exists v, forall l, exists evs,
    Binding_Column t p c out (mkWorld e l) = (Ret v, mkWorld e (l ++ evs)).
Proof.
  induction t; intros out e; cbn [Binding_Column].
  - destruct (Z.eqb (type_code (cell p c e)) SQLITE_NULL) eqn:Hty.
    + exists None. intros l. unfold bind. rewrite call_eq. cbn [fst snd eng log].
      change (fst (@sqlite3_column_type ref_engine p c e)) with (type_code (cell p c e)).
      rewrite Hty. eexists; reflexivity.
    + destruct (IHt (value_init t) e) as [v Hv]. exists (Some v). intros l.
      unfold bind. rewrite call_eq. cbn [fst snd eng log].
      change (fst (@sqlite3_column_type ref_engine p c e)) with (type_code (cell p c e)).
      rewrite Hty.
      change (snd (@sqlite3_column_type ref_engine p c e)) with e.
      match goal with |- context [Binding_Column t p c _ (mkWorld e ?l0)] =>
        destruct (Hv l0) as [evs Hevs]; rewrite Hevs end.
      unfold ret. rewrite <- app_assoc. eexists; reflexivity.
  - eexists. intros l. unfold Column_string, bind, ret. rewrite !call_eq.
    cbn [fst snd eng log]. rewrite <- app_assoc. eexists; reflexivity.
  - unfold Column_integral, bind, ret.
    destruct (_ <? _)%nat; eexists; intros l; rewrite !call_eq;
      cbn [fst snd eng log]; eexists; reflexivity.
  - eexists. intros l. unfold bind, ret. rewrite !call_eq.
    cbn [fst snd eng log]. eexists; reflexivity.
  - eexists. intros l. unfold Column_integral, bind, ret.
    change (ity_size int32_t <? ity_size int64_t)%nat with true. cbv beta iota.
    rewrite !call_eq. cbn [fst snd eng log]. eexists; reflexivity.
  - eexists. intros l. unfold Column_span, bind, ret. rewrite !call_eq.
    cbn [fst snd eng log]. rewrite <- app_assoc. eexists; reflexivity.
  - eexists. intros l. unfold Column_span, bind, ret. cbv beta.
    repeat (rewrite call_eq; cbn [fst snd eng log]).
    rewrite <- !app_assoc. eexists; reflexivity.
Qed.



End OnReferenceEngine.

(** ** Optional values *)


(** ** Handle: release, move and the account of resources *)

Module HandleFacts.
Import HandleModel.
Local Open Scope nat_scope.

Section Facts.

Context {T : Type} `{EqDecision T} (Invalid : T).
Context {Fn : Type} `{EqDecision Fn}.

Local Abbreviation Handle := (@HandleModel.Handle T Fn).
Local Abbreviation store := (@HandleModel.store T Fn).
Local Abbreviation resource := (@HandleModel.resource T Fn).
Local Abbreviation Release := (HandleModel.Release Invalid).
Local Abbreviation held := (HandleModel.held Invalid).
Local Abbreviation owns := (HandleModel.owns Invalid).
Local Abbreviation holders := (HandleModel.holders Invalid).
Local Abbreviation empty := (HandleModel.Handle_default Invalid : Handle).

Lemma held_empty : held empty = None.
Proof.
  unfold HandleModel.held, HandleModel.Handle_default. cbn.
  rewrite bool_decide_eq_false_2; [reflexivity|]. intros Hne. apply Hne. reflexivity.
Qed.

Lemma Release_held (h : Handle) :
  Release h = match held h with
              | Some r => (true, empty, [r])
              | None => (false, h, [])
              end.
Proof.
  unfold HandleModel.Release, HandleModel.held.
  destruct (bool_decide _); [|reflexivity].
  destruct (HandleModel.m_releaseFn h); reflexivity.
Qed.

Lemma owns_empty (r : resource) : owns r empty = 0.
Proof. unfold HandleModel.owns. rewrite held_empty. reflexivity. Qed.

Lemma times_app (r : resource) (l1 l2 : list resource) :
  HandleModel.times r (l1 ++ l2) = HandleModel.times r l1 + HandleModel.times r l2.
Proof. unfold HandleModel.times. rewrite filter_app, length_app. reflexivity. Qed.

Lemma times_held (r : resource) (h : Handle) :
  HandleModel.times r (option_list (held h)) = owns r h.
Proof.
  unfold HandleModel.times, HandleModel.owns.
  destruct (held h) as [x|].
  - change (option_list (Some x)) with [x].
    rewrite filter_cons, filter_nil.
    destruct (decide (x = r)) as [->|Hne].
    + rewrite bool_decide_eq_true_2; reflexivity.
    + rewrite bool_decide_eq_false_2; [reflexivity|congruence].
  - reflexivity.
Qed.

Local Arguments HandleModel.owns : simpl never.

Lemma holders_app (r : resource) (l1 l2 : list Handle) :
  holders r (l1 ++ l2) = holders r l1 + holders r l2.
Proof. induction l1 as [|h l1 IH]; cbn; [reflexivity|]. rewrite IH. lia. Qed.

Lemma holders_insert (r : resource) (l : list Handle) :
  forall (a : nat) (h h' : Handle),
    l !! a = Some h ->
    holders r (<[a := h']> l) + owns r h = holders r l + owns r h'.
Proof.
  induction l as [|x l IH]; intros a h h' Hl; [discriminate|].
  destruct a as [|a].
  - cbn in Hl. inversion Hl; subst.
    change (<[0%nat := h']> (h :: l)) with (h' :: l).
    cbn [HandleModel.holders]. lia.
  - change (<[S a := h']> (x :: l)) with (x :: <[a := h']> l).
    cbn [HandleModel.holders]. specialize (IH a h h' Hl). lia.
Qed.

(** The effect of each operation on a handle that exists. *)
Lemma Release_at_eq (this : nat) (h : Handle) (s : store) :
  objs s !! this = Some h ->
  Release_at Invalid this s
  = match held h with
    | Some r => (true, mkStore (<[this := empty]> (objs s)) (calls s ++ [r]))
    | None => (false, s)
    end.
Proof.
  intros Hl. unfold Release_at. rewrite Hl, Release_held.
  destruct (held h) as [r|]; [reflexivity|].
  rewrite list_insert_id by exact Hl. rewrite app_nil_r. destruct s; reflexivity.
Qed.

Lemma Reset_at_eq (this : nat) (h : Handle) (s : store) :
  objs s !! this = Some h ->
  Reset_at Invalid this s = mkStore (<[this := empty]> (objs s)) (calls s).
Proof. intros Hl. unfold Reset_at. rewrite Hl. reflexivity. Qed.

Lemma destroy_at_eq (this : nat) (h : Handle) (s : store) :
  objs s !! this = Some h ->
  destroy_at Invalid this s
  = mkStore (<[this := empty]> (objs s)) (calls s ++ option_list (held h)).
Proof.
  intros Hl. unfold destroy_at. rewrite (Release_at_eq this h s Hl).
  destruct (held h) as [r|]; cbn [negb option_list].
  - reflexivity.
  - rewrite (Reset_at_eq this h s Hl), app_nil_r. reflexivity.
Qed.

Lemma move_assign_eq (this other : nat) (h o : Handle) (s : store) :
  this <> other ->
  objs s !! this = Some h -> objs s !! other = Some o ->
  move_assign Invalid this other s
  = mkStore (<[other := empty]>
               (<[this := mkHandle (m_handle o) (m_releaseFn o)]> (objs s)))
            (calls s ++ option_list (held h)).
Proof.
  intros Hne Hthis Hother. unfold move_assign.
  rewrite bool_decide_eq_true_2 by exact Hne. rewrite Hthis, Hother.
  rewrite (Release_at_eq this h s Hthis).
  destruct (held h) as [r|]; cbn [snd objs calls option_list].
  - rewrite list_lookup_insert_ne by exact Hne. rewrite Hother.
    unfold Reset_at. cbn [objs calls].
    rewrite list_lookup_insert_ne by exact Hne.
    rewrite list_lookup_insert_ne by exact Hne. rewrite Hother.
    rewrite list_insert_insert_eq. reflexivity.
  - rewrite Hother. unfold Reset_at. cbn [objs calls].
    rewrite list_lookup_insert_ne by exact Hne. rewrite Hother.
    rewrite app_nil_r. reflexivity.
Qed.

Lemma move_assign_self (this : nat) (s : store) :
  move_assign Invalid this this s = s.
Proof.
  unfold move_assign. rewrite bool_decide_eq_false_2; [reflexivity|].
  intros Hne. apply Hne. reflexivity.
Qed.

Lemma owns_copy (r : resource) (o : Handle) :
  owns r (mkHandle (m_handle o) (m_releaseFn o)) = owns r o.
Proof. destruct o; reflexivity. Qed.

Lemma times_nil (r : resource) : times r [] = 0.
Proof. reflexivity. Qed.

(** Every operation keeps the account of each resource: what is held, what
    has been released and what has been dropped add up to what has been
    acquired. *)
Lemma exec_balance (r : resource) (o : op) (s : store) :
  holders r (objs (exec Invalid o s)) + times r (calls (exec Invalid o s))
    + times r (dropped_by Invalid o s)
  = holders r (objs s) + times r (calls s) + times r (acquired_by Invalid o s).
Proof.
  destruct o as [v f| |other|this other|this|this v|this|this|this];
    cbn [exec dropped_by acquired_by].
  - (* Handle(v, f) *)
    unfold Handle_ctor. cbn [snd objs calls].
    rewrite holders_app, times_held. cbn [HandleModel.holders]. rewrite times_nil. lia.
  - (* Handle() *)
    unfold Handle_ctor_default, Handle_ctor. cbn [snd objs calls].
    rewrite holders_app. cbn [HandleModel.holders].
    fold (Handle_default Invalid : Handle). rewrite owns_empty, times_nil. lia.
  - (* Handle(Handle&&) *)
    unfold Handle_move_ctor, Handle_ctor_default, Handle_ctor. cbn [snd].
    rewrite !times_nil.
    set (s' := mkStore (objs s ++ [mkHandle Invalid None]) (calls s)).
    assert (Hnew : objs s' !! length (objs s) = Some empty).
    { unfold s'. cbn [objs]. rewrite lookup_app_r by lia.
      rewrite Nat.sub_diag. reflexivity. }
    assert (Hbase : holders r (objs s') = holders r (objs s)).
    { unfold s'. cbn [objs]. rewrite holders_app. cbn [HandleModel.holders].
      fold (Handle_default Invalid : Handle). rewrite owns_empty. lia. }
    destruct (objs s !! other) as [o|] eqn:Hother.
    + assert (Hlt : other < length (objs s)) by (eapply lookup_lt_Some; eauto).
      assert (Hother' : objs s' !! other = Some o).
      { unfold s'. cbn [objs]. rewrite lookup_app_l by exact Hlt. exact Hother. }
      rewrite (move_assign_eq (length (objs s)) other empty o s') by (lia || assumption).
      cbn [objs calls]. rewrite held_empty. cbn [option_list]. rewrite app_nil_r.
      pose proof (holders_insert r (objs s') (length (objs s)) empty
                    (mkHandle (m_handle o) (m_releaseFn o)) Hnew) as H1.
      assert (Hl1 : <[length (objs s) := mkHandle (m_handle o) (m_releaseFn o)]> (objs s')
                    !! other = Some o).
      { rewrite list_lookup_insert_ne by lia. exact Hother'. }
      pose proof (holders_insert r _ other o empty Hl1) as H2.
      rewrite owns_copy, owns_empty in *. change (calls s') with (calls s). lia.
    + assert (Hsame : move_assign Invalid (length (objs s)) other s' = s').
      { unfold move_assign. destruct (bool_decide _) eqn:Hd; [|reflexivity].
        apply bool_decide_eq_true_1 in Hd. rewrite Hnew.
        assert (Hnone : objs s' !! other = None).
        { unfold s'. cbn [objs]. apply lookup_ge_None_2. rewrite length_app. cbn.
          apply lookup_ge_None_1 in Hother. lia. }
        rewrite Hnone. reflexivity. }
      rewrite Hsame, Hbase. reflexivity.
  - (* operator=(Handle&&) *)
    rewrite !times_nil.
    destruct (decide (this = other)) as [->|Hne]; [rewrite move_assign_self; lia|].
    destruct (objs s !! this) as [h|] eqn:Hthis;
      [|unfold move_assign; rewrite Hthis; destruct (bool_decide _); lia].
    destruct (objs s !! other) as [o|] eqn:Hother;
      [|unfold move_assign; rewrite Hthis, Hother; destruct (bool_decide _); lia].
    rewrite (move_assign_eq this other h o s Hne Hthis Hother). cbn [objs calls].
    pose proof (holders_insert r (objs s) this h
                  (mkHandle (m_handle o) (m_releaseFn o)) Hthis) as H1.
    assert (Hl1 : <[this := mkHandle (m_handle o) (m_releaseFn o)]> (objs s)
                  !! other = Some o).
    { rewrite list_lookup_insert_ne by exact Hne. exact Hother. }
    pose proof (holders_insert r _ other o empty Hl1) as H2.
    rewrite owns_copy, owns_empty in *. rewrite times_app, times_held. lia.
  - (* Get() *)
    rewrite !times_nil. lia.
  - (* a write through GetAddressOf() *)
    unfold store_through.
    destruct (objs s !! this) as [h|] eqn:Hthis; [|rewrite !times_nil; lia].
    cbn [objs calls]. rewrite !times_held.
    pose proof (holders_insert r (objs s) this h
                  (mkHandle v (m_releaseFn h)) Hthis). lia.
  - (* Release() *)
    rewrite !times_nil.
    destruct (objs s !! this) as [h|] eqn:Hthis;
      [|unfold Release_at; rewrite Hthis; cbn [snd]; lia].
    rewrite (Release_at_eq this h s Hthis).
    pose proof (holders_insert r (objs s) this h empty Hthis) as H1.
    rewrite owns_empty in H1. rewrite <- (times_held r h) in H1.
    destruct (held h) as [x|]; cbn [snd objs calls option_list] in *.
    + change (option_list (Some x)) with [x] in H1. rewrite times_app. lia.
    + lia.
  - (* Reset() *)
    rewrite times_nil.
    destruct (objs s !! this) as [h|] eqn:Hthis;
      [|unfold Reset_at; rewrite Hthis, !times_nil; lia].
    rewrite (Reset_at_eq this h s Hthis). cbn [objs calls]. rewrite times_held.
    pose proof (holders_insert r (objs s) this h empty Hthis) as H1.
    rewrite owns_empty in H1. lia.
  - (* ~Handle() *)
    rewrite !times_nil.
    destruct (objs s !! this) as [h|] eqn:Hthis.
    + rewrite (destroy_at_eq this h s Hthis). cbn [objs calls].
      rewrite times_app, times_held.
      pose proof (holders_insert r (objs s) this h empty Hthis) as H1.
      rewrite owns_empty in H1. lia.
    + unfold destroy_at, Release_at, Reset_at. rewrite Hthis. cbn [negb].
      rewrite Hthis. lia.
Qed.

Lemma run_cons (o : op) (ops : list op) (s : store) :
  run Invalid (o :: ops) s = run Invalid ops (exec Invalid o s).
Proof. reflexivity. Qed.

Lemma run_balance (r : resource) (ops : list op) :
  forall s : store,
    holders r (objs (run Invalid ops s)) + times r (calls (run Invalid ops s))
      + times r (dropped Invalid ops s)
    = holders r (objs s) + times r (calls s) + times r (acquired Invalid ops s).
Proof.
  induction ops as [|o ops IH]; intros s.
  - cbn. lia.
  - rewrite run_cons. cbn [acquired dropped]. rewrite !times_app.
    pose proof (IH (exec Invalid o s)). pose proof (exec_balance r o s). lia.
Qed.

Lemma times_not_in (r : resource) (l : list resource) :
  r ∉ l -> times r l = 0.
Proof.
  induction l as [|x l IH]; intros Hnot; [reflexivity|].
  unfold times in *. rewrite filter_cons.
  apply not_elem_of_cons in Hnot as [Hne Hnot].
  destruct (decide (x = r)) as [->|_]; [congruence|]. apply IH. exact Hnot.
Qed.

Lemma times_in (r : resource) (l : list resource) :
  r ∈ l -> 1 <= times r l.
Proof.
  induction l as [|x l IH]; intros Hin; [inversion Hin|].
  unfold times in *. rewrite filter_cons.
  destruct (decide (x = r)) as [->|Hne]; [cbn; lia|].
  apply elem_of_cons in Hin as [->|Hin]; [congruence|]. apply IH. exact Hin.
Qed.

Lemma times_NoDup (r : resource) (l : list resource) :
  NoDup l -> times r l <= 1.
Proof.
  induction 1 as [|x l Hnot _ IH]; [cbn; lia|].
  unfold times in *. rewrite filter_cons.
  destruct (decide (x = r)) as [->|_]; [|exact IH].
  pose proof (times_not_in r l Hnot) as H0. unfold times in H0.
  cbn [length]. lia.
Qed.

(** Destruction leaves the handle empty, whatever it held. *)
Lemma destroy_at_objs (this : nat) (s : store) :
  objs (destroy_at Invalid this s) = <[this := empty]> (objs s).
Proof.
  destruct (objs s !! this) as [h|] eqn:Hthis.
  - rewrite (destroy_at_eq this h s Hthis). reflexivity.
  - unfold destroy_at, Release_at, Reset_at. rewrite Hthis. cbn [negb].
    rewrite Hthis. symmetry. apply list_insert_ge.
    apply lookup_ge_None_1. exact Hthis.
Qed.

Lemma destroy_run_keeps_empty (addrs : list nat) :
  forall (s : store) (a : nat),
    objs s !! a = Some empty ->
    objs (run Invalid (map OpDestroy addrs) s) !! a = Some empty.
Proof.
  induction addrs as [|b addrs IH]; intros s a Ha; [exact Ha|].
  cbn [map]. rewrite run_cons. cbn [exec]. apply IH. rewrite destroy_at_objs.
  destruct (decide (b = a)) as [->|Hne].
  - apply list_lookup_insert_eq. eapply lookup_lt_Some. exact Ha.
  - rewrite list_lookup_insert_ne by exact Hne. exact Ha.
Qed.

Lemma destroy_run_length (addrs : list nat) :
  forall s : store,
    length (objs (run Invalid (map OpDestroy addrs) s)) = length (objs s).
Proof.
  induction addrs as [|b addrs IH]; intros s; [reflexivity|].
  cbn [map]. rewrite run_cons. cbn [exec].
  rewrite IH, destroy_at_objs, length_insert. reflexivity.
Qed.

Lemma destroy_run_empties (addrs : list nat) :
  forall (s : store) (a : nat),
    a ∈ addrs -> a < length (objs s) ->
    objs (run Invalid (map OpDestroy addrs) s) !! a = Some empty.
Proof.
  induction addrs as [|b addrs IH]; intros s a Hin Hlt; [inversion Hin|].
  cbn [map]. rewrite run_cons. cbn [exec].
  destruct (decide (a = b)) as [->|Hne].
  - apply destroy_run_keeps_empty. rewrite destroy_at_objs.
    apply list_lookup_insert_eq. exact Hlt.
  - apply elem_of_cons in Hin as [->|Hin]; [congruence|].
    apply IH; [exact Hin|]. rewrite destroy_at_objs, length_insert. exact Hlt.
Qed.

Lemma holders_all_empty (r : resource) (l : list Handle) :
  (forall a, a < length l -> l !! a = Some empty) -> holders r l = 0.
Proof.
  induction l as [|h l IH]; intros Hall; [reflexivity|].
  cbn [HandleModel.holders].
  assert (h = empty) as ->.
  { specialize (Hall 0). cbn in Hall. assert (Some h = Some empty) by (apply Hall; lia).
    congruence. }
  rewrite owns_empty, IH; [reflexivity|].
  intros a Ha. apply (Hall (S a)). cbn. lia.
Qed.

Lemma destroy_all_holders (r : resource) (s : store) :
  holders r (objs (run Invalid (destroy_all s) s)) = 0.
Proof.
  apply holders_all_empty. intros a Ha. unfold destroy_all in *.
  rewrite destroy_run_length in Ha.
  apply destroy_run_empties; [|exact Ha].
  apply elem_of_seq. lia.
Qed.

Lemma destroy_all_ghost (addrs : list nat) :
  forall s : store,
    acquired Invalid (map OpDestroy addrs) s = []
    /\ dropped Invalid (map OpDestroy addrs) s = [].
Proof.
  induction addrs as [|b addrs IH]; intros s; [split; reflexivity|].
  cbn [map acquired dropped acquired_by dropped_by app].
  apply IH.
Qed.

Lemma held_spec (h : Handle) (f : Fn) (v : T) :
  held h = Some (f, v)
  <-> m_handle h = v /\ v <> Invalid /\ m_releaseFn h = Some f.
Proof.
  unfold HandleModel.held. destruct (bool_decide _) eqn:Hd.
  - apply bool_decide_eq_true_1 in Hd.
    destruct (m_releaseFn h) as [g|]; cbn; split.
    + intros Heq. inversion Heq; subst. auto.
    + intros (Hv & _ & Hf). inversion Hf; subst. reflexivity.
    + discriminate.
    + intros (_ & _ & Hf). discriminate.
  - apply bool_decide_eq_false_1 in Hd. split; [discriminate|].
    intros (Hv & Hne & _). subst. exfalso. apply Hd. exact Hne.
Qed.

(** C4, amended: a resource is a live (non-sentinel) value with the
    function that releases it.  [Release] calls the release function
    exactly when the held value is not the sentinel and a release function
    is present; it then empties the handle (sentinel, no function) and
    returns true; otherwise it returns false, calls nothing and leaves the
    handle as it is, so on an empty handle it is a no-op returning false.
    Move-assignment from a different handle first releases what the target
    holds, then adopts the source's value and release function and empties
    the source; move-assignment of a handle to itself does nothing.
    Destruction releases as [Release] does and leaves the handle empty.
    [Get] returns the value and changes nothing.  Over any sequence of
    operations on any number of handles, for every resource: the handles
    that hold it, the calls that released it and the times it was dropped
    without release (by [Reset] or by overwriting through [GetAddressOf])
    add up to the times it was acquired.  Hence, when no resource is
    acquired twice, a resource is held by at most one handle at a time, is
    never held once released, and is released at most once; and once every
    handle has been destroyed, each acquired resource that was not dropped
    has been released exactly once. *)
Theorem handle_ownership_contract
    (s : store) (this other : nat) (h o : Handle) (ops : list op) (r : resource) :
  objs s !! this = Some h ->
  objs s !! other = Some o ->
  let final := run Invalid ops empty_store in
  (forall f v, held h = Some (f, v)
               <-> m_handle h = v /\ v <> Invalid /\ m_releaseFn h = Some f) /\
  Release h = match held h with
              | Some x => (true, empty, [x])
              | None => (false, h, [])
              end /\
  Release_at Invalid this s
  = match held h with
    | Some x => (true, mkStore (<[this := empty]> (objs s)) (calls s ++ [x]))
    | None => (false, s)
    end /\
  (m_handle h = Invalid -> Release_at Invalid this s = (false, s)) /\
  (this <> other ->
     move_assign Invalid this other s
     = mkStore (<[other := empty]>
                  (<[this := mkHandle (m_handle o) (m_releaseFn o)]> (objs s)))
               (calls (snd (Release_at Invalid this s)))) /\
  move_assign Invalid this this s = s /\
  destroy_at Invalid this s
  = mkStore (<[this := empty]> (objs s))
            (calls (snd (Release_at Invalid this s))) /\
  Get_at this s = Some (m_handle h) /\
  holders r (objs final) + times r (calls final)
    + times r (dropped Invalid ops empty_store)
  = times r (acquired Invalid ops empty_store) /\
  (NoDup (acquired Invalid ops empty_store) ->
     holders r (objs final) + times r (calls final) <= 1) /\
  (NoDup (acquired Invalid ops empty_store) ->
   r ∈ acquired Invalid ops empty_store ->
   r ∉ dropped Invalid ops empty_store ->
     times r (calls (run Invalid (destroy_all final) final)) = 1).
Proof.
  intros Hthis Hother. cbv zeta.
  pose proof (run_balance r ops empty_store) as Hbal.
  change (holders r (objs empty_store)) with 0 in Hbal.
  change (times r (calls empty_store)) with 0 in Hbal.
  assert (Hrel : calls (snd (Release_at Invalid this s))
                 = calls s ++ option_list (held h)).
  { rewrite (Release_at_eq this h s Hthis).
    destruct (held h); cbn [snd calls option_list]; [reflexivity|].
    rewrite app_nil_r. reflexivity. }
  split; [apply held_spec|].
  split; [apply Release_held|].
  split; [apply Release_at_eq; exact Hthis|].
  split.
  { intros Hinv. rewrite (Release_at_eq this h s Hthis).
    destruct (held h) as [[f v]|] eqn:Hh; [|reflexivity].
    apply held_spec in Hh as (Hv & Hne & _). congruence. }
  split.
  { intros Hne. rewrite Hrel. apply move_assign_eq; assumption. }
  split; [apply move_assign_self|].
  split; [rewrite Hrel; apply destroy_at_eq; exact Hthis|].
  split; [unfold Get_at; rewrite Hthis; reflexivity|].
  split; [lia|].
  split.
  { intros Hnd. pose proof (times_NoDup r _ Hnd). lia. }
  intros Hnd Hin Hnot.
  pose proof (times_NoDup r _ Hnd). pose proof (times_in r _ Hin).
  pose proof (times_not_in r _ Hnot) as Hd.
  set (final := run Invalid ops empty_store) in *.
  pose proof (run_balance r (destroy_all final) final) as Hbal2.
  unfold destroy_all in Hbal2 at 3 4.
  destruct (destroy_all_ghost (seq 0 (length (objs final))) final) as [Ha Hdr].
  rewrite Ha, Hdr in Hbal2. rewrite (destroy_all_holders r final) in Hbal2.
  change (times r []) with 0 in Hbal2. lia.
Qed.

End Facts.
End HandleFacts.

(** ** The contracts at concrete inputs *)

(** C2, counterexample: after [Execute] has produced a row the flag is set;
    the engine is then interrupted and the next [Step] raises; the flag is
    still set afterwards. *)
Lemma step_failure_keeps_flag_set :
  m_canFetch (fst Scenario.row_then_interrupt) = true /\
  is_ret (fst (Step Scenario.row_then_interrupt)) = false /\
  m_canFetch (fst (snd (Step Scenario.row_then_interrupt))) = true /\
  m_canFetch (fst (snd (Step Scenario.row_then_interrupt))) <> false.
Proof. repeat split; try reflexivity. discriminate. Qed.

(** C2, amended, at concrete inputs: a step that produces a row, a step
    that reports "done", and a step that fails while a row is pending. *)
Lemma step_flag_contract_witness :
  let a := Scenario.select1 in
  let b := Scenario.after_fetch in
  let c := Scenario.row_then_interrupt in
  Step (fst a, snd a)
  = (Ret tt, (mkStatement (m_stmt (fst a)) true,
              stepped (HandleModel.Get (m_stmt (fst a))) (snd a))) /\
  Step (fst b, snd b)
  = (Ret tt, (mkStatement (m_stmt (fst b)) false,
              stepped (HandleModel.Get (m_stmt (fst b))) (snd b))) /\
  Step (fst c, snd c)
  = (Throw (sqlite_exception
              (SqliteException_stmt (HandleModel.Get (m_stmt (fst c)))
                 (stepped (HandleModel.Get (m_stmt (fst c))) (snd c)))),
     (fst c, stepped (HandleModel.Get (m_stmt (fst c))) (snd c))).
Proof.
  cbv zeta. split; [|split].
  - apply (proj1 (step_flag_contract (fst Scenario.select1) (snd Scenario.select1))).
    reflexivity.
  - apply (proj1 (proj2 (step_flag_contract (fst Scenario.after_fetch)
                                            (snd Scenario.after_fetch)))).
    reflexivity.
  - apply (proj1 (proj2 (proj2 (step_flag_contract (fst Scenario.row_then_interrupt)
                                                   (snd Scenario.row_then_interrupt))))).
    + apply Z.eqb_neq. reflexivity.
    + apply Z.eqb_neq. reflexivity.
Defined.

(** C1 at concrete inputs: a fresh statement (one step, a row), a statement
    whose row has been consumed (one step, "done"), a statement holding a
    row (no step), and an interrupted engine (the step fails). *)
Lemma fetch_contract_witness :
  let args := [existT (CInt int32_t) 0 : carg] in
  let a := Scenario.select1 in
  let b := Scenario.after_fetch in
  let c := Scenario.after_execute in
  let d := Scenario.idle_then_interrupt in
  Fetch args (fst a, snd a)
  = (Ret (true, fst (extract (HandleModel.Get (m_stmt (fst a))) 0 args
                             (stepped (HandleModel.Get (m_stmt (fst a))) (snd a)))),
     (mkStatement (m_stmt (fst a)) false,
      snd (extract (HandleModel.Get (m_stmt (fst a))) 0 args
                   (stepped (HandleModel.Get (m_stmt (fst a))) (snd a))))) /\
  Fetch args (fst b, snd b)
  = (Ret (false, args),
     (mkStatement (m_stmt (fst b)) false,
      stepped (HandleModel.Get (m_stmt (fst b))) (snd b))) /\
  Fetch args (fst c, snd c)
  = (Ret (true, fst (extract (HandleModel.Get (m_stmt (fst c))) 0 args (snd c))),
     (mkStatement (m_stmt (fst c)) false,
      snd (extract (HandleModel.Get (m_stmt (fst c))) 0 args (snd c)))) /\
  Fetch args (fst d, snd d)
  = (Throw (sqlite_exception
              (SqliteException_stmt (HandleModel.Get (m_stmt (fst d)))
                 (stepped (HandleModel.Get (m_stmt (fst d))) (snd d)))),
     (fst d, stepped (HandleModel.Get (m_stmt (fst d))) (snd d))) /\
  ((pending (fst c) + rows (log (snd (snd (Fetch args (fst c, snd c)))))
    = rows (log (snd c)) + 1)%nat
   /\ pending (fst (snd (Fetch args (fst c, snd c)))) = 0%nat
   /\ (steps (log (snd (snd (Fetch args (fst c, snd c)))))
       <= steps (log (snd c)) + 1)%nat).
Proof.
  cbv zeta. split; [|split; [|split; [|split]]].
  - apply (proj1 (proj2 (fetch_contract (fst Scenario.select1) (snd Scenario.select1)
                           [existT (CInt int32_t) 0 : carg]))).
    right. reflexivity.
  - apply (proj1 (proj2 (proj2 (proj2
             (fetch_contract (fst Scenario.after_fetch) (snd Scenario.after_fetch)
                [existT (CInt int32_t) 0 : carg]))))); reflexivity.
  - apply (proj1 (proj2 (fetch_contract (fst Scenario.after_execute)
                           (snd Scenario.after_execute)
                           [existT (CInt int32_t) 0 : carg]))).
    left. reflexivity.
  - apply (proj1 (proj2 (proj2 (proj2 (proj2
             (fetch_contract (fst Scenario.idle_then_interrupt)
                (snd Scenario.idle_then_interrupt)
                [existT (CInt int32_t) 0 : carg])))))).
    + reflexivity.
    + apply Z.eqb_neq. reflexivity.
    + apply Z.eqb_neq. reflexivity.
  - apply (proj2 (proj2 (proj2 (proj2 (proj2
             (fetch_contract (fst Scenario.after_execute)
                (snd Scenario.after_execute)
                [existT (CInt int32_t) 0 : carg])))))).
    reflexivity.
Defined.

(** C10 at concrete inputs: [Fetch()] on a fresh statement and on one whose
    row has been consumed. *)
Lemma fetch_without_arguments_witness :
  let a := Scenario.select1 in
  let b := Scenario.after_fetch in
  Fetch [] (fst a, snd a)
  = (Ret (true, []),
     (mkStatement (m_stmt (fst a)) false,
      stepped (HandleModel.Get (m_stmt (fst a))) (snd a))) /\
  Fetch [] (fst b, snd b)
  = (Ret (false, []),
     (mkStatement (m_stmt (fst b)) false,
      stepped (HandleModel.Get (m_stmt (fst b))) (snd b))).
Proof.
  cbv zeta. split.
  - apply (proj1 (proj2 (fetch_without_arguments (fst Scenario.select1)
                           (snd Scenario.select1) []))).
    right. reflexivity.
  - apply (proj1 (proj2 (proj2 (fetch_without_arguments (fst Scenario.after_fetch)
                                  (snd Scenario.after_fetch) [])))); reflexivity.
Defined.

(** C5 at a concrete input: [Execute(7)] on a fresh statement returns and
    makes the four planned calls. *)
Lemma execute_contract_witness :
  let args := [existT (BInt int32_t) 7 : barg] in
  let a := Scenario.select1 in
  Execute args = (Reset ;; Unbind ;; Bind (existT (BInt int32_t) 7) [] ;; Step)%M /\
  Execute (E := RefEngine.ref_engine) [] = (Reset ;; Unbind ;; Step)%M /\
  exists evs,
    log (snd (snd (Execute args (fst a, snd a)))) = log (snd a) ++ evs
    /\ map kind_of evs = [KReset; KClearBindings; KBind 1; KStep].
Proof.
  cbv zeta.
  destruct (execute_contract (fst Scenario.select1) (snd Scenario.select1)
              [existT (BInt int32_t) 7 : barg])
    as (Hprog & _ & (evs & Hlog & _ & Hfull) & _).
  destruct (execute_contract (fst Scenario.select1) (snd Scenario.select1) [])
    as (_ & Hvoid & _).
  split; [exact (Hprog _ _ eq_refl)|]. split; [exact (Hvoid eq_refl)|].
  exists evs. split; [exact Hlog|]. apply Hfull. reflexivity.
Defined.

(** C6 at concrete inputs: the empty text, a query the reference engine
    compiles, and a text it rejects. *)
Lemma statement_create_contract_witness :
  let bad := invalid_argument "'sql': Empty string." in
  let w := RefEngine.world0 in
  let args := [existT (BInt int32_t) 7 : barg] in
  (Statement_ctor Scenario.connection (RefEngine.literal "") w = (Throw bad, w)
   /\ Database_Execute Scenario.connection (RefEngine.literal "") args w = (Throw bad, w)
   /\ error_code_of bad = None) /\
  Statement_ctor Scenario.connection (RefEngine.literal "SELECT ?") w
  = (Ret (fst Scenario.select1),
     mkWorld (eng (snd Scenario.select1))
       [EvPrepare 1 (sv_data (RefEngine.literal "SELECT ?")) 8 SQLITE_OK 1]) /\
  fst (Statement_ctor Scenario.connection (RefEngine.literal "DROP") w)
  = Throw (sqlite_exception (mkSqliteException "syntax error" 1)) /\
  fst (Database_Execute Scenario.connection (RefEngine.literal "DROP") args w)
  = Throw (sqlite_exception (mkSqliteException "syntax error" 1)).
Proof.
  cbv zeta.
  pose proof (statement_create_contract Scenario.connection (RefEngine.literal "")
                [existT (BInt int32_t) 7 : barg] RefEngine.world0) as Hempty.
  pose proof (statement_create_contract Scenario.connection (RefEngine.literal "SELECT ?")
                [existT (BInt int32_t) 7 : barg] RefEngine.world0) as Hgood.
  pose proof (statement_create_contract Scenario.connection (RefEngine.literal "DROP")
                [existT (BInt int32_t) 7 : barg] RefEngine.world0) as Hbad.
  cbv zeta in Hempty, Hgood, Hbad.
  split; [exact (proj1 Hempty eq_refl)|].
  split.
  - exact (proj2 (proj2 (proj2 (proj2 Hgood eq_refl))) eq_refl).
  - destruct (proj1 (proj2 (proj2 (proj2 Hbad eq_refl))))
      as (Hdirect & Hvia & _).
    + apply Z.eqb_neq. reflexivity.
    + split; [exact Hdirect|exact Hvia].
Defined.



(** C8, counterexample: on the reference engine, which restarts a
    statement stepped after "done" as SQLite does, the first [Fetch]
    returns true, the second returns false (the cursor is exhausted), and
    the third, with no [Reset] in between, returns true again. *)
Lemma fetch_after_exhaustion_returns_a_row :
  fetched (Fetch [] Scenario.select1) = Some true /\
  fetched (Fetch [] Scenario.after_fetch) = Some false /\
  fetched (Fetch [] Scenario.exhausted) = Some true /\
  step_statuses (log (snd Scenario.exhausted)) = [SQLITE_ROW; SQLITE_DONE] /\
  (forall e, kind_of e = KReset -> e ∉ log (snd (snd (Fetch [] Scenario.exhausted)))).
Proof.
  split; [reflexivity|]. split; [reflexivity|]. split; [reflexivity|].
  split; [reflexivity|].
  intros e He Hin.
  change (log (snd (snd (Fetch [] Scenario.exhausted))))
    with [EvStep 1 SQLITE_ROW; EvStep 1 SQLITE_DONE; EvStep 1 SQLITE_ROW] in Hin.
  repeat (apply elem_of_cons in Hin as [->|Hin]; [discriminate He|]).
  inversion Hin.
Qed.

(** C8, amended, at concrete inputs: two calls of [Fetch] on a fresh
    statement (a row, then "done"), the call after that, and [Reset]. *)
Lemma fetch_sequence_follows_engine_witness :
  let s := fst Scenario.select1 in
  let w := snd Scenario.select1 in
  let b := Scenario.after_fetch in
  (exists evs,
     log (snd (snd (Fetch_each [[]; []] (s, w)))) = log w ++ evs
     /\ step_statuses evs = [SQLITE_ROW; SQLITE_DONE]
     /\ Scenario.fetched_all (fst (Fetch_each [[]; []] (s, w))) = Some [true; false]) /\
  (m_canFetch (fst Scenario.exhausted) = false
   /\ fetched (Fetch [] Scenario.exhausted) = Some true) /\
  m_canFetch (fst (snd (Reset (fst b, snd b)))) = false.
Proof.
  cbv zeta.
  destruct (fetch_sequence_follows_engine [[]; []] (fst Scenario.select1)
              (snd Scenario.select1)) as ((evs & Hlog & Hres) & _).
  destruct (fetch_sequence_follows_engine [] (fst Scenario.after_fetch)
              (snd Scenario.after_fetch)) as (_ & Hfalse & Hreset).
  split; [|split].
  - exists evs. split; [exact Hlog|].
    change (log (snd (snd (Fetch_each [[]; []]
                             (fst Scenario.select1, snd Scenario.select1)))))
      with ([] ++ [EvStep 1 SQLITE_ROW; EvStep 1 SQLITE_DONE]) in Hlog.
    change (log (snd Scenario.select1)) with (@nil event) in Hlog.
    apply app_inv_head in Hlog. subst evs. split; [reflexivity|].
    change (fst (Fetch_each [[]; []] (fst Scenario.select1, snd Scenario.select1)))
      with (Ret [(true, @nil carg); (false, @nil carg)]
            : outcome (list (bool * list carg))) in Hres.
    destruct Hres as (_ & _ & _ & _ & Hrows).
    unfold Scenario.fetched_all.
    change (fst (Fetch_each [[]; []] (fst Scenario.select1, snd Scenario.select1)))
      with (Ret [(true, @nil carg); (false, @nil carg)]
            : outcome (list (bool * list carg))).
    exact (f_equal Some (Hrows 1%nat eq_refl eq_refl)).
  - destruct (Hfalse [] [] Scenario.exhausted eq_refl) as [Hflag Hnext].
    split; [exact Hflag|]. exact (eq_trans (Hnext []) eq_refl).
  - exact (Hreset (snd (Reset (fst Scenario.after_fetch, snd Scenario.after_fetch)))
             eq_refl).
Defined.

(** C9 at a concrete input: the extended code 2067 has primary code 19. *)
Lemma primary_error_code_is_low_byte_witness :
  GetPrimaryErrorCode (mkSqliteException "UNIQUE constraint failed" 2067) = 19 /\
  Z.testbit (GetPrimaryErrorCode (mkSqliteException "UNIQUE constraint failed" 2067)) 4
  = Z.testbit 2067 4 && (4 <? 8).
Proof.
  destruct (primary_error_code_is_low_byte "UNIQUE constraint failed" 2067)
    as (_ & _ & Hmod & _ & Hbit & _).
  split; [exact Hmod|]. apply Hbit. lia.
Defined.

(** C4, counterexample: a handle that owns statement 7 is move-assigned to
    itself.  Nothing is released and the handle still owns the statement,
    where releasing first and then adopting the source would have released
    it. *)
Lemma self_move_assignment_releases_nothing :
  let s := Scenario.two_handles in
  HandleModel.held nullptr Scenario.owner = Some (fn_sqlite3_finalize, 7) /\
  HandleModel.move_assign nullptr 0 0 s = s /\
  HandleModel.calls (HandleModel.move_assign nullptr 0 0 s) = [] /\
  HandleModel.Get_at 0 (HandleModel.move_assign nullptr 0 0 s) = Some 7 /\
  HandleModel.calls (snd (HandleModel.Release_at nullptr 0 s))
  = [(fn_sqlite3_finalize, 7)].
Proof. repeat split; reflexivity. Qed.

(** C4, amended, at concrete inputs: [Release] on the empty handle of the
    store, move-assignment of the owner into it, and the lifetime in which
    statement 7 is acquired, moved and released exactly once. *)
Lemma handle_ownership_contract_witness :
  let s := Scenario.two_handles in
  let r := (fn_sqlite3_finalize, 7) in
  let final := HandleModel.run nullptr Scenario.lifetime HandleModel.empty_store in
  HandleModel.Release_at nullptr 1 s = (false, s) /\
  HandleModel.move_assign nullptr 1 0 s
  = HandleModel.mkStore
      [HandleModel.Handle_default nullptr; Scenario.owner] [] /\
  (HandleModel.holders nullptr r (HandleModel.objs final)
   + HandleModel.times r (HandleModel.calls final) <= 1)%nat /\
  HandleModel.times r
    (HandleModel.calls
       (HandleModel.run nullptr (HandleModel.destroy_all final) final)) = 1%nat.
Proof.
  cbv zeta.
  destruct (HandleFacts.handle_ownership_contract nullptr Scenario.two_handles
              1 0 (HandleModel.Handle_default nullptr) Scenario.owner
              Scenario.lifetime (fn_sqlite3_finalize, 7) eq_refl eq_refl)
    as (_ & _ & _ & Hempty & Hmove & _ & _ & _ & _ & Hmost & Honce).
  assert (Hnd : NoDup (HandleModel.acquired nullptr Scenario.lifetime
                         HandleModel.empty_store)).
  { change (NoDup [(fn_sqlite3_finalize, 7)]). apply NoDup_singleton. }
  split; [exact (Hempty eq_refl)|].
  split; [exact (Hmove ltac:(lia))|].
  split; [exact (Hmost Hnd)|].
  apply (Honce Hnd).
  - change ((fn_sqlite3_finalize, 7) ∈ [(fn_sqlite3_finalize, 7)]).
    apply elem_of_cons. left. reflexivity.
  - change ((fn_sqlite3_finalize, 7) ∉ @nil (release_fn * Z)).
    apply not_elem_of_nil.
Defined.

(** * Further properties *)

(** ** Handle: further properties *)

Module HandleMore.
Import HandleModel.
Local Open Scope nat_scope.

Section More.

Context {T : Type} `{EqDecision T} (Invalid : T).
Context {Fn : Type} `{EqDecision Fn}.

Local Abbreviation Handle := (@HandleModel.Handle T Fn).
Local Abbreviation store := (@HandleModel.store T Fn).
Local Abbreviation resource := (@HandleModel.resource T Fn).
Local Abbreviation held := (HandleModel.held Invalid).
Local Abbreviation empty := (HandleModel.Handle_default Invalid : Handle).

Lemma Release_at_missing (this : nat) (s : store) :
  objs s !! this = None -> Release_at Invalid this s = (false, s).
Proof. intros Hl. unfold Release_at. rewrite Hl. reflexivity. Qed.

(** X1: [Release] is idempotent.  Whatever a first [Release] did, a second
    one on the same handle returns false, calls no release function and
    changes nothing; and destroying a handle twice is destroying it once,
    so no resource is released twice by repeated release or destruction. *)
Theorem release_is_idempotent (this : nat) (s : store) :
  Release_at Invalid this (snd (Release_at Invalid this s))
  = (false, snd (Release_at Invalid this s)) /\
  Release_at Invalid this (destroy_at Invalid this s)
  = (false, destroy_at Invalid this s) /\
  destroy_at Invalid this (destroy_at Invalid this s) = destroy_at Invalid this s.
Proof.
  destruct (objs s !! this) as [h|] eqn:Hthis.
  - assert (Hlt : this < length (objs s)) by (eapply lookup_lt_Some; eauto).
    assert (Hemp : forall c, objs (mkStore (<[this := empty]> (objs s)) c) !! this
                             = Some empty).
    { intros c. cbn [objs]. apply list_lookup_insert_eq. exact Hlt. }
    rewrite (HandleFacts.destroy_at_eq Invalid this h s Hthis).
    rewrite (HandleFacts.Release_at_eq Invalid this h s Hthis).
    split; [|split].
    + destruct (held h) as [r|] eqn:Hh; cbn [snd].
      * rewrite (HandleFacts.Release_at_eq Invalid this empty _ (Hemp _)).
        rewrite HandleFacts.held_empty. reflexivity.
      * rewrite (HandleFacts.Release_at_eq Invalid this h s Hthis), Hh. reflexivity.
    + rewrite (HandleFacts.Release_at_eq Invalid this empty _ (Hemp _)).
      rewrite HandleFacts.held_empty. reflexivity.
    + rewrite (HandleFacts.destroy_at_eq Invalid this empty _ (Hemp _)).
      rewrite HandleFacts.held_empty. cbn [objs calls option_list].
      rewrite list_insert_insert_eq, app_nil_r. reflexivity.
  - assert (Hd : destroy_at Invalid this s = s).
    { unfold destroy_at. rewrite (Release_at_missing this s Hthis). cbn [negb].
      unfold Reset_at. rewrite Hthis. reflexivity. }
    rewrite Hd, (Release_at_missing this s Hthis). cbn [snd].
    rewrite (Release_at_missing this s Hthis). repeat split. exact Hd.
Qed.

(** X2: move construction transfers ownership.  The new handle takes the
    source's value and release function, the source is left empty, no
    release function is called, and every resource has as many holders
    after as before. *)
Theorem move_construction_transfers
    (other : nat) (o : Handle) (s : store) (r : resource) :
  objs s !! other = Some o ->
  let this := fst (Handle_move_ctor Invalid other s) in
  let s' := snd (Handle_move_ctor Invalid other s) in
  this = length (objs s) /\
  objs s' = <[other := empty]> (objs s) ++ [mkHandle (m_handle o) (m_releaseFn o)] /\
  calls s' = calls s /\
  objs s' !! other = Some empty /\
  Get_at this s' = Some (m_handle o) /\
  holders Invalid r (objs s') = holders Invalid r (objs s).
Proof.
  intros Hother. cbv zeta.
  assert (Hlt : other < length (objs s)) by (eapply lookup_lt_Some; eauto).
  unfold Handle_move_ctor, Handle_ctor_default, Handle_ctor. cbn [fst snd].
  set (s0 := mkStore (objs s ++ [mkHandle Invalid None]) (calls s)).
  assert (Hnew : objs s0 !! length (objs s) = Some empty).
  { unfold s0. cbn [objs]. rewrite lookup_app_r by lia.
    rewrite Nat.sub_diag. reflexivity. }
  assert (Hother0 : objs s0 !! other = Some o).
  { unfold s0. cbn [objs]. rewrite lookup_app_l by exact Hlt. exact Hother. }
  rewrite (HandleFacts.move_assign_eq Invalid (length (objs s)) other empty o s0)
    by (lia || assumption).
  rewrite HandleFacts.held_empty. cbn [option_list objs calls].
  rewrite app_nil_r.
  assert (Hobjs : <[other := empty]>
                    (<[length (objs s) := mkHandle (m_handle o) (m_releaseFn o)]>
                       (objs s0))
                  = <[other := empty]> (objs s)
                    ++ [mkHandle (m_handle o) (m_releaseFn o)]).
  { unfold s0. cbn [objs].
    rewrite insert_app_r_alt by lia. rewrite Nat.sub_diag. cbn [insert list_insert].
    rewrite insert_app_l by exact Hlt. reflexivity. }
  rewrite Hobjs. cbn [objs calls].
  split; [reflexivity|]. split; [reflexivity|]. split; [reflexivity|].
  split.
  { assert (Hlt' : other < length (<[other := empty]> (objs s)))
      by (rewrite length_insert; exact Hlt).
    rewrite (lookup_app_l _ _ _ Hlt').
    apply list_lookup_insert_eq. exact Hlt. }
  split.
  { unfold Get_at. cbn [objs].
    assert (Hge : length (<[other := empty]> (objs s)) <= length (objs s))
      by (rewrite length_insert; lia).
    rewrite (lookup_app_r _ _ _ Hge).
    rewrite length_insert, Nat.sub_diag. reflexivity. }
  rewrite HandleFacts.holders_app. cbn [holders].
  pose proof (HandleFacts.holders_insert Invalid r (objs s) other o empty Hother) as H1.
  rewrite HandleFacts.owns_empty in H1. rewrite HandleFacts.owns_copy. lia.
Qed.

(** X3: assigning a braced pair, [h = { v, f }].  The handle ends up
    holding exactly [v] with [f], and the only release call made is the one
    for what the handle held before (none when it held nothing): the
    temporary is emptied by the move and its destruction releases
    nothing. *)
Theorem assign_temporary_releases_previous (h : Handle) (v : T) (f : option Fn) :
  assign_temporary Invalid h v f = (mkHandle v f, option_list (held h)).
Proof.
  unfold assign_temporary, Handle_ctor. cbn [objs calls length].
  set (s1 := mkStore ([h] ++ [mkHandle v f]) []).
  assert (H0 : objs s1 !! 0 = Some h) by reflexivity.
  assert (H1 : objs s1 !! 1 = Some (mkHandle v f)) by reflexivity.
  rewrite (HandleFacts.move_assign_eq Invalid 0 1 h (mkHandle v f) s1)
    by (lia || assumption).
  cbn [objs calls m_handle m_releaseFn s1 app insert list_insert].
  match goal with |- context [destroy_at Invalid 1 ?s2] =>
    rewrite (HandleFacts.destroy_at_eq Invalid 1 empty s2 eq_refl) end.
  rewrite HandleFacts.held_empty. cbn [option_list objs calls].
  rewrite app_nil_r. reflexivity.
Qed.

(** X4: a value written through [GetAddressOf()] is owned with the release
    function the handle already had.  The write itself calls no release
    function; afterwards [Get] returns the value, and destroying the handle
    calls that function on it exactly once when the value is not the
    sentinel, calls nothing when it is, and leaves the handle empty. *)
Theorem out_pointer_value_is_released
    (this : nat) (h : Handle) (f : Fn) (v : T) (s : store) :
  objs s !! this = Some h ->
  m_releaseFn h = Some f ->
  let s1 := store_through this v s in
  Get_at this s1 = Some v /\
  calls s1 = calls s /\
  calls (destroy_at Invalid this s1)
  = calls s ++ (if bool_decide (v <> Invalid) then [(f, v)] else []) /\
  objs (destroy_at Invalid this s1) !! this = Some empty.
Proof.
  intros Hthis Hf. cbv zeta.
  assert (Hlt : this < length (objs s)) by (eapply lookup_lt_Some; eauto).
  unfold store_through. rewrite Hthis, Hf.
  assert (Hl : objs (mkStore (<[this := mkHandle v (Some f)]> (objs s)) (calls s))
               !! this = Some (mkHandle v (Some f))).
  { cbn [objs]. apply list_lookup_insert_eq. exact Hlt. }
  split; [unfold Get_at; rewrite Hl; reflexivity|].
  split; [reflexivity|].
  rewrite (HandleFacts.destroy_at_eq Invalid this _ _ Hl). cbn [objs calls].
  split.
  - unfold HandleModel.held. cbn [m_handle m_releaseFn].
    destruct (bool_decide (v <> Invalid)); reflexivity.
  - apply list_lookup_insert_eq. rewrite length_insert. exact Hlt.
Qed.

End More.
End HandleMore.

(** ** Opening a database and the lifetime of a statement *)

Section Lifetimes.

Context {E : Sqlite3Engine}.

(** Destroying a handle that has a release function, on the world. *)
Lemma destroy_invoke (f : release_fn) (v : Z) (w : World) :
  invoke_all (snd (HandleModel.destroy nullptr (HandleModel.mkHandle v (Some f)))) w
  = if Z.eqb v nullptr then w else released f v w.
Proof.
  unfold HandleModel.destroy, HandleModel.Release. cbn [HandleModel.m_handle
    HandleModel.m_releaseFn].
  destruct (Z.eqb_spec v nullptr) as [->|Hne].
  - reflexivity.
  - rewrite bool_decide_eq_true_2 by exact Hne. reflexivity.
Qed.

Lemma released_log (f : release_fn) (v : Z) (w : World) :
  exists ev,
    log (released f v w) = log w ++ [ev]
    /\ kind_of ev = match f with
                    | fn_sqlite3_close_v2 => KClose
                    | fn_sqlite3_finalize => KFinalize
                    end
    /\ finalize_of ev = match f with
                        | fn_sqlite3_finalize => Some v
                        | fn_sqlite3_close_v2 => None
                        end
    /\ close_of ev = match f with
                     | fn_sqlite3_close_v2 => Some v
                     | fn_sqlite3_finalize => None
                     end.
Proof.
  unfold released, invoke. cbn [fst snd].
  destruct f; rewrite call_eq; cbn [snd log]; eexists; repeat split.
Qed.

Lemma Database_ctor_eq (filename : option string_view) (flags : Z) (w : World) :
  let name := sv_data (default memory_marker filename) in
  let r := sqlite3_open_v2 name flags (eng w) in
  let w1 := mkWorld (snd r)
              (log w ++ [EvOpen name flags (fst (fst r)) (snd (fst r))]) in
  let h := HandleModel.mkHandle (snd (fst r)) (Some fn_sqlite3_close_v2) in
  Database_ctor filename flags w
  = if negb (Z.eqb (fst (fst r)) SQLITE_OK)
    then (Throw (sqlite_exception (SqliteException_db (snd (fst r)) w1)),
          invoke_all (snd (HandleModel.destroy nullptr h)) w1)
    else (Ret (mkDatabase h), w1).
Proof.
  cbv zeta. unfold Database_ctor. rewrite assign_temporary_fresh.
  unfold bind, modify. cbn [invoke_all fold_left].
  rewrite call_eq. cbn [fst snd eng log HandleModel.m_releaseFn HandleModel.Get
    HandleModel.m_handle].
  destruct (negb _); reflexivity.
Qed.

(** X5: opening a database.  An absent file name opens [":memory:"].  The
    engine's open primitive is called once, with the name and the flags.
    On success the connection owns the handle the engine wrote, with
    [sqlite3_close_v2] as its release function, and nothing is closed.  On
    any other status the failure carries the error state of the handle the
    engine wrote, and that handle is closed exactly once when it is not
    null, and not at all when it is null. *)
Theorem database_open_contract
    (filename : option string_view) (flags : Z) (w : World) :
  let name := sv_data (default memory_marker filename) in
  let r := sqlite3_open_v2 name flags (eng w) in
  let res := fst (fst r) in
  let db := snd (fst r) in
  let w1 := mkWorld (snd r) (log w ++ [EvOpen name flags res db]) in
  (filename = None -> name = c_str (list_byte_of_string ":memory:")) /\
  (res = SQLITE_OK ->
     Database_ctor filename flags w
     = (Ret (mkDatabase (HandleModel.mkHandle db (Some fn_sqlite3_close_v2))), w1)
     /\ (forall d, fst (Database_ctor filename flags w) = Ret d ->
                   ConnectionHandle d = db)
     /\ closed (log w1) = closed (log w)) /\
  (res <> SQLITE_OK ->
     fst (Database_ctor filename flags w)
     = Throw (sqlite_exception (SqliteException_db db w1))
     /\ snd (Database_ctor filename flags w)
        = (if Z.eqb db nullptr then w1 else released fn_sqlite3_close_v2 db w1)
     /\ closed (log (snd (Database_ctor filename flags w)))
        = closed (log w) ++ (if Z.eqb db nullptr then [] else [db])).
Proof.
  cbv zeta. rewrite Database_ctor_eq. cbv zeta.
  set (name := sv_data (default memory_marker filename)).
  set (r := sqlite3_open_v2 name flags (eng w)).
  set (w1 := mkWorld (snd r) _).
  assert (Hopen : closed (log w1) = closed (log w)).
  { unfold w1, closed. cbn [log]. rewrite omap_app. cbn. apply app_nil_r. }
  split; [intros ->; reflexivity|]. split.
  - intros Hres. rewrite Hres. cbn [negb Z.eqb SQLITE_OK].
    change (negb (Z.eqb SQLITE_OK SQLITE_OK)) with false. cbn iota.
    split; [reflexivity|]. split; [|exact Hopen].
    intros d Hd. cbn [fst] in Hd. inversion Hd. reflexivity.
  - intros Hres. apply Z.eqb_neq in Hres. rewrite Hres. cbn [negb fst snd].
    rewrite destroy_invoke. split; [reflexivity|]. split; [reflexivity|].
    destruct (Z.eqb (snd (fst r)) nullptr).
    + rewrite Hopen, app_nil_r. reflexivity.
    + destruct (released_log fn_sqlite3_close_v2 (snd (fst r)) w1)
        as (ev & Hlog & _ & _ & Hc).
      rewrite Hlog. unfold closed. rewrite omap_app. fold (closed (log w1)).
      rewrite Hopen. cbn [omap list_omap]. rewrite Hc. reflexivity.
Qed.

Lemma finalized_app (l1 l2 : list event) :
  finalized (l1 ++ l2) = finalized l1 ++ finalized l2.
Proof. apply omap_app. Qed.

Lemma plan_has_no_finalize (n : nat) :
  Forall (fun k => k <> KFinalize) (execute_plan n).
Proof.
  unfold execute_plan. repeat (apply Forall_cons; split; [discriminate|]).
  apply Forall_app. split.
  - apply Forall_forall. intros k Hk. apply list_elem_of_In, in_map_iff in Hk.
    destruct Hk as (i & <- & _). discriminate.
  - repeat constructor. discriminate.
Qed.

Lemma planned_calls_finalize_nothing (n : nat) (evs : list event) :
  map kind_of evs `prefix_of` execute_plan n -> finalized evs = [].
Proof.
  intros [k Hk]. pose proof (plan_has_no_finalize n) as Hall.
  rewrite Hk in Hall. apply Forall_app in Hall as [Hall _]. clear Hk.
  induction evs as [|ev evs IH]; [reflexivity|].
  cbn [map] in Hall. apply Forall_cons in Hall as [Hev Hall].
  unfold finalized in *. cbn [omap list_omap].
  destruct ev; cbn in Hev |- *; try (apply IH; exact Hall).
  congruence.
Qed.

(** X6: a constructor of Statement that fails leaks nothing.  When the
    query text is not empty and the engine's prepare primitive returns a
    status other than success, the statement handle the engine wrote is
    finalized exactly once when it is not null, and nothing is finalized
    when it is null. *)
Theorem failed_prepare_is_finalized
    (db : Database) (sql : string_view) (w : World) :
  sv_empty sql = false ->
  let pDb := ConnectionHandle db in
  let n := static_cast int32_t (Z.of_nat (sv_size sql)) in
  let r := sqlite3_prepare_v2 pDb (sv_data sql) n (eng w) in
  let p := snd (fst r) in
  let w1 := mkWorld (snd r)
              (log w ++ [EvPrepare pDb (sv_data sql) n (fst (fst r)) p]) in
  fst (fst r) <> SQLITE_OK ->
  snd (Statement_ctor db sql w)
  = (if Z.eqb p nullptr then w1 else released fn_sqlite3_finalize p w1) /\
  finalized (log (snd (Statement_ctor db sql w)))
  = finalized (log w) ++ (if Z.eqb p nullptr then [] else [p]).
Proof.
  intros Hne. cbv zeta. intros Hres.
  rewrite Statement_ctor_eq. cbv zeta. rewrite Hne.
  apply Z.eqb_neq in Hres. rewrite Hres. cbn [negb snd].
  rewrite destroy_invoke. split; [reflexivity|].
  set (r := sqlite3_prepare_v2 _ _ _ _).
  set (w1 := mkWorld (snd r) _).
  assert (Hprep : finalized (log w1) = finalized (log w)).
  { unfold w1. cbn [log]. rewrite finalized_app. cbn. apply app_nil_r. }
  destruct (Z.eqb (snd (fst r)) nullptr).
  - rewrite Hprep, app_nil_r. reflexivity.
  - destruct (released_log fn_sqlite3_finalize (snd (fst r)) w1)
      as (ev & Hlog & _ & Hf & _).
    rewrite Hlog, finalized_app, Hprep. unfold finalized at 2.
    cbn [omap list_omap]. rewrite Hf. reflexivity.
Qed.

(** X7: [Database::Execute] finalizes its statement on every path.  When
    the text is not empty and prepare succeeds, the temporary statement
    runs [Execute] with the arguments, and whether that returns or raises,
    the statement is finalized exactly once (when its handle is not null),
    as the last call made; the outcome is the outcome of [Execute]. *)
Theorem database_execute_finalizes
    (db : Database) (sql : string_view) (args : list barg) (w : World) :
  sv_empty sql = false ->
  let pDb := ConnectionHandle db in
  let n := static_cast int32_t (Z.of_nat (sv_size sql)) in
  let r := sqlite3_prepare_v2 pDb (sv_data sql) n (eng w) in
  let p := snd (fst r) in
  let w1 := mkWorld (snd r)
              (log w ++ [EvPrepare pDb (sv_data sql) n (fst (fst r)) p]) in
  let stmt := mkStatement (HandleModel.mkHandle p (Some fn_sqlite3_finalize)) false in
  fst (fst r) = SQLITE_OK ->
  fst (Database_Execute db sql args w) = fst (Execute args (stmt, w1)) /\
  snd (Database_Execute db sql args w)
  = (let after := snd (snd (Execute args (stmt, w1))) in
     if Z.eqb p nullptr then after else released fn_sqlite3_finalize p after) /\
  finalized (log (snd (Database_Execute db sql args w)))
  = finalized (log w) ++ (if Z.eqb p nullptr then [] else [p]).
Proof.
  intros Hne. cbv zeta. intros Hres.
  unfold Database_Execute, PrepareStatement, bind.
  rewrite Statement_ctor_eq. cbv zeta. rewrite Hne, Hres.
  change (negb (Z.eqb SQLITE_OK SQLITE_OK)) with false. cbn iota.
  set (r := sqlite3_prepare_v2 _ _ _ _) in *.
  set (w1 := mkWorld (snd r) _).
  set (stmt := mkStatement _ false).
  destruct (Execute_log args stmt w1) as (out & s' & e' & evs & Heq & Hh & Hpre & _).
  rewrite Heq. cbn [fst snd]. unfold Statement_dtor. rewrite Hh.
  unfold stmt. cbn [m_stmt]. rewrite destroy_invoke.
  split; [reflexivity|]. split; [reflexivity|].
  assert (Hafter : finalized (log w1 ++ evs) = finalized (log w)).
  { rewrite finalized_app, (planned_calls_finalize_nothing _ _ Hpre), app_nil_r.
    unfold w1. cbn [log]. rewrite finalized_app. cbn. apply app_nil_r. }
  destruct (Z.eqb (snd (fst r)) nullptr).
  - cbn [log]. rewrite Hafter, app_nil_r. reflexivity.
  - destruct (released_log fn_sqlite3_finalize (snd (fst r))
                (mkWorld e' (log w1 ++ evs))) as (ev & Hlog & _ & Hf & _).
    rewrite Hlog. cbn [log]. rewrite finalized_app, Hafter.
    unfold finalized at 2. cbn [omap list_omap]. rewrite Hf. reflexivity.
Qed.

End Lifetimes.

(** ** Bind, Column and Execute: what they leave behind *)

Section Packs.

Context {E : Sqlite3Engine}.

Lemma Binding_Bind_status (t : bty) (p : sqlite3_stmt) (i : Z) (v : bval t) (w : World) :
  exists res e' ev,
    Binding_Bind t p i v w = (Ret res, mkWorld e' (log w ++ [ev]))
    /\ kind_of ev = KBind i
    /\ bind_status ev = Some res.
Proof.
  revert v. induction t; intros v; cbn [Binding_Bind];
    unfold Bind_nullptr, Bind_cstr, Bind_integral, Bind_const_span;
    try (rewrite call_eq; do 3 eexists; repeat split).
  - destruct v as [x|].
    + apply IHt.
    + rewrite call_eq; do 3 eexists; repeat split.
  - destruct (_ <? _)%nat; rewrite call_eq; do 3 eexists; repeat split.
  - destruct (_ <? _)%nat; rewrite call_eq; do 3 eexists; repeat split.
Qed.

Lemma bind_statuses_app (l1 l2 : list event) :
  bind_statuses (l1 ++ l2) = bind_statuses l1 ++ bind_statuses l2.
Proof. apply omap_app. Qed.

Lemma Bind_pack_summary (rest : list barg) :
  forall (i : Z) (a : barg) (s : Statement) (w : World),
  exists out e' evs,
    Bind_pack i a rest (s, w) = (out, (s, mkWorld e' (log w ++ evs)))
    /\ map kind_of evs = map (fun k => KBind (i + Z.of_nat k)) (seq 0 (length evs))
    /\ length (bind_statuses evs) = length evs
    /\ match out with
       | Ret _ =>
           length evs = S (length rest)
           /\ Forall (fun res => res = SQLITE_OK) (bind_statuses evs)
       | Throw e =>
           (length evs <= S (length rest))%nat
           /\ (exists oks bad,
                 bind_statuses evs = oks ++ [bad]
                 /\ Forall (fun res => res = SQLITE_OK) oks
                 /\ bad <> SQLITE_OK)
           /\ e = sqlite_exception
                    (SqliteException_stmt (HandleModel.Get (m_stmt s))
                       (mkWorld e' (log w ++ evs)))
       end.
Proof.
  induction rest as [|b rest IH]; intros i a s w.
  - destruct (Binding_Bind_status (projT1 a) (HandleModel.Get (m_stmt s)) i
                (projT2 a) w) as (res & e' & ev & Heq & Hk & Hst).
    cbn [Bind_pack]. unfold Bind_at, bind, StatementHandle, engine_call.
    cbn [fst snd]. rewrite Heq.
    assert (Hsts : bind_statuses [ev] = [res]).
    { unfold bind_statuses. cbn [omap list_omap]. rewrite Hst. reflexivity. }
    destruct (Z.eqb_spec res SQLITE_OK) as [->|Hbad]; cbn [negb].
    + exists (Ret tt), e', [ev]. split; [reflexivity|].
      cbn [map length seq]. rewrite Hk, Z.add_0_r, Hsts.
      repeat split. repeat constructor.
    + eexists (Throw _), e', [ev]. split; [reflexivity|].
      cbn [map length seq]. rewrite Hk, Z.add_0_r, Hsts.
      repeat split; [lia|]. exists [], res. repeat split; [constructor|exact Hbad].
  - destruct (Binding_Bind_status (projT1 a) (HandleModel.Get (m_stmt s)) i
                (projT2 a) w) as (res & e' & ev & Heq & Hk & Hst).
    cbn [Bind_pack]. unfold bind at 1. unfold Bind_at at 1.
    unfold bind, StatementHandle, engine_call. cbn [fst snd]. rewrite Heq.
    assert (Hsts : bind_statuses [ev] = [res]).
    { unfold bind_statuses. cbn [omap list_omap]. rewrite Hst. reflexivity. }
    destruct (Z.eqb_spec res SQLITE_OK) as [->|Hbad]; cbn [negb].
    + unfold ret.
      destruct (IH (i + 1) b s (mkWorld e' (log w ++ [ev])))
        as (out & e'' & evs & Heq' & Hkinds & Hlen & Hout).
      rewrite Heq'. cbn [log]. rewrite <- app_assoc.
      exists out, e'', (ev :: evs). split; [reflexivity|].
      change (ev :: evs) with ([ev] ++ evs).
      rewrite bind_statuses_app, Hsts. cbn [app length map].
      split; [|split].
      * rewrite Hk, Hkinds. cbn [seq map]. f_equal; [f_equal; lia|].
        rewrite <- seq_shift, map_map. apply map_ext. intros k. f_equal. lia.
      * rewrite Hlen. reflexivity.
      * destruct out as [u|e].
        -- destruct Hout as [Hn Hall]. split; [rewrite Hn; reflexivity|].
           constructor; [reflexivity|exact Hall].
        -- destruct Hout as (Hn & (oks & bad & Hb & Hoks & Hbad) & He).
           split; [lia|]. split.
           ++ exists (SQLITE_OK :: oks), bad. rewrite Hb.
              repeat split; [constructor; [reflexivity|exact Hoks]|exact Hbad].
           ++ rewrite He. cbn [log]. rewrite <- app_assoc. reflexivity.
    + eexists (Throw _), e', [ev]. split; [reflexivity|].
      cbn [map length seq]. rewrite Hk, Z.add_0_r, Hsts.
      repeat split; [lia|]. exists [], res. repeat split; [constructor|exact Hbad].
Qed.

Lemma bind_events_no_step (evs : list event) (f : nat -> Z) (l : list nat) :
  map kind_of evs = map (fun k => KBind (f k)) l -> step_statuses evs = [].
Proof.
  revert l. induction evs as [|ev evs IH]; intros l Hk; [reflexivity|].
  destruct l as [|k l]; [discriminate|]. cbn [map] in Hk. inversion Hk as [[Hev Hrest]].
  unfold step_statuses in *. cbn [omap list_omap].
  destruct ev; cbn in Hev; try discriminate; cbn; eapply IH; exact Hrest.
Qed.

Lemma Execute_outcome (args : list barg) (s : Statement) (w : World) :
  let p := HandleModel.Get (m_stmt s) in
  let reset_ok := Z.eqb (fst (sqlite3_reset p (eng w))) SQLITE_OK in
  exists out s' e' evs,
    Execute args (s, w) = (out, (s', mkWorld e' (log w ++ evs)))
    /\ m_stmt s' = m_stmt s
    /\ match out with
       | Ret _ =>
           reset_ok = true
           /\ exists res, step_statuses evs = [res]
                          /\ m_canFetch s' = is_row res
                          /\ (res = SQLITE_ROW \/ res = SQLITE_DONE)
       | Throw _ =>
           (reset_ok = false /\ s' = s /\ step_statuses evs = [])
           \/ (reset_ok = true /\ m_canFetch s' = false
               /\ (step_statuses evs = []
                   \/ exists bad, step_statuses evs = [bad]
                                  /\ bad <> SQLITE_ROW /\ bad <> SQLITE_DONE))
       end.
Proof.
  cbv zeta.
  assert (Hstep : forall (s0 : Statement) (w0 : World) (pre : list event),
            m_stmt s0 = m_stmt s -> m_canFetch s0 = false ->
            log w0 = log w ++ pre -> step_statuses pre = [] ->
            exists out s' e' evs,
              Step (s0, w0) = (out, (s', mkWorld e' (log w ++ evs)))
              /\ m_stmt s' = m_stmt s
              /\ match out with
                 | Ret _ =>
                     exists res, step_statuses evs = [res]
                                 /\ m_canFetch s' = is_row res
                                 /\ (res = SQLITE_ROW \/ res = SQLITE_DONE)
                 | Throw _ =>
                     m_canFetch s' = false
                     /\ exists bad, step_statuses evs = [bad]
                                    /\ bad <> SQLITE_ROW /\ bad <> SQLITE_DONE
                 end).
  { intros s0 w0 pre Hh Hflag Hlog Hpre. rewrite Step_eq. cbv zeta.
    unfold stepped, step_result. rewrite Hlog, <- app_assoc.
    set (res := fst (sqlite3_step (HandleModel.Get (m_stmt s0)) (eng w0))).
    assert (Hsts : step_statuses (pre ++ [EvStep (HandleModel.Get (m_stmt s0)) res])
                   = [res]).
    { rewrite step_statuses_app, Hpre. reflexivity. }
    destruct (Z.eqb_spec res SQLITE_ROW) as [Hrow|Hrow]; cbn [negb andb].
    - do 4 eexists. split; [reflexivity|]. split; [exact Hh|].
      exists res. rewrite Hsts. unfold is_row. rewrite Hrow. auto.
    - destruct (Z.eqb_spec res SQLITE_DONE) as [Hdone|Hdone]; cbn [negb].
      + do 4 eexists. split; [reflexivity|]. split; [exact Hh|].
        exists res. rewrite Hsts. unfold is_row.
        apply Z.eqb_neq in Hrow. rewrite Hrow. auto.
      + do 4 eexists. split; [reflexivity|]. split; [exact Hh|].
        split; [exact Hflag|]. exists res. rewrite Hsts. auto. }
  destruct args as [|a rest]; cbn [Execute].
  - unfold Execute_void, bind. rewrite Reset_eq. cbv zeta.
    destruct (Z.eqb (fst (sqlite3_reset _ (eng w))) SQLITE_OK) eqn:Hreset; cbn [negb].
    2:{ do 4 eexists. split; [reflexivity|]. split; [reflexivity|]. left. auto. }
    rewrite Unbind_eq. cbv zeta. cbn [m_stmt eng log]. rewrite <- !app_assoc.
    destruct (negb _).
    { do 4 eexists. split; [reflexivity|]. split; [reflexivity|].
      right. split; [reflexivity|]. split; [reflexivity|]. left. reflexivity. }
    match goal with |- context [Step (?s0, ?w0)] =>
      destruct (Hstep s0 w0 _ eq_refl eq_refl eq_refl eq_refl)
        as (out & s' & e' & evs & Heq & Hh & Hout); rewrite Heq end.
    exists out, s', e', evs. split; [reflexivity|]. split; [exact Hh|].
    destruct out; [split; [reflexivity|exact Hout]|].
    right. split; [reflexivity|]. destruct Hout as [Hf Hb]. auto.
  - unfold Execute_args, bind. rewrite Reset_eq. cbv zeta.
    destruct (Z.eqb (fst (sqlite3_reset _ (eng w))) SQLITE_OK) eqn:Hreset; cbn [negb].
    2:{ do 4 eexists. split; [reflexivity|]. split; [reflexivity|]. left. auto. }
    rewrite Unbind_eq. cbv zeta. cbn [m_stmt eng log]. rewrite <- !app_assoc.
    destruct (negb _).
    { do 4 eexists. split; [reflexivity|]. split; [reflexivity|].
      right. split; [reflexivity|]. split; [reflexivity|]. left. reflexivity. }
    unfold Bind.
    match goal with |- context [Bind_pack 1 a rest (?s0, ?w0)] =>
      destruct (Bind_pack_summary rest 1 a s0 w0)
        as (out & e1 & evs & Heq & Hkinds & _ & _); rewrite Heq end.
    pose proof (bind_events_no_step evs _ _ Hkinds) as Hnone.
    cbn [log] in *. rewrite <- !app_assoc.
    destruct out as [[]|e].
    + match goal with |- context [Step (?s0, ?w0)] =>
        destruct (Hstep s0 w0 _ eq_refl eq_refl eq_refl
                    ltac:(rewrite !step_statuses_app, Hnone; reflexivity))
          as (out & s' & e' & evs' & Heq' & Hh & Hout); rewrite Heq' end.
      exists out, s', e', evs'. split; [reflexivity|]. split; [exact Hh|].
      destruct out; [split; [reflexivity|exact Hout]|].
      right. split; [reflexivity|]. destruct Hout as [Hf Hb]. auto.
    + do 4 eexists. split; [reflexivity|]. split; [reflexivity|].
      right. split; [reflexivity|]. split; [reflexivity|]. left.
      rewrite !step_statuses_app, Hnone. reflexivity.
Qed.

(** X10: the row-available flag after [Execute].  [Execute] never changes
    the handle.  If its reset fails, it raises and leaves the statement as
    it was, the flag included.  If its reset succeeds, then after an
    [Execute] that raises (in clear-bindings, in a bind or in the step) the
    flag is false, and after an [Execute] that returns exactly one step has
    been made and the flag tells whether that step produced a row. *)
Theorem execute_leaves_flag (args : list barg) (s : Statement) (w : World) :
  let p := HandleModel.Get (m_stmt s) in
  let res_reset := fst (sqlite3_reset p (eng w)) in
  let after := Execute args (s, w) in
  m_stmt (fst (snd after)) = m_stmt s /\
  (res_reset <> SQLITE_OK ->
     is_ret (fst after) = false /\ fst (snd after) = s) /\
  (res_reset = SQLITE_OK ->
     (is_ret (fst after) = false -> m_canFetch (fst (snd after)) = false)
     /\ (is_ret (fst after) = true ->
         exists evs res,
           log (snd (snd after)) = log w ++ evs
           /\ step_statuses evs = [res]
           /\ (res = SQLITE_ROW \/ res = SQLITE_DONE)
           /\ m_canFetch (fst (snd after)) = is_row res)).
Proof.
  cbv zeta.
  destruct (Execute_outcome args s w) as (out & s' & e' & evs & Heq & Hh & Hout).
  cbv zeta in Hout. rewrite Heq. cbn [fst snd log].
  split; [exact Hh|]. split.
  - intros Hres. apply Z.eqb_neq in Hres.
    destruct out as [u|e].
    + destruct Hout as [Hok _]. congruence.
    + destruct Hout as [(_ & Hs & _)|(Hok & _)]; [auto|congruence].
  - intros Hres. apply Z.eqb_eq in Hres. split.
    + destruct out as [u|e]; [discriminate|]. intros _.
      destruct Hout as [(Hbad & _)|(_ & Hf & _)]; [congruence|exact Hf].
    + destruct out as [u|e]; [|discriminate]. intros _.
      destruct Hout as (_ & res & Hs & Hf & Hr). exists evs, res. auto.
Qed.

(** X11: [Execute] followed by [Fetch].  When [Execute] returns it has
    made exactly one step.  If that step produced a row, the next [Fetch]
    returns true and makes no step of its own, so the first row is not
    skipped.  If that step reported "done", the next [Fetch] steps the
    statement a second time. *)
Theorem execute_then_fetch
    (args : list barg) (out : list carg) (s : Statement) (w : World) :
  is_ret (fst (Execute args (s, w))) = true ->
  let st1 := snd (Execute args (s, w)) in
  let after := Fetch out (fst st1, snd st1) in
  steps (log (snd st1)) = S (steps (log w)) /\
  (m_canFetch (fst st1) = true ->
     fetched after = Some true
     /\ steps (log (snd (snd after))) = S (steps (log w))) /\
  (m_canFetch (fst st1) = false ->
     steps (log (snd (snd after))) = S (S (steps (log w)))).
Proof.
  intros Hret. cbv zeta.
  destruct (Execute_outcome args s w) as (o & s' & e' & evs & Heq & Hh & Hout).
  rewrite Heq in *. cbn [fst snd log] in *.
  destruct o as [u|e]; [|discriminate].
  destruct Hout as (_ & res & Hs & _).
  assert (Hone : steps (log w ++ evs) = S (steps (log w))).
  { rewrite steps_app. unfold steps at 2. rewrite Hs. cbn. lia. }
  split; [exact Hone|].
  destruct (Fetch_summary out s' (mkWorld e' (log w ++ evs)))
    as (fo & s2 & e2 & evs2 & Hf & _ & Hfo).
  rewrite Hf. unfold fetched. cbn [fst snd log].
  assert (Htwo : steps ((log w ++ evs) ++ evs2)
                 = (S (steps (log w)) + length (step_statuses evs2))%nat).
  { rewrite steps_app, Hone. reflexivity. }
  rewrite Htwo. clear Htwo. split.
  - intros Hflag. destruct fo as [r|x].
    + destruct Hfo as (_ & [(_ & Hr & Hs2)|(Hno & _)]); [|congruence].
      rewrite Hs2, Hr. cbn. split; [reflexivity|lia].
    + destruct Hfo as (Hno & _). congruence.
  - intros Hflag. destruct fo as [r|x].
    + destruct Hfo as (_ & [(Hyes & _)|(_ & r2 & Hs2 & _)]); [congruence|].
      rewrite Hs2. cbn. lia.
    + destruct Hfo as (_ & _ & r2 & Hs2 & _). rewrite Hs2. cbn. lia.
Qed.

End Packs.

(** ** Bind and Column: the argument at each position *)

Section PackPositions.

Context {E : Sqlite3Engine}.

Lemma Bind_pack_each (rest : list barg) :
  forall (i : Z) (a : barg) (s : Statement) (w : World),
    Bind_pack i a rest (s, w)
    = (fst (bind_each (HandleModel.Get (m_stmt s)) i (a :: rest) w),
       (s, snd (bind_each (HandleModel.Get (m_stmt s)) i (a :: rest) w))).
Proof.
  induction rest as [|b rest IH]; intros i a s w.
  - cbn [Bind_pack bind_each]. unfold Bind_at, bind, StatementHandle, engine_call.
    cbn [fst snd].
    destruct (Binding_Bind (projT1 a) _ i (projT2 a) w) as [[res|e] w'];
      [|reflexivity].
    destruct (Z.eqb res SQLITE_OK); reflexivity.
  - cbn [Bind_pack]. unfold bind at 1. unfold Bind_at at 1.
    unfold bind, StatementHandle, engine_call. cbn [fst snd].
    change (bind_each (HandleModel.Get (m_stmt s)) i (a :: b :: rest) w)
      with (let '(r, w') := Binding_Bind (projT1 a) (HandleModel.Get (m_stmt s)) i
                              (projT2 a) w in
            match r with
            | Ret res =>
                if Z.eqb res SQLITE_OK
                then bind_each (HandleModel.Get (m_stmt s)) (i + 1) (b :: rest) w'
                else (Throw (sqlite_exception
                               (SqliteException_stmt (HandleModel.Get (m_stmt s)) w')),
                      w')
            | Throw e => (Throw e, w')
            end).
    destruct (Binding_Bind (projT1 a) _ i (projT2 a) w) as [[res|e] w'];
      [|reflexivity].
    destruct (Z.eqb res SQLITE_OK); cbn [negb]; [|reflexivity].
    unfold ret. rewrite IH. reflexivity.
Qed.

Lemma extract_app (p : sqlite3_stmt) (l1 l2 : list carg) :
  forall (c : Z) (w : World),
    extract p c (l1 ++ l2) w
    = (fst (extract p c l1 w)
         ++ fst (extract p (c + Z.of_nat (length l1)) l2 (snd (extract p c l1 w))),
       snd (extract p (c + Z.of_nat (length l1)) l2 (snd (extract p c l1 w)))).
Proof.
  induction l1 as [|a l1 IH]; intros c w.
  - cbn [app extract length fst snd Z.of_nat]. rewrite Z.add_0_r.
    destruct (extract p c l2 w); reflexivity.
  - cbn [app extract length].
    destruct (Binding_Column (projT1 a) p c (projT2 a) w) as [r w1].
    rewrite IH.
    replace (c + 1 + Z.of_nat (length l1)) with (c + Z.of_nat (S (length l1))) by lia.
    destruct (extract p (c + 1) l1 w1) as [vs w2]. cbn [fst snd].
    destruct r; reflexivity.
Qed.

(** The argument at position [k] is read at column [c + k], in the world
    left by the reads of the arguments before it, and its new value is at
    position [k] of the result. *)
Lemma extract_position (p : sqlite3_stmt) (args : list carg) (c : Z) (w : World)
    (k : nat) (a : carg) :
  args !! k = Some a ->
  exists v,
    Binding_Column (projT1 a) p (c + Z.of_nat k) (projT2 a)
      (snd (extract p c (take k args) w))
    = (Ret v, snd (extract p c (take (S k) args) w))
    /\ fst (extract p c args w) !! k = Some (existT (projT1 a) v).
Proof.
  intros Hk.
  assert (Hlen : length (take k args) = k).
  { rewrite length_take. apply lookup_lt_Some in Hk. lia. }
  destruct (Binding_Column_events (projT1 a) p (c + Z.of_nat k) (projT2 a)
              (snd (extract p c (take k args) w))) as (v & e' & evs & Heq & _).
  exists v.
  assert (Hone : extract p (c + Z.of_nat k) [a] (snd (extract p c (take k args) w))
                 = ([existT (projT1 a) v], mkWorld e' (log (snd (extract p c (take k args) w)) ++ evs))).
  { cbn [extract]. rewrite Heq. reflexivity. }
  split.
  - rewrite Heq. f_equal.
    rewrite (take_S_r _ _ _ Hk), extract_app, Hlen, Hone. reflexivity.
  - rewrite <- (take_drop_middle args k a Hk) at 1.
    rewrite extract_app, Hlen. cbn [fst].
    assert (Hl : length (fst (extract p c (take k args) w)) = k).
    { destruct (extract_log p (take k args) c w) as (_ & _ & _ & _ & Hl & _).
      rewrite Hl. exact Hlen. }
    assert (Hle : (length (fst (extract p c (take k args) w)) <= k)%nat) by lia.
    rewrite (lookup_app_r _ _ _ Hle). rewrite Hl, Nat.sub_diag.
    change (a :: drop (S k) args) with ([a] ++ drop (S k) args).
    rewrite extract_app, Hone. reflexivity.
Qed.

End PackPositions.

Section PositionsOnReferenceEngine.

Import RefEngine Scenario.

Lemma set_param_holding (ps : list sqlval) (i : Z) (v : sqlval) :
  1 <= i <= Z.of_nat (length ps) ->
  set_param 1 i v (holding ps [] Ready)
  = (SQLITE_OK, holding (<[Z.to_nat (i - 1) := v]> ps) [] Ready).
Proof.
  intros Hi. unfold set_param, on_stmt, holding, find, update, slot.
  cbn [stmts].
  change (1 <? 1) with false. change (Z.to_nat (1 - 1)) with 0%nat.
  cbn [lookup list_lookup live ph params row].
  assert (H1 : (1 <=? i) = true) by (apply Z.leb_le; lia).
  assert (H2 : (i <=? Z.of_nat (length ps)) = true) by (apply Z.leb_le; lia).
  rewrite H1, H2. reflexivity.
Qed.

(** Binding the arguments from parameter [k + 1] on fills the parameters
    from position [k] on with what the Bind rules store. *)
Lemma bind_each_holding (args : list barg) :
  forall (k : nat) (ps : list sqlval) (l : list event),
    length ps = (k + length args)%nat ->
    exists l',
      bind_each 1 (Z.of_nat k + 1) args (mkWorld (holding ps [] Ready) l)
      = (Ret tt,
         mkWorld (holding (take k ps ++ map (fun a => stored (projT1 a) (projT2 a)) args)
                          [] Ready) l').
Proof.
  induction args as [|a rest IH]; intros k ps l Hlen.
  - exists l. cbn [bind_each map length] in *. rewrite app_nil_r.
    rewrite firstn_all2 by lia. reflexivity.
  - cbn [bind_each length map] in *.
    destruct (Binding_Bind_ref (projT1 a) 1 (Z.of_nat k + 1) (projT2 a)
                (@mkWorld ref_engine (holding ps [] Ready) l)) as [ev Hev].
    rewrite Hev. cbn [eng log].
    rewrite set_param_holding by lia. cbn [fst snd].
    change (Z.eqb SQLITE_OK SQLITE_OK) with true. cbn iota.
    replace (Z.to_nat (Z.of_nat k + 1 - 1)) with k by lia.
    set (x := stored (projT1 a) (projT2 a)).
    assert (Hk : (k < length ps)%nat) by lia.
    destruct (IH (S k) (<[k := x]> ps) (l ++ [ev])) as [l' Hl'].
    { rewrite length_insert. lia. }
    replace (Z.of_nat k + 1 + 1) with (Z.of_nat (S k) + 1) by lia.
    rewrite Hl'. exists l'. do 3 f_equal.
    rewrite (take_S_r _ _ x) by (apply list_lookup_insert_eq; exact Hk).
    rewrite take_insert_ge by lia. rewrite <- app_assoc. reflexivity.
Qed.

(** Reading columns changes nothing in the reference engine. *)
Lemma extract_keeps_engine (p : sqlite3_stmt) (args : list carg) :
  forall (c : Z) (e : state) (l : list event),
  exists l', snd (extract p c args (mkWorld e l)) = mkWorld e l'.
Proof.
  induction args as [|a rest IH]; intros c e l.
  - exists l. reflexivity.
  - cbn [extract].
    destruct (Binding_Column_ref (projT1 a) p c (projT2 a) e) as [v Hv].
    destruct (Hv l) as [evs Hevs]. rewrite Hevs.
    destruct (IH (c + 1) e (l ++ evs)) as [l' Hl'].
    destruct (extract p (c + 1) rest _) as [vs w'']. cbn [snd] in *.
    exists l'. exact Hl'.
Qed.

Lemma Binding_Column_any_log (t : cty) (p : sqlite3_stmt) (c : Z) (out : cval t)
    (e : state) (l1 l2 : list event) :
  fst (Binding_Column t p c out (mkWorld e l1))
  = fst (Binding_Column t p c out (mkWorld e l2)).
Proof.
  destruct (Binding_Column_ref t p c out e) as [v Hv].
  destruct (Hv l1) as [evs1 H1]. destruct (Hv l2) as [evs2 H2].
  rewrite H1, H2. reflexivity.
Qed.

End PositionsOnReferenceEngine.

(** X8: [Bind(arg, args...)] binds the argument at position [k] at the
    index [k + 1] with the Bind rule of its own type, in order, and stops
    at the first status other than success: it is the iteration
    [bind_each] over the arguments.  It makes one engine call per argument
    bound; it returns exactly when every argument has been bound with
    success, and otherwise raises the statement's failure as it is right
    after the failing call, having made no call for the arguments after
    it.  It changes neither the row-available flag nor the handle.  On the
    reference engine, binding as many arguments as the statement has
    parameters returns and leaves parameter [k + 1] holding what the Bind
    rule stores for the argument at position [k]. *)
Theorem bind_stops_at_first_failure
    (E : Sqlite3Engine) (arg : barg) (args : list barg) (s : Statement) (w : World) :
  let p := HandleModel.Get (m_stmt s) in
  Bind arg args (s, w)
  = (fst (bind_each p 1 (arg :: args) w), (s, snd (bind_each p 1 (arg :: args) w))) /\
  (exists out e' evs,
     Bind arg args (s, w) = (out, (s, mkWorld e' (log w ++ evs)))
     /\ map kind_of evs = map (fun k => KBind (1 + Z.of_nat k)) (seq 0 (length evs))
     /\ length (bind_statuses evs) = length evs
     /\ match out with
        | Ret _ =>
            length evs = S (length args)
            /\ Forall (fun res => res = SQLITE_OK) (bind_statuses evs)
        | Throw e =>
            (length evs <= S (length args))%nat
            /\ (exists oks bad,
                  bind_statuses evs = oks ++ [bad]
                  /\ Forall (fun res => res = SQLITE_OK) oks
                  /\ bad <> SQLITE_OK)
            /\ e = sqlite_exception
                     (SqliteException_stmt (HandleModel.Get (m_stmt s))
                        (mkWorld e' (log w ++ evs)))
        end) /\
  (forall (a : @barg RefEngine.ref_engine) (rest : list (@barg RefEngine.ref_engine))
          (ps : list RefEngine.sqlval) (flag : bool)
          (l : list (@event RefEngine.ref_engine)),
     length ps = S (length rest) ->
     let after := Bind a rest
                    (mkStatement (m_stmt Cases.first_statement) flag,
                     @mkWorld RefEngine.ref_engine
                       (Scenario.holding ps [] RefEngine.Ready) l) in
     fst after = Ret tt
     /\ eng (snd (snd after))
        = Scenario.holding
            (map (fun x => Scenario.stored (projT1 x) (projT2 x)) (a :: rest))
            [] RefEngine.Ready).
Proof.
  cbv zeta. split; [|split].
  - unfold Bind. apply Bind_pack_each.
  - unfold Bind. apply Bind_pack_summary.
  - intros a rest ps flag l Hlen. unfold Bind. rewrite Bind_pack_each.
    cbn [fst snd m_stmt Cases.first_statement HandleModel.Get HandleModel.m_handle].
    destruct (bind_each_holding (a :: rest) 0 ps l) as [l' Hl'].
    { cbn [length]. lia. }
    change (Z.of_nat 0 + 1) with 1 in Hl'. rewrite Hl'. cbn [fst snd eng take app].
    split; reflexivity.
Qed.

(** X9: [Column(args...)] checks no engine status and raises no failure of
    its own.  For every engine it reads the argument at position [k] at
    column [k] with the Column rule of its own type, in order, in the world
    left by the reads before it: it is the iteration [extract] over the
    output arguments, and the value at position [k] of the result is the
    one that rule returns.  It returns one value for each output argument,
    of that argument's type, makes only column reads, never steps, and
    changes neither the row-available flag nor the handle; it does so
    whether or not a row is available.  On the reference engine reading
    changes nothing in the engine, and the value at position [k] is what
    the Column rule of the argument reads at column [k] of the engine as
    it was. *)
Theorem column_is_total
    (E : Sqlite3Engine) (args : list carg) (s : Statement) (w : World) :
  let p := HandleModel.Get (m_stmt s) in
  (exists out e' evs,
     Column args (s, w) = (Ret out, (s, mkWorld e' (log w ++ evs)))
     /\ extract p 0 args w = (out, mkWorld e' (log w ++ evs))
     /\ length out = length args
     /\ map (@projT1 _ _) out = map (@projT1 _ _) args
     /\ Forall (fun ev => exists k, (k < length args)%nat
                                    /\ kind_of ev = KColumn (Z.of_nat k)) evs
     /\ steps (log w ++ evs) = steps (log w)
     /\ (forall (k : nat) (a : carg),
           args !! k = Some a ->
           exists v,
             Binding_Column (projT1 a) p (Z.of_nat k) (projT2 a)
               (snd (extract p 0 (take k args) w))
             = (Ret v, snd (extract p 0 (take (S k) args) w))
             /\ out !! k = Some (existT (projT1 a) v))) /\
  (forall (rargs : list (@carg RefEngine.ref_engine)) (rs : Statement)
          (e : RefEngine.state) (l : list (@event RefEngine.ref_engine)),
     exists out l',
       Column rargs (rs, @mkWorld RefEngine.ref_engine e l)
       = (Ret out, (rs, @mkWorld RefEngine.ref_engine e l'))
       /\ forall (k : nat) (a : @carg RefEngine.ref_engine),
            rargs !! k = Some a ->
            exists v,
              fst (Binding_Column (projT1 a) (HandleModel.Get (m_stmt rs))
                     (Z.of_nat k) (projT2 a) (@mkWorld RefEngine.ref_engine e []))
              = Ret v
              /\ out !! k = Some (existT (projT1 a) v)).
Proof.
  cbv zeta. split.
  - rewrite Column_extract.
    destruct (extract_log (HandleModel.Get (m_stmt s)) args 0 w)
      as (e' & evs & Hw & Hk & Hlen & Hty).
    exists (fst (extract (HandleModel.Get (m_stmt s)) 0 args w)), e', evs.
    rewrite Hw. split; [reflexivity|].
    split; [rewrite <- Hw; destruct (extract _ 0 args w); reflexivity|].
    split; [exact Hlen|]. split; [exact Hty|].
    split; [|split].
    + eapply Forall_impl; [exact Hk|]. intros ev (k & Hlt & Hev).
      exists k. split; [exact Hlt|]. rewrite Hev. f_equal.
    + rewrite steps_app. unfold steps at 2.
      rewrite (column_events_no_step evs); [cbn; lia|].
      eapply Forall_impl; [exact Hk|]. intros ev (k & _ & Hev). eauto.
    + intros k a Ha.
      destruct (extract_position (HandleModel.Get (m_stmt s)) args 0 w k a Ha)
        as (v & Hv & Hout).
      exists v. rewrite Z.add_0_l in Hv. split; [exact Hv|exact Hout].
  - intros rargs rs e l. rewrite Column_extract.
    destruct (extract_keeps_engine (HandleModel.Get (m_stmt rs)) rargs 0 e l)
      as [l' Hl'].
    exists (fst (extract (HandleModel.Get (m_stmt rs)) 0 rargs
                   (@mkWorld RefEngine.ref_engine e l))), l'.
    rewrite Hl'. split; [reflexivity|].
    intros k a Ha.
    destruct (extract_position (HandleModel.Get (m_stmt rs)) rargs 0
                (@mkWorld RefEngine.ref_engine e l) k a Ha)
      as (v & Hv & Hout).
    exists v. split; [|exact Hout].
    destruct (extract_keeps_engine (HandleModel.Get (m_stmt rs)) (take k rargs) 0 e l)
      as [lk Hlk].
    rewrite Hlk, Z.add_0_l in Hv.
    rewrite (Binding_Column_any_log _ _ _ _ e [] lk), Hv. reflexivity.
Qed.

(** ** Conversions between integral types *)

Lemma static_cast_modulus (t : ity) : 0 < 2 ^ (8 * Z.of_nat (ity_size t)).
Proof. apply Z.pow_pos_nonneg; lia. Qed.

Lemma static_cast_id (t : ity) (v : Z) : in_range t v -> static_cast t v = v.
Proof.
  unfold in_range, static_cast. cbv zeta.
  pose proof (static_cast_modulus t) as Hm.
  set (m := 2 ^ (8 * Z.of_nat (ity_size t))) in *.
  destruct (ity_signed t); intros Hr.
  - assert (2 * (m / 2) <= m) by (apply Z.mul_div_le; lia).
    rewrite Z.mod_small by lia. lia.
  - apply Z.mod_small. lia.
Qed.

Lemma static_cast_shift (t : ity) (v k : Z) :
  static_cast t (v + k * 2 ^ (8 * Z.of_nat (ity_size t))) = static_cast t v.
Proof.
  unfold static_cast. cbv zeta.
  pose proof (static_cast_modulus t) as Hm.
  set (m := 2 ^ (8 * Z.of_nat (ity_size t))) in *.
  destruct (ity_signed t).
  - replace (v + k * m + m / 2) with (v + m / 2 + k * m) by lia.
    rewrite Z.mod_add by lia. reflexivity.
  - rewrite Z.mod_add by lia. reflexivity.
Qed.

Lemma static_cast_congruent (s : ity) (v : Z) :
  exists k, static_cast s v = v + k * 2 ^ (8 * Z.of_nat (ity_size s)).
Proof.
  unfold static_cast. cbv zeta.
  pose proof (static_cast_modulus s) as Hm.
  set (m := 2 ^ (8 * Z.of_nat (ity_size s))) in *.
  destruct (ity_signed s).
  - exists (- ((v + m / 2) / m)).
    pose proof (Z.div_mod (v + m / 2) m ltac:(lia)). lia.
  - exists (- (v / m)). pose proof (Z.div_mod v m ltac:(lia)). lia.
Qed.

(** Going through a type at least as wide loses nothing more than the
    conversion to the narrow type itself. *)
Lemma static_cast_narrow (t s : ity) (v : Z) :
  (ity_size t <= ity_size s)%nat ->
  static_cast t (static_cast s v) = static_cast t v.
Proof.
  intros Hle. destruct (static_cast_congruent s v) as [k ->].
  replace (2 ^ (8 * Z.of_nat (ity_size s)))
    with (2 ^ (8 * Z.of_nat (ity_size s - ity_size t))
          * 2 ^ (8 * Z.of_nat (ity_size t))).
  - rewrite Z.mul_assoc. apply static_cast_shift.
  - rewrite <- Z.pow_add_r by lia. f_equal. lia.
Qed.

Lemma static_cast_in_range (t : ity) (v : Z) :
  (0 < ity_size t)%nat -> in_range t (static_cast t v).
Proof.
  intros Hpos. unfold in_range, static_cast. cbv zeta.
  pose proof (static_cast_modulus t) as Hm.
  assert (Heven : 2 ^ (8 * Z.of_nat (ity_size t))
                  = 2 * 2 ^ (8 * Z.of_nat (ity_size t) - 1)).
  { rewrite <- Z.pow_succ_r by lia. f_equal. lia. }
  set (m := 2 ^ (8 * Z.of_nat (ity_size t))) in *.
  destruct (ity_signed t).
  - pose proof (Z.mod_pos_bound (v + m / 2) m Hm).
    assert (m / 2 = 2 ^ (8 * Z.of_nat (ity_size t) - 1)).
    { rewrite Heven. rewrite Z.mul_comm. apply Z.div_mul. lia. }
    lia.
  - apply Z.mod_pos_bound. exact Hm.
Qed.

Lemma static_cast_zero (t : ity) (v : Z) :
  static_cast t v = 0 <-> v mod 2 ^ (8 * Z.of_nat (ity_size t)) = 0.
Proof.
  pose proof (static_cast_modulus t) as Hm. split.
  - intros H0. destruct (static_cast_congruent t v) as [k Hk].
    rewrite H0 in Hk.
    replace v with ((- k) * 2 ^ (8 * Z.of_nat (ity_size t))) by lia.
    apply Z_mod_mult.
  - intros H0. unfold static_cast. cbv zeta.
    set (m := 2 ^ (8 * Z.of_nat (ity_size t))) in *.
    destruct (ity_signed t); [|exact H0].
    assert (0 <= m / 2 < m).
    { split; [apply Z.div_pos; lia|apply Z.div_lt; lia]. }
    rewrite Z.add_mod by lia. rewrite H0, Z.add_0_l, Z.mod_mod by lia.
    rewrite Z.mod_small by lia. lia.
Qed.

Lemma cty_eq_dec (a b : cty) : {a = b} + {a <> b}.
Proof. repeat decide equality. Defined.

(** ** Round trips on the reference engine *)

Section RoundTrips.

Import RefEngine Scenario.

Lemma bind_then_fetch_eq (a : barg) (t : cty) (out : cval t) :
  let x := stored (projT1 a) (projT2 a) in
  exists r,
    bind_then_fetch a (existT t out) = Some (existT t r)
    /\ forall l, exists evs,
         Binding_Column t 1 0 out (mkWorld (holding [x] [x] OnRow) l)
         = (Ret r, mkWorld (holding [x] [x] OnRow) (l ++ evs)).
Proof.
  cbv zeta. unfold bind_then_fetch, bind.
  destruct (Execute_select1 a) as [l Hl]. rewrite Hl.
  set (x := stored (projT1 a) (projT2 a)).
  destruct (Binding_Column_ref t 1 0 out (holding [x] [x] OnRow)) as [r Hr].
  exists r. split; [|exact Hr].
  rewrite Fetch_eq. cbv zeta.
  cbn [m_canFetch m_stmt HandleModel.Get HandleModel.m_handle extract projT1 projT2].
  destruct (Hr l) as [evs Hevs]. rewrite Hevs. reflexivity.
Qed.

(** What a column read returns on the row that holds [x]. *)
Lemma read_row {A} (f : sqlval -> A) (x : sqlval) :
  reading f 1 0 (holding [x] [x] OnRow) = (f x, holding [x] [x] OnRow).
Proof. reflexivity. Qed.

Lemma Column_integral_row (t : ity) (x : sqlval) (l : list event) :
  fst (Column_integral t 1 0 (mkWorld (holding [x] [x] OnRow) l))
  = Ret (static_cast t
           (if (ity_size t <? 8)%nat then static_cast int32_t (as_int64 x)
            else as_int64 x)).
Proof.
  unfold Column_integral, bind, ret. change (ity_size int64_t) with 8%nat.
  destruct (ity_size t <? 8)%nat; rewrite call_eq; reflexivity.
Qed.

Lemma Column_string_row (x : sqlval) (l : list event) :
  fst (Column_string 1 0 (mkWorld (holding [x] [x] OnRow) l))
  = Ret (firstn (length (as_bytes x)) (default [] (as_text x))).
Proof.
  unfold Column_string, bind, ret. rewrite call_eq. cbn [fst snd eng log].
  rewrite call_eq. cbn [fst snd eng log].
  change (@sqlite3_column_bytes ref_engine 1 0)
    with (reading (fun v => Z.of_nat (length (as_bytes v))) 1 0).
  rewrite read_row. cbn [fst snd].
  change (@sqlite3_column_text ref_engine 1 0) with (reading as_text 1 0).
  rewrite read_row. cbn [fst snd]. rewrite Nat2Z.id. reflexivity.
Qed.

Lemma Column_span_row (x : sqlval) (arg : byte_range) (l : list event) :
  fst (Column_span 1 0 arg (mkWorld (holding [x] [x] OnRow) l))
  = Ret ((fun dst => memcpy dst (default [] (as_blob x))
                       (Nat.min (length (as_bytes x)) (length dst))) <$> arg).
Proof.
  unfold Column_span, bind, ret. rewrite call_eq. cbn [fst snd eng log].
  rewrite call_eq. cbn [fst snd eng log].
  change (@sqlite3_column_bytes ref_engine 1 0)
    with (reading (fun v => Z.of_nat (length (as_bytes v))) 1 0).
  rewrite read_row. cbn [fst snd].
  change (@sqlite3_column_blob ref_engine 1 0) with (reading as_blob 1 0).
  rewrite read_row. cbn [fst snd]. rewrite Nat2Z.id. reflexivity.
Qed.

Lemma Column_vector_row (x : sqlval) (arg : byte_range) (l : list event) :
  fst (Binding_Column CVector 1 0 arg (mkWorld (holding [x] [x] OnRow) l))
  = Ret ((fun dst => memcpy dst (default [] (as_blob x))
                       (Nat.min (length (as_bytes x)) (length dst)))
         <$> resize arg (length (as_bytes x))).
Proof.
  cbn [Binding_Column]. unfold bind. rewrite call_eq. cbn [fst snd eng log].
  change (@sqlite3_column_bytes ref_engine 1 0)
    with (reading (fun v => Z.of_nat (length (as_bytes v))) 1 0).
  rewrite read_row. cbn [fst snd]. rewrite Nat2Z.id.
  apply Column_span_row.
Qed.

(** The value a round trip returns is the first component of the read. *)
Lemma bind_then_fetch_value (a : barg) (t : cty) (out r : cval t) :
  fst (Binding_Column t 1 0 out
         (mkWorld (holding [stored (projT1 a) (projT2 a)]
                           [stored (projT1 a) (projT2 a)] OnRow) []))
  = Ret r ->
  bind_then_fetch a (existT t out) = Some (existT t r).
Proof.
  intros Hr. destruct (bind_then_fetch_eq a t out) as (r' & Heq & Hspec).
  rewrite Heq. destruct (Hspec []) as [evs Hevs]. rewrite Hevs in Hr.
  cbn [fst] in Hr. inversion Hr. reflexivity.
Qed.

Lemma nul_terminated_app_zero (s rest : list Byte.byte) :
  nul_terminated (s ++ Byte.x00 :: rest) = nul_terminated s.
Proof.
  induction s as [|b s IH]; cbn [nul_terminated app].
  - reflexivity.
  - destruct (Byte.eqb b Byte.x00); [reflexivity|]. rewrite IH. reflexivity.
Qed.

Lemma nul_terminated_id (s : list Byte.byte) :
  nul_terminated s = s <-> ~ In Byte.x00 s.
Proof.
  induction s as [|b s IH]; cbn [nul_terminated In].
  - split; [tauto|reflexivity].
  - destruct (Byte.eqb b Byte.x00) eqn:Hb.
    + apply Byte.byte_dec_bl in Hb. split; [discriminate|]. intros H. tauto.
    + split.
      * intros H. injection H as H. apply IH in H. intros [H0|H0]; [|tauto].
        subst b. discriminate Hb.
      * intros H. f_equal. apply IH. tauto.
Qed.

Lemma length_as_size_t (v : list Byte.byte) :
  Z.of_nat (length v) < 2 ^ 64 ->
  Z.to_nat (static_cast uint64_t (Z.of_nat (length v))) = length v.
Proof.
  intros Hlen. rewrite static_cast_id; [apply Nat2Z.id|].
  unfold in_range. cbn [ity_signed ity_size uint64_t].
  change (2 ^ (8 * Z.of_nat 8)) with (2 ^ 64). cbv zeta. lia.
Qed.

Lemma as_blob_bytes (x : sqlval) : default [] (as_blob x) = as_bytes x.
Proof. unfold as_blob. destruct (as_bytes x); reflexivity. Qed.

(** What the reference engine stores for a range of bytes holds its
    elements; it is NULL exactly when the range has no storage. *)
Lemma stored_range (v : byte_range) :
  Z.of_nat (length (elements v)) < 2 ^ 64 ->
  as_bytes (stored BVector v) = elements v
  /\ stored BSpan v = stored BVector v
  /\ stored BConstSpan v = stored BVector v.
Proof.
  intros Hlen. split; [|split; reflexivity].
  destruct v as [bs|]; cbn [stored elements default as_bytes] in *; [|reflexivity].
  unfold id in *. rewrite length_as_size_t by exact Hlen. apply firstn_all.
Qed.

Lemma resize_length (v : byte_range) (n : nat) :
  length (elements (resize v n)) = n.
Proof.
  destruct v as [l|]; cbn [resize].
  - cbn [elements default]. unfold id.
    rewrite length_app, length_firstn, repeat_length. lia.
  - destruct n; cbn [Nat.eqb elements default]; [reflexivity|].
    unfold id. apply repeat_length.
Qed.

Lemma memcpy_length (dst src : list Byte.byte) (n : nat) :
  (n <= length dst)%nat -> length (memcpy dst src n) = length dst.
Proof.
  intros Hn. unfold memcpy. cbv zeta.
  rewrite length_app, length_skipn.
  pose proof (firstn_le_length n src). lia.
Qed.

Lemma memcpy_beyond (dst src : list Byte.byte) (n i : nat) :
  (n <= i)%nat -> memcpy dst src n !! i = dst !! i.
Proof.
  intros Hi. unfold memcpy. cbv zeta.
  pose proof (firstn_le_length n src) as Hk.
  rewrite lookup_app_r by lia. rewrite lookup_drop. f_equal. lia.
Qed.

Lemma memcpy_whole (dst src : list Byte.byte) :
  memcpy dst src (Nat.min (length src) (length dst))
  = firstn (length dst) src ++ skipn (length src) dst.
Proof.
  unfold memcpy. cbv zeta.
  destruct (Nat.le_ge_cases (length src) (length dst)) as [Hle|Hle].
  - rewrite Nat.min_l by lia. rewrite !firstn_all2 by lia. reflexivity.
  - rewrite Nat.min_r by lia. rewrite length_firstn, Nat.min_l by lia.
    rewrite !skipn_all2 by lia. reflexivity.
Qed.

(** The vector read from a row: it holds the bytes of the cell, and has
    no storage only when it had none and the cell has no byte. *)
Lemma Column_vector_read (out : byte_range) (x : sqlval) :
  fst (Binding_Column CVector 1 0 out (mkWorld (holding [x] [x] OnRow) []))
  = Ret match out, as_bytes x with
        | None, [] => None
        | _, _ => Some (as_bytes x)
        end.
Proof.
  rewrite Column_vector_row, as_blob_bytes. f_equal.
  pose proof (resize_length out (length (as_bytes x))) as Hr.
  destruct (resize out (length (as_bytes x))) as [d|] eqn:Hd.
  - cbn [elements default] in Hr. unfold id in Hr.
    cbn [fmap option_fmap option_map]. rewrite Hr, Nat.min_id.
    unfold memcpy. cbv zeta.
    rewrite firstn_all. rewrite skipn_all2 by lia. rewrite app_nil_r.
    destruct out as [o|]; [reflexivity|].
    destruct (as_bytes x); [discriminate Hd|reflexivity].
  - destruct out as [o|]; [discriminate Hd|].
    destruct (as_bytes x); [reflexivity|discriminate Hd].
Qed.

End RoundTrips.

(** X12: integral values.  An integral type narrower than 64 bits is bound
    as a 32-bit integer and read back through one, a wider one through a
    64-bit integer.  On the reference engine the value read back is the
    value bound, converted to that integer and then to the type; for the
    types of 1, 2, 4 or 8 bytes, signed or unsigned, every value of the
    type comes back unchanged. *)
Theorem integral_round_trip (t : ity) (v out : Z) :
  let wide := if (ity_size t <? 8)%nat then int32_t else int64_t in
  Scenario.roundtrip (CInt t) v out
  = Some (existT (CInt t) (static_cast t (static_cast wide v)))
  /\ (standard_size t -> in_range t v ->
      Scenario.roundtrip (CInt t) v out = Some (existT (CInt t) v)).
Proof.
  cbv zeta.
  assert (Hgen : Scenario.roundtrip (CInt t) v out
                 = Some (existT (CInt t)
                           (static_cast t
                              (static_cast (if (ity_size t <? 8)%nat
                                            then int32_t else int64_t) v)))).
  { unfold Scenario.roundtrip. apply bind_then_fetch_value.
    cbn [projT1 projT2 cty_bty cval_bval Binding_Column Scenario.stored].
    rewrite Column_integral_row.
    destruct (ity_size t <? 8)%nat; cbn [RefEngine.as_int64]; [|reflexivity].
    rewrite (static_cast_narrow int32_t int32_t) by reflexivity. reflexivity. }
  split; [exact Hgen|].
  intros Hsize Hrange. rewrite Hgen. do 2 f_equal.
  rewrite static_cast_narrow; [apply static_cast_id; exact Hrange|].
  unfold standard_size in Hsize.
  destruct Hsize as [H|[H|[H|H]]]; rewrite H; cbn; lia.
Qed.

(** X13: bool.  [true] is bound as the 32-bit integer 1 and [false] as 0;
    a column is read as a 32-bit integer and is [true] when that integer is
    not zero.  On the reference engine a bool comes back unchanged, and an
    integer bound through any integral type reads as [true] exactly when
    its low 32 bits are not all zero. *)
Theorem bool_binding_contract
    (E : Sqlite3Engine) (p : sqlite3_stmt) (i c : Z) (b cur : bool) (w : World) :
  let one := if b then 1 else 0 in
  let v := fst (sqlite3_column_int p c (eng w)) in
  Binding_Bind BBool p i b w
  = call (sqlite3_bind_int p i one) (EvBindInt p i one) w /\
  Binding_Column CBool p c cur w
  = (Ret (negb (Z.eqb (v mod 2 ^ 32) 0)),
     mkWorld (snd (sqlite3_column_int p c (eng w)))
             (log w ++ [EvColumnInt p c v])) /\
  Scenario.roundtrip CBool b cur = Some (existT CBool b) /\
  (forall (t : ity) (n : Z),
     Scenario.bind_then_fetch (existT (BInt t) n) (existT CBool cur)
     = Some (existT CBool (negb (Z.eqb (n mod 2 ^ 32) 0)))).
Proof.
  cbv zeta.
  assert (Hz : forall x, Z.eqb (static_cast int32_t x) 0 = Z.eqb (x mod 2 ^ 32) 0).
  { intros x. pose proof (static_cast_zero int32_t x) as Hx.
    change (2 ^ (8 * Z.of_nat (ity_size int32_t))) with (2 ^ 32) in Hx.
    destruct (Z.eqb_spec (static_cast int32_t x) 0) as [H0|H0];
      destruct (Z.eqb_spec (x mod 2 ^ 32) 0) as [H1|H1]; tauto. }
  split; [|split; [|split]].
  - cbn [Binding_Bind]. unfold Bind_integral.
    change (ity_size int32_t <? ity_size int64_t)%nat with true. cbv iota zeta.
    destruct b; reflexivity.
  - cbn [Binding_Column]. unfold Column_integral, bind, ret.
    change (ity_size int32_t <? ity_size int64_t)%nat with true. cbv beta iota.
    rewrite call_eq. cbn [fst snd]. rewrite Hz. reflexivity.
  - unfold Scenario.roundtrip. apply bind_then_fetch_value.
    cbn [projT1 projT2 cty_bty cval_bval Binding_Column Scenario.stored].
    unfold bind. 
    pose proof (Column_integral_row int32_t
                  (RefEngine.SInteger (static_cast int32_t (if b then 1 else 0))) [])
      as Hrow.
    destruct (Column_integral _ _ _ _) as [o w'] eqn:Hc. cbn [fst] in Hrow.
    subst o. cbn [fst snd]. unfold ret. cbn [fst]. destruct b; reflexivity.
  - intros t n. apply bind_then_fetch_value.
    cbn [projT1 projT2 Binding_Column Scenario.stored]. unfold bind.
    match goal with |- context [Column_integral int32_t 1 0 (mkWorld (Scenario.holding [?x] _ _) _)] =>
      pose proof (Column_integral_row int32_t x []) as Hrow end.
    destruct (Column_integral _ _ _ _) as [o w'] eqn:Hc. cbn [fst] in Hrow.
    subst o. cbn [fst snd]. unfold ret. cbn [fst]. f_equal. f_equal.
    change (ity_size int32_t <? 8)%nat with true. cbv iota.
    rewrite (static_cast_narrow int32_t int32_t) by reflexivity.
    rewrite Hz. clear Hc. f_equal.
    destruct (ity_size t <? 8)%nat; cbn [RefEngine.as_int64].
    + destruct (static_cast_congruent int32_t n) as [k Hk]. rewrite Hk.
      change (2 ^ (8 * Z.of_nat (ity_size int32_t))) with (2 ^ 32).
      rewrite Z.mod_add by lia. reflexivity.
    + destruct (static_cast_congruent int64_t n) as [k Hk]. rewrite Hk.
      change (2 ^ (8 * Z.of_nat (ity_size int64_t))) with (2 ^ 32 * 2 ^ 32).
      rewrite Z.mul_assoc, Z.mod_add by lia. reflexivity.
Qed.

(** X14: reading into a span of bytes.  For every engine the read returns,
    the span keeps its length, and the bytes from position
    [min(len, size)] on are the ones it had: nothing is written past the
    span, and a column longer than the span is cut to the span's size; a
    span without storage stays so.  On the reference engine a range of
    bytes bound as a span and read into a span [out] gives the first
    [size(out)] bytes of the value followed by the bytes of [out] beyond
    the value's length. *)
Theorem span_column_stays_in_bounds
    (E : Sqlite3Engine) (p : sqlite3_stmt) (c : Z) (arg : byte_range)
    (w : World) :
  let len := fst (sqlite3_column_bytes p c (eng w)) in
  let n := Nat.min (Z.to_nat len) (length (elements arg)) in
  (exists r w',
     Binding_Column CSpan p c arg w = (Ret r, w')
     /\ length (elements r) = length (elements arg)
     /\ (forall i, (n <= i)%nat -> elements r !! i = elements arg !! i)
     /\ (r = None <-> arg = None)) /\
  (forall v out : byte_range,
     Z.of_nat (length (elements v)) < 2 ^ 64 ->
     Scenario.roundtrip CSpan v out
     = Some (existT CSpan
               ((fun o => firstn (length o) (elements v)
                          ++ skipn (length (elements v)) o) <$> out))).
Proof.
  cbv zeta. split.
  - cbn [Binding_Column]. unfold Column_span, bind, ret.
    rewrite call_eq. cbn [fst snd eng log]. rewrite call_eq. cbn [fst snd eng log].
    do 2 eexists. split; [reflexivity|].
    destruct arg as [dst|]; cbn [fmap option_fmap option_map elements default];
      unfold id.
    + split; [|split].
      * apply memcpy_length. apply Nat.le_min_r.
      * intros i Hi. apply memcpy_beyond. exact Hi.
      * split; discriminate.
    + split; [reflexivity|]. split; [reflexivity|]. split; reflexivity.
  - intros v out Hlen. unfold Scenario.roundtrip. apply bind_then_fetch_value.
    cbn [projT1 projT2 cty_bty cval_bval Binding_Column].
    rewrite Column_span_row, as_blob_bytes.
    destruct (stored_range v Hlen) as (Hb & Hspan & _).
    rewrite Hspan, Hb. f_equal.
    destruct out as [o|]; [|reflexivity].
    cbn [fmap option_fmap option_map]. rewrite memcpy_whole. reflexivity.
Qed.

(** X15: reading into a vector of bytes.  For every engine the vector is
    resized to the column's byte count before the bytes are copied, so the
    result has that length whatever the vector held.  On the reference
    engine a range of bytes bound as a vector, as a span or as a span of
    constant bytes comes back with the same elements; the vector read has
    no storage only when the output had none and the value is empty. *)
Theorem vector_column_takes_column_size
    (E : Sqlite3Engine) (p : sqlite3_stmt) (c : Z) (arg : byte_range)
    (w : World) :
  let len := fst (sqlite3_column_bytes p c (eng w)) in
  (exists r w',
     Binding_Column CVector p c arg w = (Ret r, w')
     /\ length (elements r) = Z.to_nat len) /\
  (forall v out : byte_range,
     Z.of_nat (length (elements v)) < 2 ^ 64 ->
     let back := match out, elements v with
                 | None, [] => None
                 | _, _ => Some (elements v)
                 end in
     elements back = elements v
     /\ Scenario.roundtrip CVector v out = Some (existT CVector back)
     /\ Scenario.bind_then_fetch (existT BSpan v) (existT CVector out)
        = Some (existT CVector back)
     /\ Scenario.bind_then_fetch (existT BConstSpan v) (existT CVector out)
        = Some (existT CVector back)).
Proof.
  cbv zeta. split.
  - cbn [Binding_Column]. unfold Column_span, bind, ret.
    rewrite call_eq. cbn [fst snd eng log]. rewrite call_eq. cbn [fst snd eng log].
    rewrite call_eq. cbn [fst snd eng log].
    do 2 eexists. split; [reflexivity|].
    pose proof (resize_length arg (Z.to_nat (fst (sqlite3_column_bytes p c (eng w)))))
      as Hr.
    destruct (resize arg _) as [d|];
      cbn [fmap option_fmap option_map elements default] in *; unfold id in *.
    + rewrite memcpy_length by apply Nat.le_min_r. exact Hr.
    + exact Hr.
  - intros v out Hlen.
    destruct (stored_range v Hlen) as (Hb & Hspan & Hconst).
    split.
    { destruct out, (elements v); reflexivity. }
    split; [|split]; [unfold Scenario.roundtrip| |];
      apply bind_then_fetch_value;
      cbn [projT1 projT2 cty_bty cval_bval];
      rewrite ?Hspan, ?Hconst, Column_vector_read, Hb; reflexivity.
Qed.

(** X16: owned text.  On the reference engine a [std::string] bound and
    read back into a [std::string] comes back as its bytes up to the first
    zero byte, whatever the output held; so it comes back unchanged
    exactly when it has no zero byte. *)
Theorem string_round_trip_stops_at_zero (s out : list Byte.byte) :
  Scenario.roundtrip CString s out = Some (existT CString (nul_terminated s))
  /\ (Scenario.roundtrip CString s out = Some (existT CString s)
      <-> ~ In Byte.x00 s).
Proof.
  assert (Hgen : Scenario.roundtrip CString s out
                 = Some (existT CString (nul_terminated s))).
  { unfold Scenario.roundtrip. apply bind_then_fetch_value.
    cbn [projT1 projT2 cty_bty cval_bval Binding_Column Scenario.stored].
    rewrite Column_string_row.
    cbn [RefEngine.as_bytes RefEngine.as_text default]. unfold id.
    rewrite nul_terminated_app_zero.
    rewrite firstn_app, Nat.sub_diag, firstn_all. cbn [firstn].
    rewrite app_nil_r. reflexivity. }
  split; [exact Hgen|]. rewrite Hgen. rewrite <- nul_terminated_id. split.
  - intros H. apply (inj Some) in H.
    apply (Eqdep_dec.inj_pair2_eq_dec cty cty_eq_dec) in H. exact H.
  - intros H. rewrite H. reflexivity.
Qed.

(** X17: character arrays.  An array of [Len] characters, [Len] between 1
    and 2^31, is bound with the explicit length [Len - 1]: the engine is
    given all its characters but the last, zero bytes included.  On the
    reference engine it reads back as those characters; in particular the
    array of a string literal (its characters and the terminator) comes
    back whole even with zero bytes inside. *)
Theorem char_array_binds_all_but_last
    (E : Sqlite3Engine) (p : sqlite3_stmt) (i : Z) (arr out : list Byte.byte)
    (w : World) :
  (1 <= length arr)%nat ->
  Z.of_nat (length arr) <= 2 ^ 31 ->
  let n := Z.of_nat (length arr) - 1 in
  Binding_Bind BCharArray p i arr w
  = call (sqlite3_bind_text p i (Some arr) n SQLITE_TRANSIENT)
         (EvBindText p i (Some arr) n SQLITE_TRANSIENT) w /\
  text_taken arr n = removelast arr /\
  Scenario.bind_then_fetch (existT BCharArray arr) (existT CString out)
  = Some (existT CString (removelast arr)) /\
  (forall s, arr = s ++ [Byte.x00] -> removelast arr = s).
Proof.
  intros Hpos Hmax. cbv zeta.
  assert (Hcast : static_cast int32_t (Z.of_nat (length arr) - 1)
                  = Z.of_nat (length arr) - 1).
  { apply static_cast_id. unfold in_range. cbn [ity_signed ity_size int32_t].
    change (2 ^ (8 * Z.of_nat 4)) with (2 ^ 32). cbv zeta.
    change (2 ^ 32 / 2) with (2 ^ 31). lia. }
  assert (Htake : text_taken arr (Z.of_nat (length arr) - 1) = removelast arr).
  { unfold text_taken.
    destruct (Z.ltb_spec (Z.of_nat (length arr) - 1) 0) as [Hneg|_]; [lia|].
    rewrite removelast_firstn_len. f_equal. lia. }
  split; [|split; [exact Htake|split]].
  - cbn [Binding_Bind]. cbv zeta. rewrite Hcast. reflexivity.
  - apply bind_then_fetch_value.
    cbn [projT1 projT2 Binding_Column Scenario.stored].
    rewrite Column_string_row. rewrite Hcast, Htake.
    cbn [RefEngine.as_bytes RefEngine.as_text default]. unfold id.
    rewrite firstn_app, Nat.sub_diag, firstn_all. cbn [firstn].
    rewrite app_nil_r. reflexivity.
  - intros s ->. apply removelast_last.
Qed.

(** X18: SQL NULL read into an output that is not an optional.  On the
    reference engine, after [nullptr], [std::nullopt], an absent optional
    or a range of bytes without storage has been bound, an integral output
    reads 0, a bool reads false, a string and a vector read empty (the
    vector keeps its storage, if it had any), and a span keeps the bytes it
    had. *)
Theorem null_reads_as_zero (t : ity) (cur : Z) (b : bool) (bytes : list Byte.byte)
    (range : byte_range) (a : barg) :
  Scenario.stored (projT1 a) (projT2 a) = RefEngine.SNull ->
  Scenario.bind_then_fetch a (existT (CInt t) cur) = Some (existT (CInt t) 0) /\
  Scenario.bind_then_fetch a (existT CBool b) = Some (existT CBool false) /\
  Scenario.bind_then_fetch a (existT CString bytes) = Some (existT CString []) /\
  Scenario.bind_then_fetch a (existT CVector range)
  = Some (existT CVector ((fun _ => []) <$> range)) /\
  Scenario.bind_then_fetch a (existT CSpan range) = Some (existT CSpan range).
Proof.
  intros Hnull.
  assert (Hzero : forall s, static_cast s 0 = 0).
  { intros s. apply static_cast_zero. apply Z.mod_0_l.
    pose proof (static_cast_modulus s). lia. }
  split; [|split; [|split; [|split]]].
  - apply bind_then_fetch_value; rewrite Hnull.
    cbn [Binding_Column]. rewrite Column_integral_row. cbn [RefEngine.as_int64].
    destruct (ity_size t <? 8)%nat; rewrite ?Hzero; reflexivity.
  - apply bind_then_fetch_value; rewrite Hnull.
    cbn [Binding_Column]. unfold bind.
    pose proof (Column_integral_row int32_t RefEngine.SNull []) as Hrow.
    destruct (Column_integral _ _ _ _) as [o w'] eqn:Hc. cbn [fst] in Hrow.
    subst o. reflexivity.
  - apply bind_then_fetch_value; rewrite Hnull.
    cbn [Binding_Column]. rewrite Column_string_row. reflexivity.
  - apply bind_then_fetch_value; rewrite Hnull.
    rewrite Column_vector_read. destruct range; reflexivity.
  - apply bind_then_fetch_value; rewrite Hnull.
    cbn [Binding_Column]. rewrite Column_span_row.
    destruct range; reflexivity.
Qed.

(** ** Bindings do not outlive an Execute *)

Section Rebinding.

Import RefEngine Scenario.

Lemma reset_on_row (x : sqlval) :
  sqlite3_reset 1 (holding [x] [x] OnRow) = (SQLITE_OK, holding [x] [] Ready).
Proof. reflexivity. Qed.

Lemma clear_after_reset (x : sqlval) :
  sqlite3_clear_bindings 1 (holding [x] [] Ready)
  = (SQLITE_OK, holding [SNull] [] Ready).
Proof. reflexivity. Qed.

Lemma Execute_again (x : sqlval) (b : bool) (l : list event) :
  exists l',
    Execute [] (mkStatement (HandleModel.mkHandle 1 (Some fn_sqlite3_finalize)) b,
                mkWorld (holding [x] [x] OnRow) l)
    = (Ret tt,
       (mkStatement (HandleModel.mkHandle 1 (Some fn_sqlite3_finalize)) true,
        mkWorld (holding [SNull] [SNull] OnRow) l')).
Proof.
  cbn [Execute]. unfold Execute_void, bind.
  rewrite Reset_eq. cbv zeta.
  cbn [m_stmt HandleModel.Get HandleModel.m_handle eng log].
  rewrite reset_on_row. cbn [fst snd].
  change (negb (Z.eqb SQLITE_OK SQLITE_OK)) with false. cbn iota.
  rewrite Unbind_eq. cbv zeta.
  cbn [m_stmt HandleModel.Get HandleModel.m_handle eng log].
  rewrite clear_after_reset. cbn [fst snd].
  change (negb (Z.eqb SQLITE_OK SQLITE_OK)) with false. cbn iota.
  rewrite Step_eq. cbv zeta. unfold step_result, stepped.
  cbn [m_stmt HandleModel.Get HandleModel.m_handle eng log].
  rewrite step_ready. cbn [fst snd].
  change (Z.eqb SQLITE_ROW SQLITE_ROW) with true.
  cbn [negb andb]. eexists; reflexivity.
Qed.

Lemma Column_optional_null (t : cty) (out : option (cval t)) (l : list event) :
  Binding_Column (COptional t) 1 0 out (mkWorld (holding [SNull] [SNull] OnRow) l)
  = (Ret None,
     mkWorld (holding [SNull] [SNull] OnRow) (l ++ [EvColumnType 1 0 SQLITE_NULL])).
Proof. cbn [Binding_Column]. unfold bind. rewrite call_eq. reflexivity. Qed.

End Rebinding.

(** X20: bindings do not outlive an [Execute].  On the reference engine,
    after [Execute(a)] has bound any value [a], a following [Execute()]
    resets the statement and clears the binding, so the row it produces
    holds SQL NULL: [Fetch] returns true and an optional output of any type
    comes back absent, whatever it held. *)
Theorem execute_clears_previous_bindings
    (a : barg) (t : cty) (out : option (@cval RefEngine.ref_engine t)) :
  fst ((Execute [a] ;; Execute [] ;; Fetch [existT (COptional t) out])%M
         Scenario.select1)
  = Ret (true, [Scenario.absent t]).
Proof.
  unfold bind. destruct (Execute_select1 a) as [l Hl]. rewrite Hl.
  destruct (Execute_again (Scenario.stored (projT1 a) (projT2 a)) true l) as [l' Hl'].
  rewrite Hl'. rewrite Fetch_eq. cbv zeta.
  cbn [m_canFetch m_stmt HandleModel.Get HandleModel.m_handle extract projT1 projT2].
  rewrite Column_optional_null. reflexivity.
Qed.

(** ** The operators of DatabaseOpenFlags *)

Lemma int_range_shiftr (x : Z) :
  in_range int32_t x <-> Z.shiftr x 31 = 0 \/ Z.shiftr x 31 = -1.
Proof.
  unfold in_range. cbn [ity_signed ity_size int32_t]. cbv zeta.
  change (2 ^ (8 * Z.of_nat 4)) with 4294967296.
  change (4294967296 / 2) with 2147483648.
  rewrite Z.shiftr_div_pow2 by lia. change (2 ^ 31) with 2147483648.
  pose proof (Z.div_mod x 2147483648 ltac:(lia)).
  pose proof (Z.mod_pos_bound x 2147483648 ltac:(lia)).
  lia.
Qed.

(** X19: the operators of [DatabaseOpenFlags].  On values of the
    underlying type [int] the operators stay within [int], so the
    conversions back to the enumeration change nothing.  Setting flags and
    testing them gives them back; clearing flags with [& ~] leaves none of
    them set; toggling twice restores the value; and setting flags leaves a
    test of flags disjoint from them as it was. *)
Theorem flags_operator_laws (a b : DatabaseOpenFlags) :
  in_range int32_t a -> in_range int32_t b ->
  (in_range int32_t (flags_or a b) /\ in_range int32_t (flags_and a b)
   /\ in_range int32_t (flags_xor a b) /\ in_range int32_t (flags_not a)) /\
  flags_and (flags_or_assign a b) b = b /\
  flags_and (flags_and_assign a (flags_not b)) b = Flags_None /\
  flags_xor_assign (flags_xor_assign a b) b = a /\
  flags_or a Flags_None = a /\
  (forall c, flags_and b c = Flags_None ->
     flags_and (flags_or a b) c = flags_and a c
     /\ flags_and (flags_and a (flags_not b)) c = flags_and a c
     /\ flags_and (flags_xor a b) c = flags_and a c).
Proof.
  intros Ha Hb.
  unfold flags_or_assign, flags_and_assign, flags_xor_assign,
    flags_or, flags_and, flags_xor, flags_not, Flags_None.
  split; [|split; [|split; [|split; [|split]]]].
  - pose proof Ha as Ha'. apply int_range_shiftr in Ha, Hb.
    split; [|split; [|split]].
    + apply int_range_shiftr. rewrite Z.shiftr_lor.
      destruct Ha as [-> | ->], Hb as [-> | ->]; cbn; auto.
    + apply int_range_shiftr. rewrite Z.shiftr_land.
      destruct Ha as [-> | ->], Hb as [-> | ->]; cbn; auto.
    + apply int_range_shiftr. rewrite Z.shiftr_lxor.
      destruct Ha as [-> | ->], Hb as [-> | ->]; cbn; auto.
    + revert Ha'. unfold in_range. cbn [ity_signed ity_size int32_t]. cbv zeta.
      unfold Z.lnot. lia.
  - apply Z.bits_inj'. intros n Hn. rewrite Z.land_spec, Z.lor_spec.
    destruct (Z.testbit a n), (Z.testbit b n); reflexivity.
  - apply Z.bits_inj'. intros n Hn.
    rewrite !Z.land_spec, Z.lnot_spec, Z.bits_0 by exact Hn.
    destruct (Z.testbit a n), (Z.testbit b n); reflexivity.
  - apply Z.bits_inj'. intros n Hn. rewrite !Z.lxor_spec.
    destruct (Z.testbit a n), (Z.testbit b n); reflexivity.
  - apply Z.lor_0_r.
  - intros c Hc.
    assert (Hbit : forall n, 0 <= n -> Z.testbit b n && Z.testbit c n = false).
    { intros n Hn. rewrite <- Z.land_spec, Hc. apply Z.bits_0. }
    split; [|split]; apply Z.bits_inj'; intros n Hn; specialize (Hbit n Hn);
      rewrite ?Z.land_spec, ?Z.lor_spec, ?Z.lxor_spec, ?Z.lnot_spec by exact Hn;
      destruct (Z.testbit a n), (Z.testbit b n), (Z.testbit c n);
      cbn in *; congruence.
Qed.

(** ** The further properties at concrete inputs *)

(** X2 at a concrete input: the owner of statement 7 is moved into a new
    handle; the new handle holds 7 and nothing has been released. *)
Lemma move_construction_transfers_witness :
  HandleModel.Get_at
    (fst (HandleModel.Handle_move_ctor nullptr 0 Scenario.two_handles))
    (snd (HandleModel.Handle_move_ctor nullptr 0 Scenario.two_handles))
  = Some 7 /\
  HandleModel.calls (snd (HandleModel.Handle_move_ctor nullptr 0 Scenario.two_handles))
  = [].
Proof.
  pose proof (HandleMore.move_construction_transfers nullptr 0%nat Scenario.owner
                Scenario.two_handles (fn_sqlite3_finalize, 7) eq_refl) as H.
  cbv zeta in H. destruct H as (_ & _ & Hcalls & _ & Hget & _).
  split; [exact Hget|exact Hcalls].
Defined.

(** X4 at concrete inputs: the engine writes statement 7, and a null
    pointer, into the handle of a statement under construction. *)
Lemma out_pointer_value_is_released_witness :
  HandleModel.calls
    (HandleModel.destroy_at nullptr 0
       (HandleModel.store_through 0 7 Cases.under_construction))
  = [(fn_sqlite3_finalize, 7)] /\
  HandleModel.calls
    (HandleModel.destroy_at nullptr 0
       (HandleModel.store_through 0 nullptr Cases.under_construction))
  = [].
Proof.
  pose proof (HandleMore.out_pointer_value_is_released nullptr 0%nat
                (HandleModel.mkHandle nullptr (Some fn_sqlite3_finalize))
                fn_sqlite3_finalize 7 Cases.under_construction eq_refl eq_refl) as H7.
  pose proof (HandleMore.out_pointer_value_is_released nullptr 0%nat
                (HandleModel.mkHandle nullptr (Some fn_sqlite3_finalize))
                fn_sqlite3_finalize nullptr Cases.under_construction eq_refl eq_refl)
    as H0.
  cbv zeta in H7, H0.
  destruct H7 as (_ & _ & H7 & _). destruct H0 as (_ & _ & H0 & _).
  split; [exact H7|exact H0].
Defined.

(** X5 at concrete inputs: the reference engine opens [":memory:"]; an
    engine that cannot open the file hands back connection 1, which is
    closed once. *)
Lemma database_open_contract_witness :
  Database_ctor None 0 RefEngine.world0
  = (Ret Scenario.connection,
     mkWorld RefEngine.initial
       [EvOpen (c_str (list_byte_of_string ":memory:")) 0 SQLITE_OK 1]) /\
  closed (log (snd (Database_ctor (E := Cases.cannot_open) None 0 Cases.nothing_open)))
  = [1].
Proof.
  pose proof (database_open_contract (E := RefEngine.ref_engine) None 0
                RefEngine.world0) as Hok.
  pose proof (database_open_contract (E := Cases.cannot_open) None 0
                Cases.nothing_open) as Hbad.
  cbv zeta in Hok, Hbad.
  destruct Hok as (_ & Hok & _). destruct Hbad as (_ & _ & Hbad).
  split.
  - exact (proj1 (Hok eq_refl)).
  - refine (proj2 (proj2 (Hbad _))). apply Z.eqb_neq. reflexivity.
Defined.

(** X6 at a concrete input: the reference engine rejects the text
    ["DROP"] and writes a null statement; nothing is finalized. *)
Lemma failed_prepare_is_finalized_witness :
  finalized (log (snd (Statement_ctor Scenario.connection (RefEngine.literal "DROP")
                         RefEngine.world0)))
  = [].
Proof.
  refine (proj2 (failed_prepare_is_finalized Scenario.connection
                   (RefEngine.literal "DROP") RefEngine.world0 eq_refl _)).
  apply Z.eqb_neq. reflexivity.
Defined.

(** X7 at a concrete input: [Execute("SELECT ?", 7)] on the connection
    finalizes statement 1. *)
Lemma database_execute_finalizes_witness :
  finalized (log (snd (Database_Execute Scenario.connection
                         (RefEngine.literal "SELECT ?") [Cases.seven]
                         RefEngine.world0)))
  = [1].
Proof.
  exact (proj2 (proj2 (database_execute_finalizes Scenario.connection
                         (RefEngine.literal "SELECT ?") [Cases.seven]
                         RefEngine.world0 eq_refl eq_refl))).
Defined.

(** X8 at a concrete input: [Bind(7, 8)] on a statement for
    [SELECT ?, ?] leaves the first parameter holding 7 and the second
    holding 8. *)
Lemma bind_stops_at_first_failure_witness :
  let after := Bind Cases.seven [existT (BInt int32_t) 8 : barg]
                 (fst Cases.select2, snd Cases.select2) in
  fst after = Ret tt /\
  eng (snd (snd after))
  = Scenario.holding [RefEngine.SInteger 7; RefEngine.SInteger 8] []
      RefEngine.Ready.
Proof.
  pose proof (bind_stops_at_first_failure RefEngine.ref_engine Cases.seven []
                (fst Cases.select2) (snd Cases.select2)) as H.
  cbv zeta in H. destruct H as (_ & _ & H).
  exact (H Cases.seven [existT (BInt int32_t) 8 : barg]
           [RefEngine.SNull; RefEngine.SNull] false [] eq_refl).
Defined.

(** X9 at a concrete input: two integers read from a row holding 1 and
    2. *)
Lemma column_is_total_witness :
  exists out,
    fst (Column [Cases.int_out; Cases.int_out] (Cases.first_statement, Cases.one_two))
    = Ret out
    /\ out !! 0%nat = Some (existT (CInt int32_t) 1 : carg)
    /\ out !! 1%nat = Some (existT (CInt int32_t) 2 : carg).
Proof.
  pose proof (column_is_total RefEngine.ref_engine [] Cases.first_statement
                Cases.one_two) as H.
  cbv zeta in H. destruct H as [_ H].
  destruct (H [Cases.int_out; Cases.int_out] Cases.first_statement
              (eng Cases.one_two) []) as (out & l' & Heq & Hpos).
  exists out. split; [exact (f_equal fst Heq)|].
  destruct (Hpos 0%nat Cases.int_out eq_refl) as (v0 & Hv0 & Hout0).
  destruct (Hpos 1%nat Cases.int_out eq_refl) as (v1 & Hv1 & Hout1).
  assert (H0 : Ret v0 = Ret 1) by (rewrite <- Hv0; reflexivity).
  assert (H1 : Ret v1 = Ret 2) by (rewrite <- Hv1; reflexivity).
  injection H0 as ->. injection H1 as ->.
  split; [exact Hout0|exact Hout1].
Defined.

(** X10 at concrete inputs: a stale statement, whose reset fails, and a
    fresh statement on an interrupted engine, whose step fails. *)
Lemma execute_leaves_flag_witness :
  (is_ret (fst (Execute [] (fst Cases.stale, snd Cases.stale))) = false
   /\ fst (snd (Execute [] (fst Cases.stale, snd Cases.stale))) = fst Cases.stale) /\
  m_canFetch (fst (snd (Execute [] (fst Scenario.idle_then_interrupt,
                                    snd Scenario.idle_then_interrupt))))
  = false /\
  exists evs res,
    log (snd (snd (Execute [Cases.seven] (fst Scenario.select1, snd Scenario.select1))))
    = log (snd Scenario.select1) ++ evs
    /\ step_statuses evs = [res]
    /\ (res = SQLITE_ROW \/ res = SQLITE_DONE)
    /\ m_canFetch (fst (snd (Execute [Cases.seven]
                               (fst Scenario.select1, snd Scenario.select1))))
       = is_row res.
Proof.
  pose proof (execute_leaves_flag [] (fst Cases.stale) (snd Cases.stale)) as Hstale.
  pose proof (execute_leaves_flag [] (fst Scenario.idle_then_interrupt)
                (snd Scenario.idle_then_interrupt)) as Hint.
  pose proof (execute_leaves_flag [Cases.seven] (fst Scenario.select1)
                (snd Scenario.select1)) as Hrow.
  cbv zeta in Hstale, Hint, Hrow.
  destruct Hstale as (_ & Hstale & _). destruct Hint as (_ & _ & Hint).
  destruct Hrow as (_ & _ & Hrow).
  split; [|split].
  - apply Hstale. apply Z.eqb_neq. reflexivity.
  - exact (proj1 (Hint eq_refl) eq_refl).
  - exact (proj2 (Hrow eq_refl) eq_refl).
Defined.

(** X11 at a concrete input: [Execute(7)] on a fresh statement and then
    [Fetch]: true, with one step in all. *)
Lemma execute_then_fetch_witness :
  let st1 := snd (Execute [Cases.seven] (fst Scenario.select1, snd Scenario.select1)) in
  fetched (Fetch [Cases.int_out] (fst st1, snd st1)) = Some true /\
  steps (log (snd (snd (Fetch [Cases.int_out] (fst st1, snd st1))))) = 1%nat.
Proof.
  pose proof (execute_then_fetch [Cases.seven] [Cases.int_out] (fst Scenario.select1)
                (snd Scenario.select1) eq_refl) as H.
  cbv zeta in H. destruct H as (_ & H & _). exact (H eq_refl).
Defined.

(** X12 at concrete inputs: the largest 32-bit unsigned value, which is
    bound as the 32-bit integer -1, and the smallest 8-bit signed value. *)
Lemma integral_round_trip_witness :
  Scenario.roundtrip (CInt uint32_t) 4294967295 0
  = Some (existT (CInt uint32_t) 4294967295) /\
  Scenario.roundtrip (CInt int8_t) (-128) 0 = Some (existT (CInt int8_t) (-128)).
Proof.
  split.
  - refine (proj2 (integral_round_trip uint32_t 4294967295 0) _ _).
    + right. right. left. reflexivity.
    + vm_compute. split; [discriminate|reflexivity].
  - refine (proj2 (integral_round_trip int8_t (-128) 0) _ _).
    + left. reflexivity.
    + vm_compute. split; [discriminate|reflexivity].
Defined.

(** X14 at a concrete input: three bytes read into a span of two. *)
Lemma span_column_stays_in_bounds_witness :
  Scenario.roundtrip CSpan (Some [Byte.x01; Byte.x02; Byte.x03])
    (Some [Byte.x09; Byte.x09])
  = Some (existT CSpan (Some [Byte.x01; Byte.x02])).
Proof.
  refine (proj2 (span_column_stays_in_bounds RefEngine.ref_engine 1 0 None
                   RefEngine.world0)
            (Some [Byte.x01; Byte.x02; Byte.x03]) (Some [Byte.x09; Byte.x09]) _).
  reflexivity.
Defined.

(** X15 at concrete inputs: two bytes read into a vector that held
    three, and an empty vector without storage, which is bound as NULL and
    read back empty. *)
Lemma vector_column_takes_column_size_witness :
  Scenario.roundtrip CVector (Some [Byte.x01; Byte.x02])
    (Some [Byte.x09; Byte.x09; Byte.x09])
  = Some (existT CVector (Some [Byte.x01; Byte.x02])) /\
  Scenario.roundtrip CVector None None = Some (existT CVector None).
Proof.
  pose proof (vector_column_takes_column_size RefEngine.ref_engine 1 0 None
                RefEngine.world0) as H.
  cbv zeta in H. destruct H as [_ H].
  split.
  - refine (proj1 (proj2 (H (Some [Byte.x01; Byte.x02])
                            (Some [Byte.x09; Byte.x09; Byte.x09]) _))).
    reflexivity.
  - refine (proj1 (proj2 (H None None _))). reflexivity.
Defined.

(** X16 at concrete inputs: ["a\0b"] comes back as ["a"], and ["ab"]
    unchanged. *)
Lemma string_round_trip_stops_at_zero_witness :
  Scenario.roundtrip CString Cases.a0b [] = Some (existT CString [Byte.x61]) /\
  Scenario.roundtrip CString [Byte.x61; Byte.x62] []
  = Some (existT CString [Byte.x61; Byte.x62]).
Proof.
  split.
  - exact (proj1 (string_round_trip_stops_at_zero Cases.a0b [])).
  - refine (proj2 (proj2 (string_round_trip_stops_at_zero [Byte.x61; Byte.x62] [])) _).
    intros [H|[H|[]]]; discriminate H.
Defined.

(** X17 at a concrete input: the array of the literal ["a\0b"]. *)
Lemma char_array_binds_all_but_last_witness :
  Scenario.bind_then_fetch (existT BCharArray Cases.a0b_array) (existT CString [])
  = Some (existT CString Cases.a0b).
Proof.
  pose proof (char_array_binds_all_but_last RefEngine.ref_engine 1 1
                Cases.a0b_array [] RefEngine.world0) as H.
  cbv zeta in H.
  refine (proj1 (proj2 (proj2 (H _ _)))).
  - cbn. lia.
  - cbn. lia.
Defined.

(** X18 at a concrete input: [nullptr] is bound and an integer is read. *)
Lemma null_reads_as_zero_witness :
  Scenario.bind_then_fetch (existT BNullptr tt) (existT (CInt int32_t) 5)
  = Some (existT (CInt int32_t) 0).
Proof.
  exact (proj1 (null_reads_as_zero int32_t 5 true [] None (existT BNullptr tt)
                  eq_refl)).
Defined.

(** X19 at a concrete input: the flags 2 and 4, and a test of flag 1. *)
Lemma flags_operator_laws_witness :
  flags_and (flags_or_assign 2 4) 4 = 4 /\
  flags_and (flags_and_assign 6 (flags_not 4)) 4 = Flags_None /\
  flags_and (flags_or 2 4) 1 = flags_and 2 1.
Proof.
  assert (Hr : forall v, 0 <= v < 8 -> in_range int32_t v).
  { intros v Hv. unfold in_range. cbn [ity_signed ity_size int32_t]. cbv zeta.
    change (2 ^ (8 * Z.of_nat 4)) with 4294967296.
    change (4294967296 / 2) with 2147483648. lia. }
  pose proof (flags_operator_laws 2 4 (Hr 2 ltac:(lia)) (Hr 4 ltac:(lia))) as H24.
  pose proof (flags_operator_laws 6 4 (Hr 6 ltac:(lia)) (Hr 4 ltac:(lia))) as H64.
  destruct H24 as (_ & Hset & _ & _ & _ & Hother).
  destruct H64 as (_ & _ & Hclear & _).
  split; [exact Hset|]. split; [exact Hclear|].
  exact (proj1 (Hother 1 eq_refl)).
Defined.
